(** * faceswap [lib/config.py]: the configuration store

    A shallow embedding of the class [FaceswapConfig] and of the part of
    Python's [configparser.ConfigParser] it drives, followed by the
    properties of the store.

    Conventions of the model:
    - Python [str] is [string]; case mapping and white space are those of
      Python on ASCII text (bytes above 127 are carried along unchanged).
    - Exceptions are the [Raise] outcome of [result]; [OutsideModel] marks
      the few library behaviours the model leaves out (they are listed with
      the [ConfigParser] model) so that no definition returns a value where
      the model does not know Python's.
    - [OrderedDict] and [dict] are association lists without duplicate keys,
      updated in place or extended at the end, as Python does. *)

From Stdlib Require Import Bool List String Ascii ZArith Lia.
From Stdlib Require Import DecimalString DecimalZ DecimalPos DecimalN DecimalFacts.
Import ListNotations.

Local Open Scope string_scope.
Local Open Scope list_scope.

(* ================================================================= *)
(** ** Outcomes *)

Inductive exn : Type :=
| ValueError
| KeyError
| TypeError
| AttributeError
| NoSectionError
| NoOptionError
| DuplicateSectionError
| OutsideModel.

Inductive result (A : Type) : Type :=
| Ok (a : A)
| Raise (e : exn).

Arguments Ok {A} a.
Arguments Raise {A} e.

Definition bind {A B : Type} (r : result A) (k : A -> result B) : result B :=
  match r with
  | Ok a => k a
  | Raise e => Raise e
  end.

Declare Scope py_scope.
Delimit Scope py_scope with py.
Notation "x <- e ;; k" := (bind e (fun x => k))
  (at level 61, e at next level, right associativity) : py_scope.
Notation "e ;;; k" := (bind e (fun _ => k))
  (at level 61, right associativity) : py_scope.
Local Open Scope py_scope.

(** A [for] loop whose body may raise: the first exception ends the loop. *)
Fixpoint for_each {A S : Type} (body : A -> S -> result S) (xs : list A) (s : S)
  : result S :=
  match xs with
  | [] => Ok s
  | x :: rest => s' <- body x s ;; for_each body rest s'
  end.

(* ================================================================= *)
(** ** Python strings *)

Module Str.

Definition code (c : ascii) : nat := nat_of_ascii c.

Definition newline : ascii := ascii_of_nat 10.
Definition tab : ascii := ascii_of_nat 9.
Definition dquote : ascii := ascii_of_nat 34.
Definition backslash : ascii := ascii_of_nat 92.

(** [str.isspace] on ASCII: TAB, LF, VT, FF, CR, FS, GS, RS, US and space. *)
Definition is_space (c : ascii) : bool :=
  let n := code c in
  (((9 <=? n) && (n <=? 13)) || ((28 <=? n) && (n <=? 32)))%nat.

Definition lower_char (c : ascii) : ascii :=
  let n := code c in
  if ((65 <=? n) && (n <=? 90))%nat then ascii_of_nat (n + 32) else c.

Definition upper_char (c : ascii) : ascii :=
  let n := code c in
  if ((97 <=? n) && (n <=? 122))%nat then ascii_of_nat (n - 32) else c.

Fixpoint map_chars (f : ascii -> ascii) (s : string) : string :=
  match s with
  | EmptyString => EmptyString
  | String c r => String (f c) (map_chars f r)
  end.

Definition lower : string -> string := map_chars lower_char.
Definition upper : string -> string := map_chars upper_char.

Fixpoint lstrip (s : string) : string :=
  match s with
  | EmptyString => EmptyString
  | String c r => if is_space c then lstrip r else s
  end.

Fixpoint rstrip (s : string) : string :=
  match s with
  | EmptyString => EmptyString
  | String c r =>
      match rstrip r with
      | EmptyString => if is_space c then EmptyString else String c EmptyString
      | r' => String c r'
      end
  end.

Definition strip (s : string) : string := rstrip (lstrip s).

Definition startswith (s p : string) : bool := prefix p s.

(** [c in s] for a one-character [c]. *)
Fixpoint contains (c : ascii) (s : string) : bool :=
  match s with
  | EmptyString => false
  | String c' r => Ascii.eqb c c' || contains c r
  end.

(** [s.split(sep)] for a one-character separator: never empty. *)
Fixpoint split (sep : ascii) (s : string) : list string :=
  match s with
  | EmptyString => [EmptyString]
  | String c r =>
      if Ascii.eqb c sep then EmptyString :: split sep r
      else match split sep r with
           | h :: t => String c h :: t
           | [] => [String c EmptyString]
           end
  end.

(** [s.split()] (no separator): the maximal runs of non-space characters. *)
Fixpoint split_ws (s : string) : list string :=
  match s with
  | EmptyString => []
  | String c r =>
      if is_space c then split_ws r
      else match r with
           | EmptyString => [String c EmptyString]
           | String c' _ =>
               if is_space c' then String c EmptyString :: split_ws r
               else match split_ws r with
                    | h :: t => String c h :: t
                    | [] => [String c EmptyString]
                    end
           end
  end.

(** [sep.join(l)]. *)
Definition join (sep : string) (l : list string) : string := concat sep l.

(** [s.replace(c, by)] for a one-character [c]. *)
Fixpoint replace (c : ascii) (by_ : string) (s : string) : string :=
  match s with
  | EmptyString => EmptyString
  | String c' r =>
      if Ascii.eqb c c' then by_ ++ replace c by_ r
      else String c' (replace c by_ r)
  end.

(** [x in l] for a list of strings. *)
Definition mem (x : string) (l : list string) : bool :=
  existsb (String.eqb x) l.

(** [bool(s)]: a string is true when it is not empty. *)
Definition truthy (s : string) : bool :=
  match s with EmptyString => false | _ => true end.

End Str.


(* ================================================================= *)
(** ** Python values *)

(** The values an option's default, and the result of a typed read, can
    take.  A float is written [VFloat lit] with the text [lit] that Python
    prints for it ([repr], also [str]); [Py.float_of_str] gives for every
    literal of the model's floats that text, so that two floats are equal
    when their texts are.  Arithmetic and comparison of floats are not part
    of the model. *)
Inductive pyval : Type :=
| VNone
| VStr (s : string)
| VBool (b : bool)
| VInt (z : Z)
| VFloat (lit : string)
| VList (l : list string).

Module Py.

(** [str(z)] for an [int]. *)
Definition str_of_int (z : Z) : string := NilEmpty.string_of_int (Z.to_int z).

Definition hex_digit (n : nat) : ascii :=
  if (n <? 10)%nat then ascii_of_nat (48 + n) else ascii_of_nat (87 + n).

(** [repr(s)] for a [str]: quoted with an apostrophe, or with a double quote
    when the text has an apostrophe and no double quote; the quote, the
    backslash and the control characters are escaped. *)
Definition repr_char (quote : ascii) (c : ascii) : string :=
  let n := Str.code c in
  let esc (x : string) := String Str.backslash x in
  if Ascii.eqb c Str.backslash then esc (String Str.backslash EmptyString)
  else if Ascii.eqb c quote then esc (String c EmptyString)
  else if (n =? 10)%nat then esc "n"
  else if (n =? 13)%nat then esc "r"
  else if (n =? 9)%nat then esc "t"
  else if ((n <? 32) || (n =? 127))%nat
       then esc (String "x"%char
              (String (hex_digit (n / 16)) (String (hex_digit (n mod 16)) EmptyString)))
  else String c EmptyString.

Fixpoint repr_body (quote : ascii) (s : string) : string :=
  match s with
  | EmptyString => EmptyString
  | String c r => repr_char quote c ++ repr_body quote r
  end.

Definition repr_str (s : string) : string :=
  let quote := if Str.contains "'"%char s && negb (Str.contains Str.dquote s)
               then Str.dquote else "'"%char in
  String quote (repr_body quote s ++ String quote EmptyString).

(** [str(t)] for a tuple of strings. *)
Definition str_tuple (l : list string) : string :=
  ("(" ++ Str.join ", " (map repr_str l)
       ++ match l with [_] => "," | _ => "" end ++ ")")%string.

(** [str(v)]. *)
Definition str (v : pyval) : string :=
  match v with
  | VNone => "None"
  | VStr s => s
  | VBool true => "True"
  | VBool false => "False"
  | VInt z => str_of_int z
  | VFloat lit => lit
  | VList l => "[" ++ Str.join ", " (map repr_str l) ++ "]"
  end.

Definition digit (c : ascii) : option (Decimal.uint -> Decimal.uint) :=
  match Str.code c with
  | 48 => Some Decimal.D0 | 49 => Some Decimal.D1 | 50 => Some Decimal.D2
  | 51 => Some Decimal.D3 | 52 => Some Decimal.D4 | 53 => Some Decimal.D5
  | 54 => Some Decimal.D6 | 55 => Some Decimal.D7 | 56 => Some Decimal.D8
  | 57 => Some Decimal.D9 | _ => None
  end%nat.

Definition is_digit (c : ascii) : bool :=
  match digit c with Some _ => true | None => false end.

(** The digits of an integer literal: digits, with single underscores
    allowed between two of them. *)
Fixpoint parse_digits (s : string) : option Decimal.uint :=
  match s with
  | EmptyString => None
  | String c r =>
      match digit c with
      | None => None
      | Some d =>
          match r with
          | EmptyString => Some (d Decimal.Nil)
          | String c' r' =>
              if Ascii.eqb c' "_"%char then option_map d (parse_digits r')
              else option_map d (parse_digits r)
          end
      end
  end.

(** White space for [int()] and [float()]: C's [isspace] on ASCII, that is
    TAB, LF, VT, FF, CR and the space.  Unlike [str.strip], the two
    conversions do not skip the separators FS, GS, RS and US. *)
Definition is_c_space (c : ascii) : bool :=
  let n := Str.code c in
  (((9 <=? n) && (n <=? 13)) || (n =? 32))%nat.

Fixpoint num_lstrip (s : string) : string :=
  match s with
  | EmptyString => EmptyString
  | String c r => if is_c_space c then num_lstrip r else s
  end.

Fixpoint num_rstrip (s : string) : string :=
  match s with
  | EmptyString => EmptyString
  | String c r =>
      match num_rstrip r with
      | EmptyString => if is_c_space c then EmptyString else String c EmptyString
      | r' => String c r'
      end
  end.

Definition num_strip (s : string) : string := num_rstrip (num_lstrip s).

(** [int(s)]: white space around, an optional sign, decimal digits.  The
    interpreter's limit on the number of digits of a conversion (4300 by
    default, since Python 3.11) is not part of the model. *)
Definition int_of_str (s : string) : result Z :=
  let t := num_strip s in
  let signed :=
    match t with
    | String c r =>
        if Ascii.eqb c "-"%char then option_map Decimal.Neg (parse_digits r)
        else if Ascii.eqb c "+"%char then option_map Decimal.Pos (parse_digits r)
        else option_map Decimal.Pos (parse_digits t)
    | EmptyString => None
    end in
  match signed with
  | Some i => Ok (Z.of_int i)
  | None => Raise ValueError
  end.

(** *** Floats

    The floats of the model are the decimal numbers of at most fifteen
    significant digits in the range of the normal doubles, the zeros, the
    infinities and NaN.  Each of these decimals is a double of its own, and
    the text Python prints for that double ([repr], the shortest text that
    reads back as the same double) is the decimal itself, in the notation
    below; so [VFloat] carries that text.  A literal of more digits, or out
    of that range, is rounded by Python: the model answers [OutsideModel]. *)

(** The rest of a [digitpart], read just after one of its digits: the
    digits read, underscores left out, and what follows them. *)
Fixpoint digitpart_tail (s : string) : string * string :=
  match s with
  | EmptyString => (EmptyString, EmptyString)
  | String c r =>
      if is_digit c then
        let (d, rest) := digitpart_tail r in (String c d, rest)
      else if Ascii.eqb c "_"%char then
        match r with
        | String c' r' =>
            if is_digit c' then
              let (d, rest) := digitpart_tail r' in (String c' d, rest)
            else (EmptyString, s)
        | EmptyString => (EmptyString, s)
        end
      else (EmptyString, s)
  end.

(** [digitpart ::= digit (["_"] digit)*] at the head of [s]. *)
Definition digitpart (s : string) : option (string * string) :=
  match s with
  | String c r =>
      if is_digit c then
        let (d, rest) := digitpart_tail r in Some (String c d, rest)
      else None
  | EmptyString => None
  end.

(** The number a string of digits writes. *)
Definition number (digits : string) : option Z :=
  option_map (fun u => Z.of_int (Decimal.Pos u)) (parse_digits digits).

(** [exponent ::= ("e" | "E") ["+" | "-"] digitpart], or nothing, up to the
    end of the text: the exponent written. *)
Definition exponent (s : string) : option Z :=
  match s with
  | EmptyString => Some 0%Z
  | String c r =>
      if Ascii.eqb (Str.lower_char c) "e"%char then
        let (neg, r1) :=
          match r with
          | String c' r' =>
              if Ascii.eqb c' "+"%char then (false, r')
              else if Ascii.eqb c' "-"%char then (true, r')
              else (false, r)
          | EmptyString => (false, r)
          end in
        match digitpart r1 with
        | Some (d, EmptyString) =>
            option_map (fun z => if neg then Z.opp z else z) (number d)
        | _ => None
        end
      else None
  end.

Definition unsigned_part (s : string) : string :=
  match s with
  | String c r => if Ascii.eqb c "+"%char || Ascii.eqb c "-"%char then r else s
  | EmptyString => s
  end.

Definition is_negative (s : string) : bool :=
  match s with
  | String c _ => Ascii.eqb c "-"%char
  | EmptyString => false
  end.

(** What a float literal writes: an infinity, NaN, or the digits before and
    after the point with the exponent. *)
Inductive float_syntax : Type :=
| SInf (neg : bool)
| SNan
| SNum (neg : bool) (int frac : string) (exp : Z).

(** [floatnumber ::= digitpart ["." [digitpart]] [exponent]
                    | "." digitpart [exponent]], up to the end of the text. *)
Definition numeric_literal (neg : bool) (body : string) : option float_syntax :=
  match digitpart body with
  | Some (i, rest) =>
      match rest with
      | String c r =>
          if Ascii.eqb c "."%char then
            match digitpart r with
            | Some (f, rest') => option_map (SNum neg i f) (exponent rest')
            | None => option_map (SNum neg i EmptyString) (exponent r)
            end
          else option_map (SNum neg i EmptyString) (exponent rest)
      | EmptyString => Some (SNum neg i EmptyString 0%Z)
      end
  | None =>
      match body with
      | String c r =>
          if Ascii.eqb c "."%char then
            match digitpart r with
            | Some (f, rest') => option_map (SNum neg EmptyString f) (exponent rest')
            | None => None
            end
          else None
      | EmptyString => None
      end
  end.

(** The strings [float()] accepts, read: white space around, a sign, then
    an infinity, NaN (in any letter case) or a number. *)
Definition float_literal (s : string) : option float_syntax :=
  let t := num_strip s in
  let neg := is_negative t in
  let body := unsigned_part t in
  if Str.mem (Str.lower body) ["inf"; "infinity"] then Some (SInf neg)
  else if String.eqb (Str.lower body) "nan" then Some SNan
  else numeric_literal neg body.

Definition is_float_literal (s : string) : bool :=
  match float_literal s with Some _ => true | None => false end.

Definition is_nan_literal (s : string) : bool :=
  match float_literal s with Some SNan => true | _ => false end.

(** A float of the model: for a number, its significant digits, the first
    and the last of them not zero, and the place of the decimal point, so
    that the number is [0.digits] times ten to the power [decpt]. *)
Inductive float_value : Type :=
| FNan
| FInf (neg : bool)
| FZero (neg : bool)
| FNum (neg : bool) (digits : string) (decpt : Z).

Fixpoint lstrip_zeros (s : string) : string :=
  match s with
  | EmptyString => EmptyString
  | String c r => if Ascii.eqb c "0"%char then lstrip_zeros r else s
  end.

Fixpoint rstrip_zeros (s : string) : string :=
  match s with
  | EmptyString => EmptyString
  | String c r =>
      match rstrip_zeros r with
      | EmptyString => if Ascii.eqb c "0"%char then EmptyString else String c EmptyString
      | r' => String c r'
      end
  end.

Definition max_digits : nat := 15.
Definition min_decpt : Z := (-306)%Z.
Definition max_decpt : Z := 308%Z.

(** The float a literal denotes, [None] where Python rounds. *)
Definition float_of_syntax (x : float_syntax) : option float_value :=
  match x with
  | SInf neg => Some (FInf neg)
  | SNan => Some FNan
  | SNum neg i f e =>
      let all := (i ++ f)%string in
      let significant := lstrip_zeros all in
      let leading := (String.length all - String.length significant)%nat in
      let digits := rstrip_zeros significant in
      match digits with
      | EmptyString => Some (FZero neg)
      | _ =>
          let decpt := (Z.of_nat (String.length i) + e - Z.of_nat leading)%Z in
          if (String.length digits <=? max_digits)%nat
             && (min_decpt <=? decpt)%Z && (decpt <=? max_decpt)%Z
          then Some (FNum neg digits decpt)
          else None
      end
  end.

Fixpoint zeros (n : nat) : string :=
  match n with
  | O => EmptyString
  | S n => String "0"%char (zeros n)
  end.

Fixpoint take (n : nat) (s : string) : string :=
  match n, s with
  | S n, String c r => String c (take n r)
  | _, _ => EmptyString
  end.

Fixpoint drop (n : nat) (s : string) : string :=
  match n, s with
  | S n, String _ r => drop n r
  | _, _ => s
  end.

(** An exponent is printed with two digits at least. *)
Definition pad2 (s : string) : string :=
  match s with
  | String _ EmptyString => String "0"%char s
  | _ => s
  end.

(** The text of a number that is not zero, sign apart: the exponent notation
    below one ten-thousandth and from ten to the sixteenth on, else the
    digits with the point, and [.0] after an integer. *)
Definition repr_number (digits : string) (decpt : Z) : string :=
  (if (decpt <=? -4)%Z || (16 <? decpt)%Z then
     match digits with
     | String d EmptyString => String d EmptyString
     | String d rest => String d ("." ++ rest)
     | EmptyString => EmptyString
     end
     ++ "e" ++ (if (decpt - 1 <? 0)%Z then "-" else "+")
     ++ pad2 (str_of_int (Z.abs (decpt - 1)))
   else if (decpt <=? 0)%Z then "0." ++ zeros (Z.to_nat (- decpt)) ++ digits
   else if (decpt <? Z.of_nat (String.length digits))%Z
        then take (Z.to_nat decpt) digits ++ "." ++ drop (Z.to_nat decpt) digits
   else digits ++ zeros (Z.to_nat decpt - String.length digits) ++ ".0")%string.

(** [repr(x)], which is [str(x)], for a float. *)
Definition repr_float (x : float_value) : string :=
  match x with
  | FNan => "nan"
  | FInf neg => if neg then "-inf" else "inf"
  | FZero neg => if neg then "-0.0" else "0.0"
  | FNum neg digits decpt =>
      ((if neg then "-" else "") ++ repr_number digits decpt)%string
  end.

Definition all_digits (s : string) : bool :=
  forallb is_digit (list_ascii_of_string s).

(** A text that ends a [digitpart]: empty, or starting with a character
    that is no digit and no underscore. *)
Definition ends_digits (b : string) : Prop :=
  match b with
  | EmptyString => True
  | String c _ => is_digit c = false /\ Ascii.eqb c "_"%char = false
  end.

(** The characters of the texts printed for floats. *)
Definition float_char (c : ascii) : bool :=
  is_digit c || Str.mem (String c EmptyString) ["."; "e"; "+"; "-"; "i"; "n"; "f"; "a"].

(** The floats of the model. *)
Definition float_wf (x : float_value) : bool :=
  match x with
  | FNum _ digits decpt =>
      all_digits digits
      && match digits with
         | String c _ => negb (Ascii.eqb c "0"%char)
         | EmptyString => false
         end
      && String.eqb (rstrip_zeros digits) digits
      && (String.length digits <=? max_digits)%nat
      && (min_decpt <=? decpt)%Z && (decpt <=? max_decpt)%Z
  | _ => true
  end.

(** The texts Python prints for the floats of the model. *)
Definition is_float_repr (lit : string) : bool :=
  match float_literal lit with
  | Some syntax =>
      match float_of_syntax syntax with
      | Some x => float_wf x && String.eqb (repr_float x) lit
      | None => false
      end
  | None => false
  end.

(** [float(s)]. *)
Definition float_of_str (s : string) : result pyval :=
  match float_literal s with
  | None => Raise ValueError
  | Some syntax =>
      match float_of_syntax syntax with
      | Some x => Ok (VFloat (repr_float x))
      | None => Raise OutsideModel
      end
  end.

End Py.

(* ================================================================= *)
(** ** Ordered dictionaries *)

(** [OrderedDict] and [dict] with [str] keys: [set] replaces the value of a
    key that is present, in place, and adds a new key at the end. *)
Module OD.

Section Dict.
Context {V : Type}.

Definition t : Type := list (string * V).

Fixpoint get (d : t) (k : string) : option V :=
  match d with
  | [] => None
  | (k', v) :: r => if String.eqb k k' then Some v else get r k
  end.

Fixpoint set (d : t) (k : string) (v : V) : t :=
  match d with
  | [] => [(k, v)]
  | (k', v') :: r =>
      if String.eqb k k' then (k, v) :: r else (k', v') :: set r k v
  end.

Definition keys (d : t) : list string := map fst d.

Definition mem (d : t) (k : string) : bool :=
  match get d k with Some _ => true | None => false end.

End Dict.

Arguments t V : clear implicits.

End OD.

(** [set(a) != set(b)] for two lists of strings. *)
Definition subset (a b : list string) : bool :=
  forallb (fun x => Str.mem x b) a.

Definition set_eqb (a b : list string) : bool := subset a b && subset b a.

(* ================================================================= *)
(** ** [configparser.ConfigParser]

    The parser as [FaceswapConfig] configures it: [allow_no_value=True]
    (an option may have no value, [None]) and [optionxform = str] (option
    names are case sensitive).  A parser holds its sections in order, each
    an ordered dictionary from option names to values.

    Left out, and answered with [OutsideModel]:
    - value interpolation: a value with a percent sign;
    - the [DEFAULT] section, which a file can fill and which [set] fills
      when given an empty section name;
    - in the text of a file: values and option names that span lines, and
      option names that the parser would not read back as written. *)
Module CP.

Definition options : Type := OD.t (option string).
Definition t : Type := OD.t options.

Definition default_section : string := "DEFAULT".

Definition sections (c : t) : list string := OD.keys c.

Definition has_section (c : t) (section : string) : bool := OD.mem c section.

Definition add_section (c : t) (section : string) : result t :=
  if String.eqb section default_section then Raise ValueError
  else if has_section c section then Raise DuplicateSectionError
  else Ok (OD.set c section []).

Definition interpolated (v : string) : bool := Str.contains "%"%char v.

(** [parser.set(section, option, value)]. *)
Definition set (c : t) (section opt : string) (value : option string) : result t :=
  let checked :=
    match value with
    | Some v => if interpolated v then Raise OutsideModel else Ok tt
    | None => Ok tt
    end in
  checked ;;;
  if negb (Str.truthy section) || String.eqb section default_section
  then Raise OutsideModel
  else match OD.get c section with
       | None => Raise NoSectionError
       | Some d => Ok (OD.set c section (OD.set d opt value))
       end.

Definition value_of (raw : option string) : result (option string) :=
  match raw with
  | None => Ok None
  | Some v => if interpolated v then Raise OutsideModel else Ok (Some v)
  end.

(** [parser.get(section, option)]. *)
Definition get (c : t) (section opt : string) : result (option string) :=
  match OD.get c section with
  | None =>
      if String.eqb section default_section then Raise OutsideModel
      else Raise NoSectionError
  | Some d =>
      match OD.get d opt with
      | None => Raise NoOptionError
      | Some raw => value_of raw
      end
  end.

(** [parser[section]]: the proxy of a section. *)
Definition proxy (c : t) (section : string) : result options :=
  match OD.get c section with
  | Some d => Ok d
  | None =>
      if String.eqb section default_section then Raise OutsideModel
      else Raise KeyError
  end.

(** [parser[section].keys()], also the iteration over [parser[section]]. *)
Definition proxy_keys (c : t) (section : string) : result (list string) :=
  d <- proxy c section ;; Ok (OD.keys d).

(** [parser[section].get(option, fallback)]: [None] stands for the
    fallback, [Some v] for the value found ([Some None]: a bare option). *)
Definition proxy_get (c : t) (section opt : string)
  : result (option (option string)) :=
  d <- proxy c section ;;
  match OD.get d opt with
  | None => Ok None
  | Some raw => v <- value_of raw ;; Ok (Some v)
  end.

(** Reading one parsed section into the parser. *)
Definition read_section (sect : string * options) (c : t) : result t :=
  let (name, opts) := sect in
  if String.eqb name default_section then Raise OutsideModel
  else
    let current := match OD.get c name with Some d => d | None => [] end in
    Ok (OD.set c name
          (fold_left (fun d kv => OD.set d (fst kv) (snd kv)) opts current)).

(** [parser.read(file)], the text of the file given by what the parser
    extracts from it: its sections and their options, in order. *)
Definition read (c : t) (content : t) : result t :=
  for_each read_section content c.

Definition has_linebreak (s : string) : bool :=
  Str.contains Str.newline s || Str.contains (ascii_of_nat 13) s.

Definition is_comment_line (l : string) : bool :=
  let v := Str.strip l in
  negb (Str.truthy v) || Str.startswith v "#" || Str.startswith v ";".

(** An option name that [write] turns into blank and comment lines only. *)
Definition comment_block (k : string) : bool :=
  forallb is_comment_line
    (Str.split Str.newline
       (Str.replace (ascii_of_nat 13) (String Str.newline EmptyString) k)).

(** An option name that is read back as it was written. *)
Definition plain_key (k : string) : bool :=
  Str.truthy k && String.eqb (Str.strip k) k
  && negb (has_linebreak k)
  && negb (Str.contains "="%char k) && negb (Str.contains ":"%char k)
  && negb (Str.startswith k "#") && negb (Str.startswith k ";")
  && negb (Str.startswith k "[").

Definition written_value (v : option string) : result (option string) :=
  match v with
  | None => Ok None
  | Some x => if has_linebreak x then Raise OutsideModel else Ok (Some (Str.strip x))
  end.

(** The last line of an option name is a comment of its own: white space
    apart, it starts with a comment mark. *)
Definition ends_marked (k : string) : bool :=
  let v :=
    Str.strip
      (last (Str.split Str.newline
               (Str.replace (ascii_of_nat 13) (String Str.newline EmptyString) k))
         EmptyString) in
  Str.startswith v "#" || Str.startswith v ";".

(** The options of a section as [read] finds them in what [write] wrote.
    [write] puts the name of an option on a line, or on several when the
    name has line breaks, followed by [ = value] when it has a value.  A
    name that is a comment block leaves no option, provided that its value,
    if it has one, ends up on a comment line: the last line of the name is
    a marked comment and the value has no line break.  A value after a
    blank last line would be read as a continuation of the option before,
    or stop the parser. *)
Fixpoint written_options (d : options) : result options :=
  match d with
  | [] => Ok []
  | (k, v) :: r =>
      if comment_block k then
        match v with
        | None => written_options r
        | Some x =>
            if ends_marked k && negb (has_linebreak x) then written_options r
            else Raise OutsideModel
        end
      else if plain_key k then
        v' <- written_value v ;;
        r' <- written_options r ;;
        Ok ((k, v') :: r')
      else Raise OutsideModel
  end.

(** [parser.write(file)], the text written given by what [read] extracts
    from it: comment lines are gone and values are stripped. *)
Fixpoint written (c : t) : result t :=
  match c with
  | [] => Ok []
  | (name, opts) :: r =>
      if negb (Str.truthy name) || has_linebreak name then Raise OutsideModel
      else
        opts' <- written_options opts ;;
        r' <- written r ;;
        Ok ((name, opts') :: r')
  end.

(** [ConfigParser.BOOLEAN_STATES], as [_convert_to_boolean] uses it. *)
Definition convert_to_boolean (value : string) : result bool :=
  let v := Str.lower value in
  if Str.mem v ["1"; "yes"; "true"; "on"] then Ok true
  else if Str.mem v ["0"; "no"; "false"; "off"] then Ok false
  else Raise ValueError.

(** [getboolean], [getint], [getfloat]: the converter applied to [get]. *)
Definition getboolean (c : t) (section opt : string) : result pyval :=
  v <- get c section opt ;;
  match v with
  | None => Raise AttributeError
  | Some s => b <- convert_to_boolean s ;; Ok (VBool b)
  end.

Definition getint (c : t) (section opt : string) : result pyval :=
  v <- get c section opt ;;
  match v with
  | None => Raise TypeError
  | Some s => z <- Py.int_of_str s ;; Ok (VInt z)
  end.

Definition getfloat (c : t) (section opt : string) : result pyval :=
  v <- get c section opt ;;
  match v with
  | None => Raise TypeError
  | Some s => Py.float_of_str s
  end.

End CP.
(* ================================================================= *)
(** ** The schema: [self.defaults] *)

(** The [datatype] argument of [add_item]: one of the five type objects, or
    any other object, of which only [isinstance(datatype, list)] matters. *)
Inductive datatype : Type :=
| Dstr
| Dbool
| Dfloat
| Dint
| Dlist
| Dother (is_list_instance : bool).

Definition datatype_eqb (a b : datatype) : bool :=
  match a, b with
  | Dstr, Dstr | Dbool, Dbool | Dfloat, Dfloat | Dint, Dint | Dlist, Dlist => true
  | Dother x, Dother y => Bool.eqb x y
  | _, _ => false
  end.

(** [isinstance(datatype, list)]: a type object is not a list. *)
Definition isinstance_list (d : datatype) : bool :=
  match d with
  | Dother b => b
  | _ => false
  end.

(** The dictionary [add_item] stores for an option. *)
Record opt_dict : Type := {
  i_default : pyval;
  i_helptext : string;
  i_type : datatype;
  i_rounding : option pyval;
  i_min_max : option (pyval * pyval);
  i_choices : list string;
  i_gui_radio : bool;
  i_fixed : bool;
  i_group : option string
}.

(** A section of the schema maps the key [helptext] to the help text of the
    section and every option title to its dictionary. *)
Inductive entry : Type :=
| Helptext (info : string)
| Item (o : opt_dict).

Definition schema : Type := OD.t (OD.t entry).

(** The [choices] argument of [add_item]: [None], a list, a tuple, or some
    other object that is true (a set, a string that is not empty). *)
Inductive choices_arg : Type :=
| ChNone
| ChSeq (l : list string)
| ChTuple (l : list string)
| ChNonSeq.

(** The warnings [check_config_choices] logs. *)
Inductive warning : Type :=
| InvalidSelections (invalid : list string) (section item valid : string)
| InvalidChoice (value section item default : string).

(** The object and what it acts on: [file] is the text at [self.configfile]
    ([None]: no such file), given by what the parser reads from it;
    [warnings] are the records sent to [logger.warning], latest first;
    [saves] counts the calls of [save_config]. *)
Record store : Type := {
  file : option CP.t;
  config : CP.t;
  defaults : schema;
  section : string;
  warnings : list warning;
  saves : nat
}.

Definition with_config (st : store) (c : CP.t) : store :=
  {| file := file st; config := c; defaults := defaults st;
     section := section st; warnings := warnings st; saves := saves st |}.

Definition with_defaults (st : store) (d : schema) : store :=
  {| file := file st; config := config st; defaults := d;
     section := section st; warnings := warnings st; saves := saves st |}.

Definition warn (st : store) (w : warning) : store :=
  {| file := file st; config := config st; defaults := defaults st;
     section := section st; warnings := w :: warnings st; saves := saves st |}.

Definition nl : string := String Str.newline EmptyString.

(* ================================================================= *)
(** ** Declaring the schema *)

Definition add_section (st : store) (title info : option string) : result store :=
  match title, info with
  | Some title, Some info =>
      Ok (with_defaults st (OD.set (defaults st) title [("helptext", Helptext info)]))
  | _, _ => Raise ValueError
  end.

Definition expand_helptext (helptext : string) (choices : list string)
  (tuple : bool) (default : pyval) (datatype : datatype) (min_max : option (pyval * pyval))
  (fixed : bool) : result string :=
  (let helptext := helptext ++ nl in
   let helptext :=
     if negb fixed
     then helptext ++ nl ++ "This option can be updated for existing models." ++ nl
     else helptext in
   let helptext :=
     if datatype_eqb datatype Dlist
     then helptext ++ nl
            ++ "If selecting multiple options then each option should be separated "
            ++ "by a space or a comma (e.g. item1, item2, item3)" ++ nl
     else helptext in
   helptext <-
     match choices with
     | _ :: _ =>
         Ok (helptext ++ nl ++ "Choose from: "
               ++ if tuple then Py.str_tuple choices else Py.str (VList choices))
     | [] =>
         if datatype_eqb datatype Dbool
         then Ok (helptext ++ nl ++ "Choose from: True, False")
         else if datatype_eqb datatype Dint then
           match min_max with
           | Some (cmin, cmax) =>
               Ok (helptext ++ nl ++ "Select an integer between " ++ Py.str cmin
                     ++ " and " ++ Py.str cmax)
           | None => Raise TypeError
           end
         else if datatype_eqb datatype Dfloat then
           match min_max with
           | Some (cmin, cmax) =>
               Ok (helptext ++ nl ++ "Select a decimal number between " ++ Py.str cmin
                     ++ " and " ++ Py.str cmax)
           | None => Raise TypeError
           end
         else Ok helptext
     end ;;
   Ok (helptext ++ nl ++ "[Default: " ++ Py.str default ++ "]"))%string.

Definition is_known_type (d : datatype) : bool :=
  match d with
  | Dother _ => false
  | _ => true
  end.

Definition is_none {A : Type} (x : option A) : bool :=
  match x with None => true | Some _ => false end.

(** [add_item]; [None] for [default] is [VNone], and the keyword arguments
    left out by the caller are given their declared defaults by the caller
    of this function ([Dstr], [None], [false] for [gui_radio], [true] for
    [fixed]). *)
Definition add_item (st : store) (section title : option string)
  (datatype : datatype) (default : pyval) (info : option string)
  (rounding : option pyval) (min_max : option (pyval * pyval))
  (choices : choices_arg) (gui_radio fixed : bool) (group : option string)
  : result store :=
  (* choices = choices or list(); [None] below: not a list or tuple;
     the flag tells a tuple, which prints with parentheses *)
  let choices : option (bool * list string) :=
    match choices with
    | ChNone | ChTuple [] => Some (false, [])
    | ChSeq l => Some (false, l)
    | ChTuple l => Some (true, l)
    | ChNonSeq => None
    end in
  match section, title, default, info with
  | Some section, Some title, (VStr _ | VBool _ | VInt _ | VFloat _ | VList _), Some info =>
      match OD.get (defaults st) section with
      | None | Some [] => Raise ValueError
      | Some items =>
          if negb (is_known_type datatype) then Raise ValueError
          else if (datatype_eqb datatype Dfloat || datatype_eqb datatype Dint)
                  && (is_none rounding || is_none min_max)
          then Raise ValueError
          else if isinstance_list datatype
                  && match choices with Some (_, []) => true | _ => false end
          then Raise ValueError
          else
            match choices with
            | None => Raise ValueError
            | Some (tuple, choices) =>
                info <- expand_helptext info choices tuple default datatype min_max
                          fixed ;;
                Ok (with_defaults st
                      (OD.set (defaults st) section
                         (OD.set items title
                            (Item {| i_default := default;
                                     i_helptext := info;
                                     i_type := datatype;
                                     i_rounding := rounding;
                                     i_min_max := min_max;
                                     i_choices := choices;
                                     i_gui_radio := gui_radio;
                                     i_fixed := fixed;
                                     i_group := group |}))))
            end
      end
  | _, _, _, _ => Raise ValueError
  end.

(* ================================================================= *)
(** ** Typed reads *)

Definition _parse_list (st : store) (section opt : string) : result (list string) :=
  raw_option <- CP.get (config st) section opt ;;
  match raw_option with
  | None | Some EmptyString => Ok []
  | Some raw_option =>
      let pieces :=
        if Str.contains ","%char raw_option
        then Str.split ","%char raw_option
        else Str.split_ws raw_option in
      Ok (map (fun opt => Str.lower (Str.strip opt)) pieces)
  end.

(** [self.defaults[section][option]["type"]]. *)
Definition declared_type (st : store) (section opt : string) : result datatype :=
  match OD.get (defaults st) section with
  | None => Raise KeyError
  | Some items =>
      match OD.get items opt with
      | None => Raise KeyError
      | Some (Helptext _) => Raise TypeError
      | Some (Item o) => Ok (i_type o)
      end
  end.

Definition get (st : store) (section opt : string) : result pyval :=
  datatype <- declared_type st section opt ;;
  retval <-
    match datatype with
    | Dbool => CP.getboolean (config st) section opt
    | Dint => CP.getint (config st) section opt
    | Dfloat => CP.getfloat (config st) section opt
    | Dlist => l <- _parse_list st section opt ;; Ok (VList l)
    | _ =>
        v <- CP.get (config st) section opt ;;
        Ok match v with Some s => VStr s | None => VNone end
    end ;;
  match retval with
  | VStr s => if String.eqb (Str.lower s) "none" then Ok VNone else Ok retval
  | _ => Ok retval
  end.

Definition is_comment_key (key : string) : bool :=
  Str.startswith key "#" || Str.startswith key nl.

Definition config_dict (st : store) : result (OD.t pyval) :=
  let sections :=
    filter (fun sect => Str.startswith sect "global") (CP.sections (config st))
    ++ [section st] in
  for_each
    (fun sect conf =>
       if negb (Str.mem sect (CP.sections (config st))) then Ok conf
       else
         keys <- CP.proxy_keys (config st) sect ;;
         for_each
           (fun key conf =>
              if is_comment_key key then Ok conf
              else v <- get st sect key ;; Ok (OD.set conf key v))
           keys conf)
    sections [].

(** What the parser holds for an option, [parser._sections[section][option]]:
    [None] when the section or the option is not there. *)
Definition stored (c : CP.t) (section opt : string) : option (option string) :=
  match OD.get c section with
  | Some d => OD.get d opt
  | None => None
  end.

(** The keys of a dictionary are distinct. *)
Fixpoint distinct (l : list string) : bool :=
  match l with
  | [] => true
  | x :: r => negb (Str.mem x r) && distinct r
  end.

Definition schema_wf (d : schema) : bool :=
  distinct (OD.keys d) && forallb (fun sect => distinct (OD.keys (snd sect))) d.

(** The property [changeable_items]: the options of the global sections
    and of the requested one that are not marked fixed, with their values. *)
Definition changeable_items (st : store) : result (OD.t pyval) :=
  let sections :=
    filter (fun sect => Str.startswith sect "global") (CP.sections (config st)) in
  for_each
    (fun sect retval =>
       match OD.get (defaults st) sect with
       | None => Ok retval
       | Some items =>
           for_each
             (fun (kv : string * entry) retval =>
                let (key, val) := kv in
                if String.eqb key "helptext" then Ok retval
                else
                  match val with
                  | Helptext _ => Raise TypeError
                  | Item o =>
                      if i_fixed o then Ok retval
                      else v <- get st sect key ;; Ok (OD.set retval key v)
                  end)
             items retval
       end)
    (sections ++ [section st]) [].

(* ================================================================= *)
(** ** Validation of the loaded values *)

Definition is_valid (choices : list string) (val : string) : bool :=
  Str.mem val choices.

(** The body of the two loops of [check_config_choices], for one entry of a
    section of the schema. *)
Definition check_choice (section : string) (kv : string * entry) (st : store)
  : result store :=
  let (item, e) := kv in
  if String.eqb item "helptext" then Ok st
  else
    match e with
    | Helptext _ => Raise TypeError
    | Item opt =>
        match i_choices opt with
        | [] => Ok st
        | _ :: _ =>
            if datatype_eqb (i_type opt) Dlist then
              (* Multi-select items *)
              opt_value <- _parse_list st section item ;;
              match opt_value with
              | [] => Ok st
              | _ :: _ =>
                  if existsb (fun val => negb (is_valid (i_choices opt) val)) opt_value
                  then
                    let invalid :=
                      filter (fun val => negb (is_valid (i_choices opt) val)) opt_value in
                    let valid :=
                      Str.join ", " (filter (is_valid (i_choices opt)) opt_value) in
                    let st := warn st (InvalidSelections invalid section item valid) in
                    c <- CP.set (config st) section item (Some valid) ;;
                    Ok (with_config st c)
                  else Ok st
              end
            else
              (* Single-select items *)
              opt_value <- CP.get (config st) section item ;;
              match opt_value with
              | None => Raise AttributeError
              | Some opt_value =>
                  if String.eqb (Str.lower opt_value) "none"
                     && existsb (fun choice => String.eqb (Str.lower choice) "none")
                          (i_choices opt)
                  then Ok st
                  else if negb (is_valid (i_choices opt) opt_value) then
                    let default := Py.str (i_default opt) in
                    let st := warn st (InvalidChoice opt_value section item default) in
                    c <- CP.set (config st) section item (Some default) ;;
                    Ok (with_config st c)
                  else Ok st
              end
        end
    end.

Definition check_config_choices (st : store) : result store :=
  for_each
    (fun (sect : string * OD.t entry) st =>
       for_each (check_choice (fst sect)) (snd sect) st)
    (defaults st) st.

Definition is_help_key (opt : string) : bool :=
  Str.startswith opt "# " || Str.startswith opt (nl ++ "# ").

(** The loop of [check_config_change] over the sections of the schema. *)
Fixpoint keys_changed (c : CP.t) (d : schema) : result bool :=
  match d with
  | [] => Ok false
  | (section, items) :: rest =>
      let opts := filter (fun opt => negb (String.eqb opt "helptext")) (OD.keys items) in
      keys <- CP.proxy_keys c section ;;
      let exists_ := filter (fun opt => negb (is_help_key opt)) keys in
      if negb (set_eqb exists_ opts) then Ok true
      else keys_changed c rest
  end.

Definition check_config_change (st : store) : result bool :=
  if negb (set_eqb (CP.sections (config st)) (OD.keys (defaults st))) then Ok true
  else keys_changed (config st) (defaults st).

(* ================================================================= *)
(** ** The file *)

Definition check_exists (st : store) : bool :=
  match file st with Some _ => true | None => false end.

(** [self.config.read(self.configfile)]: a file that is not there is
    skipped. *)
Definition load_config (st : store) : result store :=
  match file st with
  | None => Ok st
  | Some content => c <- CP.read (config st) content ;; Ok (with_config st c)
  end.

Definition save_config (st : store) : result store :=
  text <- CP.written (config st) ;;
  Ok {| file := Some text; config := config st; defaults := defaults st;
        section := section st; warnings := warnings st; saves := S (saves st) |}.

Definition drop_last (s : string) : string :=
  substring 0 (String.length s - 1) s.

Section Persist.

(** [textwrap.fill(text, 100, tabsize=4, subsequent_indent=indent)]. *)
Variable textwrap_fill : string -> string -> string.

Definition format_line (hlp : string) : string :=
  let tab := String Str.tab EmptyString in
  let subsequent_indent := if Str.startswith hlp tab then (tab ++ tab)%string else "" in
  let hlp :=
    if Str.startswith hlp tab
    then (tab ++ "- " ++ Str.strip (substring 1 (String.length hlp - 1) hlp))%string
    else hlp in
  (textwrap_fill hlp subsequent_indent ++ nl)%string.

Definition format_help (helptext : string) (is_section : bool) : string :=
  let formatted :=
    fold_left (fun formatted hlp => (formatted ++ format_line hlp)%string)
      (Str.split Str.newline helptext) "" in
  let helptext : string :=
    ("# " ++ Str.replace Str.newline (nl ++ "# ") (drop_last formatted))%string in
  if is_section then Str.upper helptext else (nl ++ helptext)%string.

(** [items["helptext"]] handed to [format_help]. *)
Definition section_helptext (items : OD.t entry) : result string :=
  match OD.get items "helptext" with
  | None => Raise KeyError
  | Some (Helptext info) => Ok info
  | Some (Item _) => Raise AttributeError
  end.

Definition insert_config_section (section helptext : string) (config : CP.t)
  : result CP.t :=
  let helptext := format_help helptext true in
  config <- CP.add_section config section ;;
  CP.set config section helptext None.

Definition insert_config_item (section item : string) (default : pyval)
  (opt : opt_dict) (config : CP.t) : result CP.t :=
  let helptext := format_help (i_helptext opt) false in
  config <- CP.set config section helptext None ;;
  CP.set config section item (Some (Py.str default)).

(** The inner loop of [create_default] and [add_new_config_items]; [value]
    gives the value to write for an option. *)
Definition insert_items (value : string -> opt_dict -> result pyval)
  (section : string) (items : OD.t entry) (config : CP.t) : result CP.t :=
  for_each
    (fun (kv : string * entry) config =>
       let (item, e) := kv in
       if String.eqb item "helptext" then Ok config
       else
         match e with
         | Helptext _ => Raise TypeError
         | Item opt =>
             v <- value item opt ;;
             insert_config_item section item v opt config
         end)
    items config.

Definition insert_sections (value : string -> string -> opt_dict -> result pyval)
  (d : schema) (config : CP.t) : result CP.t :=
  for_each
    (fun (sect : string * OD.t entry) config =>
       let (section, items) := sect in
       helptext <- section_helptext items ;;
       config <- insert_config_section section helptext config ;;
       insert_items (value section) section items config)
    d config.

Definition create_default (st : store) : result store :=
  c <- insert_sections (fun _ _ opt => Ok (i_default opt)) (defaults st) (config st) ;;
  save_config (with_config st c).

(** The value [add_new_config_items] carries into the new parser. *)
Definition carried_value (old : CP.t) (section item : string) (opt : opt_dict)
  : result pyval :=
  if negb (Str.mem section (CP.sections old)) then Ok (i_default opt)
  else
    v <- CP.proxy_get old section item ;;
    Ok match v with
       | None => i_default opt
       | Some None => VNone
       | Some (Some s) => VStr s
       end.

Definition add_new_config_items (st : store) : result store :=
  new_config <- insert_sections (carried_value (config st)) (defaults st) [] ;;
  save_config (with_config st new_config).

Definition validate_config (st : store) : result store :=
  changed <- check_config_change st ;;
  st <- (if changed then add_new_config_items st else Ok st) ;;
  check_config_choices st.

Definition handle_config (st : store) : result store :=
  st <- (if negb (check_exists st) then create_default st else Ok st) ;;
  st <- load_config st ;;
  validate_config st.

(** [__init__], with the schema declaration of the subclass as
    [set_defaults]; [explicit] tells whether a [configfile] was given, which
    must then exist. *)
Definition init (set_defaults : store -> result store) (section : string)
  (explicit : bool) (file : option CP.t) : result store :=
  if explicit && negb (match file with Some _ => true | None => false end)
  then Raise ValueError
  else
    st <- set_defaults {| file := file; config := []; defaults := [];
                          section := section; warnings := []; saves := 0 |} ;;
    handle_config st.

End Persist.

(* ================================================================= *)
(** ** The list-parsing rule, as the specification words it *)

(** The pieces of [s] between the characters that satisfy [sep]. *)
Fixpoint split_on (sep : ascii -> bool) (s : string) : list string :=
  match s with
  | EmptyString => [EmptyString]
  | String c r =>
      match split_on sep r with
      | h :: t => if sep c then EmptyString :: h :: t else String c h :: t
      | [] => [EmptyString]
      end
  end.

Definition is_comma (c : ascii) : bool := Ascii.eqb c ","%char.

(** If the raw string is empty, an empty sequence; otherwise split on commas
    if any comma is present, else on white space (the pieces between white
    space characters that are not empty); trim and lowercase each token. *)
Definition spec_parse_list (raw : string) : list string :=
  if String.eqb raw "" then []
  else
    let tokens :=
      if existsb is_comma (list_ascii_of_string raw)
      then split_on is_comma raw
      else filter Str.truthy (split_on Str.is_space raw) in
    map (fun token => Str.lower (Str.strip token)) tokens.

(** A parser holds a section once, and a section an option once. *)
Definition parser_wf (c : CP.t) : Prop :=
  NoDup (OD.keys c) /\ Forall (fun sect : string * CP.options => NoDup (OD.keys (snd sect))) c.

(* ================================================================= *)
(** ** The keys the drift check compares *)

(** The option names the parser holds for a section, none for a section it
    does not have. *)
Definition stored_keys (c : CP.t) (section : string) : list string :=
  match OD.get c section with
  | Some d => OD.keys d
  | None => []
  end.

(** The names of a section that are not help-text comments, as
    [check_config_change] selects them, and the option titles the schema
    declares for it. *)
Definition option_keys (c : CP.t) (section : string) : list string :=
  filter (fun opt => negb (is_help_key opt)) (stored_keys c section).

Definition declared_keys (items : OD.t entry) : list string :=
  filter (fun opt => negb (String.eqb opt "helptext")) (OD.keys items).

(** The file matches the schema: the same sections, and in every section
    the same option names. *)
Definition matches_schema (c : CP.t) (d : schema) : bool :=
  set_eqb (CP.sections c) (OD.keys d)
  && forallb
       (fun sect : string * OD.t entry =>
          set_eqb (option_keys c (fst sect)) (declared_keys (snd sect)))
       d.

(* ================================================================= *)
(** ** Changing the bounds of the schema *)

Definition with_min_max (o : opt_dict) (bounds : option (pyval * pyval)) : opt_dict :=
  {| i_default := i_default o; i_helptext := i_helptext o; i_type := i_type o;
     i_rounding := i_rounding o; i_min_max := bounds; i_choices := i_choices o;
     i_gui_radio := i_gui_radio o; i_fixed := i_fixed o; i_group := i_group o |}.

Definition rebound_entry (bounds : option (pyval * pyval)) (kv : string * entry)
  : string * entry :=
  (fst kv, match snd kv with
           | Item o => Item (with_min_max o bounds)
           | Helptext info => Helptext info
           end).

(** The schema with the bounds of every option replaced by [bounds]. *)
Definition rebound (bounds : option (pyval * pyval)) (d : schema) : schema :=
  map (fun sect : string * OD.t entry => (fst sect, map (rebound_entry bounds) (snd sect))) d.

(** The text has no white space. *)
Definition no_space (s : string) : bool :=
  forallb (fun c => negb (Str.is_space c)) (list_ascii_of_string s).

(* ================================================================= *)
(** ** A plugin configuration, for the examples *)

(** [textwrap.fill] on lines that fit the width: the line itself. *)
Definition fill_short (text indent : string) : string := text.

(** A [set_defaults] with a global section and a plugin section. *)
Definition example_defaults (st : store) : result store :=
  st <- add_section st (Some "global") (Some "Options for all plugins") ;;
  st <- add_item st (Some "global") (Some "seed") Dint (VInt 5) (Some "Random seed")
          (Some (VInt 1)) (Some (VInt 0, VInt 3)) ChNone false true None ;;
  st <- add_section st (Some "sect") (Some "Options of the plugin") ;;
  st <- add_item st (Some "sect") (Some "multi") Dlist (VStr "a, c") (Some "Several of")
          None None (ChSeq ["a"; "c"; "none"]) false true None ;;
  st <- add_item st (Some "sect") (Some "single") Dstr (VStr "x") (Some "One of")
          None None (ChSeq ["x"; "y"]) false true None ;;
  st <- add_item st (Some "sect") (Some "flag") Dbool (VBool true) (Some "A switch")
          None None ChNone false true None ;;
  st <- add_item st (Some "sect") (Some "rate") Dfloat (VFloat "0.5") (Some "A rate")
          (Some (VInt 2)) (Some (VFloat "0.0", VFloat "1.0")) ChNone false false None ;;
  add_item st (Some "sect") (Some "name") Dstr (VStr "face") (Some "A name")
    None None ChNone false true None.

(** The store built on a file that holds the given values. *)
Definition example_store (seed multi single flag rate name : string) : result store :=
  init fill_short example_defaults "sect" true
    (Some [("global", [("seed", Some seed)]);
           ("sect", [("multi", Some multi); ("single", Some single);
                     ("flag", Some flag); ("rate", Some rate);
                     ("name", Some name)])]).

(** The store of a construction that succeeded. *)
Definition built (r : result store) : store :=
  match r with
  | Ok st => st
  | Raise _ => {| file := None; config := []; defaults := []; section := "";
                  warnings := []; saves := 0 |}
  end.

(** The same file, loaded and not yet validated. *)
Definition example_loaded (seed multi single flag rate name : string) : store :=
  built
    (st <- example_defaults
             {| file := Some [("global", [("seed", Some seed)]);
                              ("sect", [("multi", Some multi); ("single", Some single);
                                        ("flag", Some flag); ("rate", Some rate);
                                        ("name", Some name)])];
                config := []; defaults := []; section := "sect";
                warnings := []; saves := 0 |} ;;
     load_config st).

(** The defaults that [get] gives back once written to a file and read: a
    value of the declared type, for the four scalar types.  A text must be
    as the file keeps it (no white space around it), free of interpolation,
    and not the literal none, which [get] turns into the absent value; a
    float must be written by a literal of a number, not of NaN, which is
    not equal to itself. *)
Definition round_trips (ty : datatype) (default : pyval) : bool :=
  match ty, default with
  | Dbool, VBool _ => true
  | Dint, VInt _ => true
  | Dfloat, VFloat lit => Py.is_float_repr lit && negb (Py.is_nan_literal lit)
  | Dstr, VStr s =>
      String.eqb (Str.strip s) s && negb (CP.interpolated s)
      && negb (CP.has_linebreak s)
      && negb (String.eqb (Str.lower s) "none")
  | _, _ => false
  end.

(** An object as [__init__] has it before [set_defaults] runs. *)
Definition fresh (section : string) (file : option CP.t) : store :=
  {| file := file; config := []; defaults := []; section := section;
     warnings := []; saves := 0 |}.

(** A [set_defaults] with a multi-choice option whose default is a list. *)
Definition list_defaults (st : store) : result store :=
  st <- add_section st (Some "sect") (Some "Options of the plugin") ;;
  add_item st (Some "sect") (Some "tags") Dlist (VList ["a"; "b"]) (Some "Several of")
    None None (ChSeq ["a"; "b"]) false true None.

(** A [set_defaults] with a multi-choice option declared without choices. *)
Definition unchecked_list_defaults (st : store) : result store :=
  st <- add_section st (Some "sect") (Some "Options of the plugin") ;;
  add_item st (Some "sect") (Some "tags") Dlist (VStr "a") (Some "Several of")
    None None ChNone false true None.

(** A schema with two float options, loaded on a file whose values lie
    outside the declared bounds. *)
Definition bounded_defaults (st : store) : result store :=
  st <- add_section st (Some "global") (Some "Options for all plugins") ;;
  st <- add_item st (Some "global") (Some "seed") Dint (VInt 5) (Some "Random seed")
          (Some (VInt 1)) (Some (VInt 0, VInt 3)) ChNone false true None ;;
  st <- add_section st (Some "sect") (Some "Options of the plugin") ;;
  st <- add_item st (Some "sect") (Some "rate") Dfloat (VFloat "0.5") (Some "A rate")
          (Some (VInt 2)) (Some (VFloat "0.0", VFloat "1.0")) ChNone false false None ;;
  add_item st (Some "sect") (Some "tiny") Dfloat (VFloat "1e-05") (Some "A step")
    (Some (VInt 6)) (Some (VFloat "0.0", VFloat "0.001")) ChNone false true None.

(** The stores of the examples, evaluated. *)
Definition abc_loaded : store :=
  Eval vm_compute in example_loaded "77" "a, b, c" "zzz" "no" "0.25" "NONE".

Definition out_of_bounds : store :=
  Eval vm_compute in
    built
      (st <- bounded_defaults
               (fresh "sect"
                  (Some [("global", [("seed", Some "77")]);
                         ("sect", [("rate", Some "7.5");
                                   ("tiny", Some "-2.5e-07")])])) ;;
       load_config st).

Definition abc_validated : store :=
  Eval vm_compute in built (check_config_choices abc_loaded).

(** The schema of the example alone, and what a first construction, with
    no file yet, writes and loads for it. *)
Definition example_declared : store :=
  Eval vm_compute in built (example_defaults (fresh "sect" None)).

Definition example_created : store :=
  Eval vm_compute in built (create_default fill_short example_declared).

Definition example_reloaded : store :=
  Eval vm_compute in built (load_config example_created).

(** The first two declarations of the example. *)
Definition global_declared : store :=
  Eval vm_compute in
    built (add_section (fresh "sect" None) (Some "global") (Some "Options for all plugins")).

Definition seed_declared : store :=
  Eval vm_compute in
    built (add_item global_declared (Some "global") (Some "seed") Dint (VInt 5)
             (Some "Random seed") (Some (VInt 1)) (Some (VInt 0, VInt 3))
             ChNone false true None).

(** A file that drifted from the schema: the option [name] is gone, an
    option [old] is there, and [flag] has no value. *)
Definition drifted_loaded : store :=
  Eval vm_compute in
    built
      (st <- example_defaults
               (fresh "sect"
                  (Some [("global", [("seed", Some "77")]);
                         ("sect", [("multi", Some "a, b, c"); ("old", Some "1");
                                   ("single", Some "y"); ("flag", None);
                                   ("rate", Some "0.25")])])) ;;
       load_config st).

Definition drifted_validated : store :=
  Eval vm_compute in built (validate_config fill_short drifted_loaded).

(** The object before the construction on the drifted file, and after. *)
Definition drifted_declared : store :=
  Eval vm_compute in
    built (example_defaults
             (fresh "sect"
                (Some [("global", [("seed", Some "77")]);
                       ("sect", [("multi", Some "a, b, c"); ("old", Some "1");
                                 ("single", Some "y"); ("flag", None);
                                 ("rate", Some "0.25")])]))).

Definition drifted_built : store :=
  Eval vm_compute in built (handle_config fill_short drifted_declared).

(** The object of a first construction, with no file, and a second object
    on the file the first one left. *)
Definition first_built : store :=
  Eval vm_compute in built (handle_config fill_short example_declared).

(** The text of the file of a store, empty when there is none. *)
Definition file_text (st : store) : CP.t :=
  match file st with
  | Some text => text
  | None => []
  end.

(** The dictionary of an aggregate read that succeeded. *)
Definition read_dict (r : result (OD.t pyval)) : OD.t pyval :=
  match r with
  | Ok conf => conf
  | Raise _ => []
  end.

Definition items_of (st : store) (section : string) : OD.t entry :=
  match OD.get (defaults st) section with
  | Some items => items
  | None => []
  end.

Definition option_of (st : store) (section opt : string) : opt_dict :=
  match OD.get (items_of st section) opt with
  | Some (Item o) => o
  | _ => {| i_default := VNone; i_helptext := ""; i_type := Dstr; i_rounding := None;
            i_min_max := None; i_choices := []; i_gui_radio := false; i_fixed := true;
            i_group := None |}
  end.

(** The spellings of the literal none. *)
Definition none_spellings : list string :=
  ["none"; "nonE"; "noNe"; "noNE"; "nOne"; "nOnE"; "nONe"; "nONE"; "None"; "NonE"; "NoNe"; "NoNE"; "NOne"; "NOnE"; "NONe"; "NONE"].

(* ================================================================= *)
(** ** Relations between two states of the store *)

(** What [check_config_choices] leaves alone. *)
Definition untouched (st st' : store) : Prop :=
  defaults st' = defaults st /\ file st' = file st /\ saves st' = saves st
  /\ section st' = section st
  /\ CP.sections (config st') = CP.sections (config st)
  /\ incl (warnings st) (warnings st').

(** The parser holds the same for option [k] of section [s], and no
    warning was lost. *)
Definition agree_at (sk : string * string) (st st' : store) : Prop :=
  stored (config st) (fst sk) (snd sk) = stored (config st') (fst sk) (snd sk)
  /\ incl (warnings st) (warnings st').

(** The same for every option of section [s]. *)
Definition agree_in (s : string) (st st' : store) : Prop :=
  (forall k, stored (config st) s k = stored (config st') s k)
  /\ incl (warnings st) (warnings st').

(* ================================================================= *)
(** ** What [add_item] accepts *)

(** The arguments [add_item] accepts: a section, a title, a default and a
    help text are given; the section is declared; the type is one of the
    five; a numeric type comes with rounding and bounds; the choices, when
    given, are a list or a tuple. *)
Definition add_item_accepts (st : store) (section title : option string)
  (datatype : datatype) (default : pyval) (info : option string)
  (rounding : option pyval) (min_max : option (pyval * pyval))
  (choices : choices_arg) : bool :=
  match section, title, info with
  | Some section, Some _, Some _ =>
      match default with VNone => false | _ => true end
      && match OD.get (defaults st) section with Some (_ :: _) => true | _ => false end
      && is_known_type datatype
      && (negb (datatype_eqb datatype Dfloat || datatype_eqb datatype Dint)
          || (negb (is_none rounding) && negb (is_none min_max)))
      && match choices with ChNonSeq => false | _ => true end
  | _, _, _ => false
  end.

(** The choices [add_item] stores for its [choices] argument. *)
Definition stored_choices (choices : choices_arg) : list string :=
  match choices with
  | ChSeq l | ChTuple l => l
  | _ => []
  end.

(* ================================================================= *)
(** ** A second construction *)

(** Every option title of the schema is a name the parser reads back as
    written. *)
Definition titles_plain (d : schema) : bool :=
  forallb
    (fun sect : string * OD.t entry =>
       forallb (fun kv : string * entry =>
                  String.eqb (fst kv) "helptext" || CP.plain_key (fst kv))
         (snd sect))
    d.

(** A new object with the same schema, on the file a store left. *)
Definition again (st : store) : store :=
  {| file := file st; config := []; defaults := defaults st;
     section := section st; warnings := []; saves := 0 |}.

(* ================================================================= *)
(** ** Choices that are single words *)

(** A text that the list-parsing rule reads as one token: not empty, with
    no white space and no comma. *)
Definition is_word (x : string) : bool :=
  Str.truthy x && no_space x && negb (existsb is_comma (list_ascii_of_string x)).

(* ================================================================= *)
(** ** Help texts as comments *)

(** No line of the help text is wrapped into a text with a carriage
    return. *)
Definition wraps_plainly (textwrap_fill : string -> string -> string)
  (helptext : string) : bool :=
  forallb
    (fun hlp =>
       negb (Str.contains (ascii_of_nat 13) (format_line textwrap_fill hlp)))
    (Str.split Str.newline helptext).

(* ================================================================= *)
(** ** A schema that can be written *)

(** An option of the schema that the file can hold: its title is a plain
    name, the string of its default has no percent sign and no line break,
    and its help text wraps plainly. *)
Definition option_writable (textwrap_fill : string -> string -> string)
  (kv : string * entry) : bool :=
  String.eqb (fst kv) "helptext"
  || match snd kv with
     | Item opt =>
         CP.plain_key (fst kv)
         && negb (CP.interpolated (Py.str (i_default opt)))
         && negb (CP.has_linebreak (Py.str (i_default opt)))
         && wraps_plainly textwrap_fill (i_helptext opt)
     | Helptext _ => false
     end.

(** A section of the schema that the file can hold: its name is not empty,
    has no line break and is not [DEFAULT]; it has its help text, as
    [add_section] leaves it; and its options can be held. *)
Definition section_writable (textwrap_fill : string -> string -> string)
  (sect : string * OD.t entry) : bool :=
  Str.truthy (fst sect) && negb (CP.has_linebreak (fst sect))
  && negb (String.eqb (fst sect) CP.default_section)
  && match OD.get (snd sect) "helptext" with
     | Some (Helptext info) => wraps_plainly textwrap_fill info
     | _ => false
     end
  && forallb (option_writable textwrap_fill) (snd sect).

Definition schema_writable (textwrap_fill : string -> string -> string)
  (d : schema) : bool :=
  forallb (section_writable textwrap_fill) d.

(** A parser that [write] can write: an option is a comment block without
    value, or a plain name with no value or a value on one line; no section
    name is empty or has a line break. *)
Definition writable_options (d : CP.options) : Prop :=
  Forall (fun kv : string * option string =>
            (CP.comment_block (fst kv) = true /\ snd kv = None)
            \/ (CP.plain_key (fst kv) = true
                /\ match snd kv with
                   | Some x => CP.has_linebreak x = false
                   | None => True
                   end)) d.

Definition writable (c : CP.t) : Prop :=
  Forall (fun sect : string * CP.options =>
            Str.truthy (fst sect) = true /\ CP.has_linebreak (fst sect) = false
            /\ writable_options (snd sect)) c.

(** A parser that can be written and has section [s]. *)
Definition ready (s : string) (c : CP.t) : Prop :=
  writable c /\ OD.get c s <> None.

(** The parser holds, for every option of the schema, a value with no
    percent sign. *)
Definition holds_plain_values (d : schema) (c : CP.t) : Prop :=
  forall s items k opt,
    OD.get d s = Some items -> OD.get items k = Some (Item opt) -> k <> "helptext" ->
    exists v, stored c s k = Some (Some v) /\ CP.interpolated v = false.

(* ================================================================= *)
(** ** A file that can be read *)

(** The files of the model: a section is there once and holds an option
    once, no section is [DEFAULT], and every value is on one line and has no
    percent sign. *)
Definition file_readable (text : CP.t) : bool :=
  distinct (OD.keys text)
  && forallb
       (fun sect : string * CP.options =>
          distinct (OD.keys (snd sect))
          && negb (String.eqb (fst sect) CP.default_section)
          && forallb
               (fun kv : string * option string =>
                  match snd kv with
                  | Some x => negb (CP.interpolated x) && negb (CP.has_linebreak x)
                  | None => true
                  end)
               (snd sect))
       text.

(** The text written for an option when the file is regenerated: the value
    the loaded file had for it, the text [None] where it had the option
    without value, the string of the default where it had no such option. *)
Definition carried_text (old : CP.t) (section item : string) (opt : opt_dict)
  : string :=
  match stored old section item with
  | Some (Some value) => value
  | Some None => "None"
  | None => Py.str (i_default opt)
  end.


(** Every option of the file has a value. *)
Definition file_valued (text : CP.t) : bool :=
  forallb
    (fun sect : string * CP.options =>
       forallb
         (fun kv : string * option string =>
            match snd kv with
            | Some _ => true
            | None => false
            end)
         (snd sect))
    text.

(** The object before the construction on a file that matches the schema
    and selects [a, b, c] where the choices are [a], [c] and [none], and
    after. *)
Definition abc_declared : store :=
  Eval vm_compute in
    built (example_defaults
             (fresh "sect"
                (Some [("global", [("seed", Some "77")]);
                       ("sect", [("multi", Some "a, b, c"); ("single", Some "y");
                                 ("flag", Some "True"); ("rate", Some "0.25");
                                 ("name", Some "face")])]))).

Definition abc_built : store :=
  Eval vm_compute in built (handle_config fill_short abc_declared).

(** The same on a file that has an option the schema does not declare. *)
Definition abc_extra_declared : store :=
  Eval vm_compute in
    built (example_defaults
             (fresh "sect"
                (Some [("global", [("seed", Some "77")]);
                       ("sect", [("multi", Some "a, b, c"); ("old", Some "1");
                                 ("single", Some "y"); ("flag", Some "True");
                                 ("rate", Some "0.25"); ("name", Some "face")])]))).

Definition abc_extra_built : store :=
  Eval vm_compute in built (handle_config fill_short abc_extra_declared).

(** The same on a file that selects nothing. *)
Definition unselected_declared : store :=
  Eval vm_compute in
    built (example_defaults
             (fresh "sect"
                (Some [("global", [("seed", Some "77")]);
                       ("sect", [("multi", Some ""); ("single", Some "y");
                                 ("flag", Some "True"); ("rate", Some "0.25");
                                 ("name", Some "face")])]))).

Definition unselected_built : store :=
  Eval vm_compute in built (handle_config fill_short unselected_declared).

(* ================================================================= *)
(** * Properties *)

(** ** The conversions of Python, on examples *)

Example int_of_str_blanks_and_underscores :
  Py.int_of_str " -1_000 " = Ok (-1000)%Z /\ Py.int_of_str "none" = Raise ValueError.
Proof. split; reflexivity. Qed.

Example str_of_values :
  Py.str (VInt (-120)) = "-120" /\ Py.str (VInt 0) = "0"
  /\ Py.str (VList ["a"; "b"]) = "['a', 'b']".
Proof. repeat split. Qed.

Example float_literals_accepted :
  forallb Py.is_float_literal
    ["1"; "1."; ".5"; "1e5"; "1_0.5e-1_0"; "-inf"; "NaN"; " 1.5 "; "+.5E+3"] = true.
Proof. reflexivity. Qed.

Example float_literals_refused :
  existsb Py.is_float_literal
    ["."; "none"; "1_"; "1__0"; "e5"; "1e"; "1.5.2"; ""; "1 2"; "_1"; "1._5"; "1_.5"; "in"]
  = false.
Proof. reflexivity. Qed.

Example float_of_str_examples :
  map Py.float_of_str
    ["7.50"; "1e5"; "-2.5E-7"; "1e16"; "0.1e-3"; " 1_0.5 "; "-0.0"; "INF"; "-nan";
     "1e-5"; "100"; "9.999e15"; "+1.e2"]
  = map (fun lit => Ok (VFloat lit))
      ["7.5"; "100000.0"; "-2.5e-07"; "1e+16"; "0.0001"; "10.5"; "-0.0"; "inf"; "nan";
       "1e-05"; "100.0"; "9999000000000000.0"; "100.0"]
  /\ Py.float_of_str "seven" = Raise ValueError
  /\ Py.float_of_str "0.1234567890123456789" = Raise OutsideModel.
Proof. repeat split. Qed.

Example numeric_white_space :
  Py.int_of_str (String (ascii_of_nat 9) "5") = Ok 5%Z
  /\ Py.int_of_str (String (ascii_of_nat 28) "5") = Raise ValueError
  /\ Py.float_of_str (String (ascii_of_nat 28) "5") = Raise ValueError
  /\ Str.strip (String (ascii_of_nat 28) "5") = "5".
Proof. repeat split. Qed.

Example split_examples :
  Str.split_ws "  a b   c " = ["a"; "b"; "c"]
  /\ Str.split ","%char "A,b , C" = ["A"; "b "; " C"]
  /\ Str.strip "  a b  " = "a b".
Proof. repeat split. Qed.

(** ** Loops *)

Lemma bind_ok {A B : Type} (r : result A) (k : A -> result B) (b : B) :
  bind r k = Ok b -> exists a, r = Ok a /\ k a = Ok b.
Proof.
  destruct r as [a|e]; simpl; intros H; [exists a; auto | discriminate].
Qed.

Ltac bind_inv H :=
  let a := fresh "a" in
  let Ha := fresh "Ha" in
  apply bind_ok in H; destruct H as (a & Ha & H).

Section Loops.

Context {A S : Type}.
Variable body : A -> S -> result S.

(** A relation every step of the body establishes holds across the loop. *)
Lemma for_each_preserves (R : S -> S -> Prop) :
  (forall s, R s s) ->
  (forall s1 s2 s3, R s1 s2 -> R s2 s3 -> R s1 s3) ->
  forall xs s s',
    (forall x t t', In x xs -> body x t = Ok t' -> R t t') ->
    for_each body xs s = Ok s' -> R s s'.
Proof.
  intros Hrefl Htrans xs.
  induction xs as [|x xs IH]; simpl; intros s s' Hstep H.
  - injection H as <-. apply Hrefl.
  - bind_inv H. eapply Htrans.
    + eapply Hstep; eauto.
    + eapply IH; eauto.
Qed.

(** When the steps of the other elements leave the part of the state an
    element is about unchanged, the step of that element runs on that part
    as it was before the loop, and the loop ends with it as that step left
    it. *)
Lemma for_each_isolate {K : Type} (key : A -> K) (agree : K -> S -> S -> Prop) :
  (forall k s, agree k s s) ->
  (forall k s1 s2 s3, agree k s1 s2 -> agree k s2 s3 -> agree k s1 s3) ->
  (forall x s s' k, body x s = Ok s' -> k <> key x -> agree k s s') ->
  forall xs x s s',
    NoDup (map key xs) -> In x xs -> for_each body xs s = Ok s' ->
    exists s1 s2,
      body x s1 = Ok s2 /\ agree (key x) s s1 /\ agree (key x) s2 s'.
Proof.
  intros Hrefl Htrans Hframe xs.
  induction xs as [|y xs IH]; simpl; intros x s s' Hnd Hin H; [contradiction|].
  inversion Hnd as [|? ? Hnotin Hnd']; subst.
  bind_inv H.
  destruct Hin as [-> | Hin].
  - exists s, a. repeat split; auto.
    eapply (for_each_preserves (agree (key x))); eauto.
    intros z t t' Hz Hb. eapply Hframe; eauto.
    intros Heq. apply Hnotin. rewrite Heq. now apply in_map.
  - destruct (IH x a s' Hnd' Hin H) as (s1 & s2 & Hb & H1 & H2).
    exists s1, s2. repeat split; auto.
    eapply Htrans; [|exact H1].
    eapply Hframe; eauto.
    intros Heq. apply Hnotin. rewrite <- Heq. now apply in_map.
Qed.

End Loops.

(** ** Dictionaries *)

Lemma mem_In (x : string) (l : list string) : Str.mem x l = true <-> In x l.
Proof.
  unfold Str.mem. rewrite existsb_exists. split.
  - intros (y & Hin & Heq). apply String.eqb_eq in Heq. now subst.
  - intros Hin. exists x. split; auto. apply String.eqb_refl.
Qed.

Lemma mem_false (x : string) (l : list string) : Str.mem x l = false <-> ~ In x l.
Proof.
  rewrite <- mem_In. destruct (Str.mem x l); split; congruence.
Qed.

Lemma distinct_NoDup (l : list string) : distinct l = true -> NoDup l.
Proof.
  induction l as [|x l IH]; simpl; intros H; constructor.
  - apply andb_prop in H. destruct H as [H _].
    apply negb_true_iff in H. now apply mem_false.
  - apply IH. apply andb_prop in H. tauto.
Qed.

Lemma NoDup_distinct (l : list string) : NoDup l -> distinct l = true.
Proof.
  induction 1 as [|x l Hx _ IH]; simpl; auto.
  rewrite IH, andb_true_r. apply negb_true_iff. now apply mem_false.
Qed.

Section DictFacts.

Context {V : Type}.
Implicit Types (d : OD.t V) (k : string) (v : V).

Lemma od_get_set_same d k v : OD.get (OD.set d k v) k = Some v.
Proof.
  induction d as [|[k' v'] d IH]; simpl.
  - now rewrite String.eqb_refl.
  - destruct (String.eqb k k') eqn:E; simpl.
    + now rewrite String.eqb_refl.
    + now rewrite E.
Qed.

Lemma od_get_set_other d k k' v :
  k <> k' -> OD.get (OD.set d k v) k' = OD.get d k'.
Proof.
  intros Hne. induction d as [|[k0 v0] d IH]; simpl.
  - destruct (String.eqb k' k) eqn:E; auto.
    apply String.eqb_eq in E. congruence.
  - destruct (String.eqb k k0) eqn:E; simpl.
    + apply String.eqb_eq in E. subst k0.
      destruct (String.eqb k' k) eqn:E'; auto.
      apply String.eqb_eq in E'. congruence.
    + now rewrite IH.
Qed.

Lemma od_get_In d k v : OD.get d k = Some v -> In (k, v) d.
Proof.
  induction d as [|[k' v'] d IH]; simpl; [discriminate|].
  destruct (String.eqb k k') eqn:E.
  - apply String.eqb_eq in E. intros [= ->]. left. now subst.
  - intros H. right. auto.
Qed.

Lemma od_get_keys d k v : OD.get d k = Some v -> In k (OD.keys d).
Proof.
  intros H. apply od_get_In in H. now apply (in_map fst) in H.
Qed.

Lemma od_get_none d k : OD.get d k = None <-> ~ In k (OD.keys d).
Proof.
  induction d as [|[k' v'] d IH]; simpl.
  - tauto.
  - destruct (String.eqb k k') eqn:E.
    + apply String.eqb_eq in E. subst. split; [discriminate | tauto].
    + apply String.eqb_neq in E. rewrite IH. split; intros H.
      * intros [H1|H1]; [congruence | tauto].
      * tauto.
Qed.

Lemma od_In_get d k v : NoDup (OD.keys d) -> In (k, v) d -> OD.get d k = Some v.
Proof.
  induction d as [|[k' v'] d IH]; simpl; [tauto|].
  intros Hnd [H|H]; inversion Hnd as [|? ? Hnotin Hnd']; subst.
  - injection H as -> ->. now rewrite String.eqb_refl.
  - destruct (String.eqb k k') eqn:E.
    + apply String.eqb_eq in E. subst. exfalso. apply Hnotin.
      now apply (in_map fst) in H.
    + auto.
Qed.

Lemma od_keys_set d k v :
  OD.keys (OD.set d k v) = if OD.mem d k then OD.keys d else OD.keys d ++ [k].
Proof.
  unfold OD.mem. induction d as [|[k' v'] d IH]; simpl; auto.
  destruct (String.eqb k k') eqn:E; simpl.
  - apply String.eqb_eq in E. now subst.
  - rewrite IH. destruct (OD.get d k); auto.
Qed.

Lemma od_keys_set_NoDup d k v : NoDup (OD.keys d) -> NoDup (OD.keys (OD.set d k v)).
Proof.
  intros Hnd. rewrite od_keys_set. unfold OD.mem.
  destruct (OD.get d k) eqn:E; auto.
  apply od_get_none in E.
  apply NoDup_app; auto.
  - constructor; [tauto | constructor].
  - intros x Hx [<-|[]]. tauto.
Qed.

End DictFacts.

(** ** The parser *)

Lemma stored_some (c : CP.t) (s k : string) (raw : option string) :
  stored c s k = Some raw -> CP.get c s k = CP.value_of raw.
Proof.
  unfold stored, CP.get. destruct (OD.get c s); [|discriminate].
  now intros ->.
Qed.

Lemma get_stored (c : CP.t) (s k : string) (v : option string) :
  CP.get c s k = Ok v -> exists raw, stored c s k = Some raw /\ CP.value_of raw = Ok v.
Proof.
  unfold stored, CP.get. destruct (OD.get c s) as [d|].
  - destruct (OD.get d k) as [raw|]; [|discriminate]. eauto.
  - destruct (String.eqb s CP.default_section); discriminate.
Qed.

Lemma value_of_ok (raw v : option string) : CP.value_of raw = Ok v -> v = raw.
Proof.
  destruct raw as [x|]; simpl.
  - destruct (CP.interpolated x); [discriminate | now intros [= <-]].
  - now intros [= <-].
Qed.

Lemma set_inv (c c' : CP.t) (s k : string) (v : option string) :
  CP.set c s k v = Ok c' ->
  exists d, OD.get c s = Some d /\ c' = OD.set c s (OD.set d k v).
Proof.
  unfold CP.set. intros H. bind_inv H.
  destruct (negb (Str.truthy s) || String.eqb s CP.default_section); [discriminate|].
  destruct (OD.get c s) as [d|]; [|discriminate].
  injection H as <-. eauto.
Qed.

Lemma stored_set_same (c c' : CP.t) (s k : string) (v : option string) :
  CP.set c s k v = Ok c' -> stored c' s k = Some v.
Proof.
  intros H. apply set_inv in H. destruct H as (d & Hd & ->).
  unfold stored. rewrite od_get_set_same. apply od_get_set_same.
Qed.

Lemma stored_set_other (c c' : CP.t) (s k s' k' : string) (v : option string) :
  CP.set c s k v = Ok c' -> s' <> s \/ k' <> k ->
  stored c' s' k' = stored c s' k'.
Proof.
  intros H Hne. apply set_inv in H. destruct H as (d & Hd & ->).
  unfold stored.
  destruct (string_dec s s') as [<-|Hs].
  - rewrite od_get_set_same, Hd. apply od_get_set_other.
    destruct Hne; congruence.
  - now rewrite od_get_set_other.
Qed.

Lemma sections_set (c c' : CP.t) (s k : string) (v : option string) :
  CP.set c s k v = Ok c' -> CP.sections c' = CP.sections c.
Proof.
  intros H. apply set_inv in H. destruct H as (d & Hd & ->).
  unfold CP.sections. rewrite od_keys_set. unfold OD.mem. now rewrite Hd.
Qed.

Lemma get_agree (c1 c2 : CP.t) (s k : string) (v : option string) :
  stored c1 s k = stored c2 s k -> CP.get c1 s k = Ok v -> CP.get c2 s k = Ok v.
Proof.
  intros Heq H. destruct (get_stored _ _ _ _ H) as (raw & Hraw & Hv).
  rewrite Heq in Hraw. now rewrite (stored_some _ _ _ _ Hraw).
Qed.

Lemma parse_list_agree (st1 st2 : store) (s k : string) (l : list string) :
  stored (config st1) s k = stored (config st2) s k ->
  _parse_list st1 s k = Ok l -> _parse_list st2 s k = Ok l.
Proof.
  unfold _parse_list. intros Heq H. bind_inv H.
  now rewrite (get_agree _ _ _ _ _ Heq Ha).
Qed.

(** ** Validation of the choices *)

Lemma untouched_refl (st : store) : untouched st st.
Proof. unfold untouched. intuition auto. apply incl_refl. Qed.

Lemma untouched_trans (s1 s2 s3 : store) :
  untouched s1 s2 -> untouched s2 s3 -> untouched s1 s3.
Proof.
  unfold untouched. intros (A1 & A2 & A3 & A4 & A5 & A6) (B1 & B2 & B3 & B4 & B5 & B6).
  repeat split; try congruence. eapply incl_tran; eauto.
Qed.

Lemma with_config_warn_untouched (st : store) (w : warning) (c : CP.t) :
  CP.sections c = CP.sections (config st) ->
  untouched st (with_config (warn st w) c).
Proof.
  intros H. unfold untouched; simpl. repeat split; auto.
  apply incl_tl, incl_refl.
Qed.

Lemma check_choice_inv (s : string) (kv : string * entry) (st st' : store) :
  check_choice s kv st = Ok st' ->
  st' = st \/
  exists w v c,
    CP.set (config st) s (fst kv) (Some v) = Ok c /\ st' = with_config (warn st w) c.
Proof.
  destruct kv as [k e]. unfold check_choice.
  destruct (String.eqb k "helptext"); [intros [= <-]; auto|].
  destruct e as [info|opt]; [discriminate|].
  destruct (i_choices opt) as [|ch chs]; [intros [= <-]; auto|].
  destruct (datatype_eqb (i_type opt) Dlist).
  - intros H. bind_inv H. destruct a as [|t ts]; [injection H as <-; auto|].
    destruct (existsb _ _); [|injection H as <-; auto].
    bind_inv H. injection H as <-. right. simpl in Ha0. eauto.
  - intros H. bind_inv H. destruct a as [v|]; [|discriminate].
    destruct (_ && _); [injection H as <-; auto|].
    destruct (negb _); [|injection H as <-; auto].
    bind_inv H. injection H as <-. right. simpl in Ha0. eauto.
Qed.

Lemma check_choice_untouched (s : string) (kv : string * entry) (st st' : store) :
  check_choice s kv st = Ok st' -> untouched st st'.
Proof.
  intros H. apply check_choice_inv in H.
  destruct H as [-> | (w & v & c & Hset & ->)].
  - apply untouched_refl.
  - apply with_config_warn_untouched. eapply sections_set; eauto.
Qed.

Lemma check_choice_frame (s : string) (kv : string * entry) (st st' : store)
  (s' k' : string) :
  check_choice s kv st = Ok st' -> s' <> s \/ k' <> fst kv ->
  stored (config st') s' k' = stored (config st) s' k'.
Proof.
  intros H Hne. apply check_choice_inv in H.
  destruct H as [-> | (w & v & c & Hset & ->)]; auto.
  simpl. eapply stored_set_other; eauto.
Qed.

Lemma agree_at_refl (sk : string * string) (st : store) : agree_at sk st st.
Proof. split; [reflexivity | apply incl_refl]. Qed.

Lemma agree_at_trans (sk : string * string) (s1 s2 s3 : store) :
  agree_at sk s1 s2 -> agree_at sk s2 s3 -> agree_at sk s1 s3.
Proof.
  intros [A1 A2] [B1 B2]. split; [congruence | eapply incl_tran; eauto].
Qed.

Lemma agree_in_refl (s : string) (st : store) : agree_in s st st.
Proof. split; [reflexivity | apply incl_refl]. Qed.

Lemma agree_in_trans (s : string) (s1 s2 s3 : store) :
  agree_in s s1 s2 -> agree_in s s2 s3 -> agree_in s s1 s3.
Proof.
  intros [A1 A2] [B1 B2]. split; [|eapply incl_tran; eauto].
  intros k. now rewrite A1.
Qed.

Lemma items_loop_untouched (s : string) (items : OD.t entry) (st st' : store) :
  for_each (check_choice s) items st = Ok st' -> untouched st st'.
Proof.
  apply for_each_preserves.
  - apply untouched_refl.
  - apply untouched_trans.
  - intros x t t' _. apply check_choice_untouched.
Qed.

Lemma items_loop_frame (s : string) (items : OD.t entry) (st st' : store) (s' : string) :
  for_each (check_choice s) items st = Ok st' -> s' <> s -> agree_in s' st st'.
Proof.
  intros H Hne.
  apply (for_each_preserves (check_choice s) (agree_in s')) with (xs := items); auto.
  - apply agree_in_refl.
  - apply agree_in_trans.
  - intros x t t' _ Hx. split.
    + intros k. symmetry. eapply check_choice_frame; eauto.
    + apply check_choice_untouched in Hx. apply Hx.
Qed.

Lemma NoDup_tagged {V : Type} (s : string) (d : OD.t V) :
  NoDup (OD.keys d) -> NoDup (map (fun kv : string * V => (s, fst kv)) d).
Proof.
  unfold OD.keys. induction d as [|[k v] d IH]; simpl; intros H; constructor;
    inversion H as [|? ? Hnotin Hnd]; subst; auto.
  intros Hin. apply Hnotin. apply in_map_iff in Hin.
  destruct Hin as ([k' v'] & [= ->] & Hin). now apply (in_map fst) in Hin.
Qed.

(** The step of [check_config_choices] for an option of the schema runs on
    the value the parser held for it before the validation, and the
    validation ends with what that step stored for it. *)
Lemma check_config_choices_isolate (st st' : store) (s k : string)
  (items : OD.t entry) (e : entry) :
  schema_wf (defaults st) = true ->
  OD.get (defaults st) s = Some items ->
  OD.get items k = Some e ->
  check_config_choices st = Ok st' ->
  exists st1 st2,
    check_choice s (k, e) st1 = Ok st2
    /\ agree_at (s, k) st st1 /\ agree_at (s, k) st2 st'.
Proof.
  unfold schema_wf, check_config_choices. intros Hwf Hs Hk H.
  apply andb_prop in Hwf. destruct Hwf as [Hnd Hall].
  apply distinct_NoDup in Hnd.
  assert (Hitems : NoDup (OD.keys items)).
  { apply distinct_NoDup. rewrite forallb_forall in Hall.
    apply (Hall (s, items)). now apply od_get_In. }
  destruct (for_each_isolate
              (fun (sect : string * OD.t entry) st =>
                 for_each (check_choice (fst sect)) (snd sect) st)
              fst agree_in agree_in_refl agree_in_trans)
    with (xs := defaults st) (x := (s, items)) (s := st) (s' := st')
    as (sa & sb & Hbody & [Ha1 Ha2] & [Hb1 Hb2]); auto.
  { intros x t t' s' Hx Hne. eapply items_loop_frame; eauto. }
  { now apply od_get_In. }
  simpl in Hbody.
  destruct (for_each_isolate (check_choice s)
              (fun kv : string * entry => (s, fst kv))
              agree_at agree_at_refl agree_at_trans)
    with (xs := items) (x := (k, e)) (s := sa) (s' := sb)
    as (ta & tb & Hstep & [Hc1 Hc2] & [Hd1 Hd2]); auto.
  { intros x t t' [s' k'] Hx Hne. split; simpl.
    - symmetry. eapply check_choice_frame; eauto.
      destruct (string_dec k' (fst x)); [|auto].
      left. intros ->. apply Hne. now subst.
    - apply check_choice_untouched in Hx. apply Hx. }
  { now apply NoDup_tagged. }
  { now apply od_get_In. }
  exists ta, tb. split; [exact Hstep|]. simpl in *. split; split; simpl.
  - now rewrite Ha1.
  - eapply incl_tran; eauto.
  - now rewrite Hd1.
  - eapply incl_tran; eauto.
Qed.

Lemma check_choice_multi (s k : string) (opt : opt_dict) (st st' : store) :
  k <> "helptext" -> i_type opt = Dlist -> i_choices opt <> [] ->
  check_choice s (k, Item opt) st = Ok st' ->
  exists tokens,
    _parse_list st s k = Ok tokens /\
    if existsb (fun val => negb (is_valid (i_choices opt) val)) tokens
    then
      let valid := Str.join ", " (filter (is_valid (i_choices opt)) tokens) in
      stored (config st') s k = Some (Some valid)
      /\ In (InvalidSelections
               (filter (fun val => negb (is_valid (i_choices opt) val)) tokens)
               s k valid) (warnings st')
    else st' = st.
Proof.
  intros Hk Hty Hch. unfold check_choice.
  apply String.eqb_neq in Hk. rewrite Hk, Hty. simpl.
  destruct (i_choices opt) as [|ch chs] eqn:Ech; [congruence|].
  intros H. bind_inv H. exists a. split; auto.
  destruct a as [|t ts]; [simpl; now injection H as <-|].
  destruct (existsb _ (t :: ts)); [|now injection H as <-].
  bind_inv H. injection H as <-. simpl in Ha0. simpl. split.
  - eapply stored_set_same; eauto.
  - now left.
Qed.

(** The validation of the choices, when it completes, leaves for a list
    option the valid tokens of the value it found, joined in their order,
    and a warning, when one of the tokens is no declared choice; and leaves
    the value as it was when every token is valid or none is selected. *)
Lemma check_config_choices_multi (st st' : store) (section item : string)
  (items : OD.t entry) (opt : opt_dict) :
  schema_wf (defaults st) = true ->
  OD.get (defaults st) section = Some items ->
  OD.get items item = Some (Item opt) ->
  item <> "helptext" -> i_type opt = Dlist -> i_choices opt <> [] ->
  check_config_choices st = Ok st' ->
  exists tokens,
    _parse_list st section item = Ok tokens /\
    if existsb (fun val => negb (is_valid (i_choices opt) val)) tokens
    then
      let valid := Str.join ", " (filter (is_valid (i_choices opt)) tokens) in
      stored (config st') section item = Some (Some valid)
      /\ In (InvalidSelections
               (filter (fun val => negb (is_valid (i_choices opt) val)) tokens)
               section item valid) (warnings st')
    else stored (config st') section item = stored (config st) section item.
Proof.
  intros Hwf Hs Hi Hk Hty Hch H.
  destruct (check_config_choices_isolate _ _ _ _ _ _ Hwf Hs Hi H)
    as (st1 & st2 & Hstep & [Ha1 Ha2] & [Hb1 Hb2]). simpl in *.
  destruct (check_choice_multi _ _ _ _ _ Hk Hty Hch Hstep) as (tokens & Hp & Hres).
  exists tokens. split.
  - eapply parse_list_agree; [symmetry; exact Ha1 | exact Hp].
  - destruct (existsb _ tokens).
    + destruct Hres as [Hv Hw]. split; [congruence | auto].
    + subst st2. congruence.
Qed.

Lemma check_choice_single (s k : string) (opt : opt_dict) (st st' : store) :
  k <> "helptext" -> i_type opt <> Dlist -> i_choices opt <> [] ->
  check_choice s (k, Item opt) st = Ok st' ->
  exists value,
    CP.get (config st) s k = Ok (Some value) /\
    if String.eqb (Str.lower value) "none"
       && existsb (fun choice => String.eqb (Str.lower choice) "none") (i_choices opt)
    then st' = st
    else if is_valid (i_choices opt) value then st' = st
    else
      stored (config st') s k = Some (Some (Py.str (i_default opt)))
      /\ In (InvalidChoice value s k (Py.str (i_default opt))) (warnings st').
Proof.
  intros Hk Hty Hch. unfold check_choice.
  apply String.eqb_neq in Hk. rewrite Hk.
  destruct (i_choices opt) as [|ch chs] eqn:Ech; [congruence|].
  assert (Hl : datatype_eqb (i_type opt) Dlist = false)
    by (destruct (i_type opt); simpl; congruence).
  rewrite Hl. intros H. bind_inv H.
  destruct a as [value|]; [|discriminate].
  exists value. split; auto.
  destruct (_ && _); [now injection H as <-|].
  destruct (is_valid (ch :: chs) value); simpl in H; [now injection H as <-|].
  bind_inv H. injection H as <-. simpl in Ha0. simpl. split.
  - eapply stored_set_same; eauto.
  - now left.
Qed.

(** C7. For a single-choice option (a type other than list, with choices)
    of the schema, the validation of the choices, when it completes, found
    a stored value for the option and: accepts it unchanged when it is
    "none" in any letter case and some declared choice is too; accepts it
    unchanged when it is one of the choices, compared exactly; and otherwise
    sets the option to the string of the schema default and logs a warning
    naming the value and the default. *)
Theorem single_choice_reset_to_default (st st' : store) (section item : string)
  (items : OD.t entry) (opt : opt_dict) :
  schema_wf (defaults st) = true ->
  OD.get (defaults st) section = Some items ->
  OD.get items item = Some (Item opt) ->
  item <> "helptext" -> i_type opt <> Dlist -> i_choices opt <> [] ->
  check_config_choices st = Ok st' ->
  exists value,
    CP.get (config st) section item = Ok (Some value) /\
    if String.eqb (Str.lower value) "none"
       && existsb (fun choice => String.eqb (Str.lower choice) "none") (i_choices opt)
    then stored (config st') section item = Some (Some value)
    else if Str.mem value (i_choices opt)
    then stored (config st') section item = Some (Some value)
    else
      stored (config st') section item = Some (Some (Py.str (i_default opt)))
      /\ In (InvalidChoice value section item (Py.str (i_default opt))) (warnings st').
Proof.
  intros Hwf Hs Hi Hk Hty Hch H.
  destruct (check_config_choices_isolate _ _ _ _ _ _ Hwf Hs Hi H)
    as (st1 & st2 & Hstep & [Ha1 Ha2] & [Hb1 Hb2]). simpl in *.
  destruct (check_choice_single _ _ _ _ _ Hk Hty Hch Hstep) as (value & Hg & Hres).
  assert (Hst1 : stored (config st1) section item = Some (Some value)).
  { destruct (get_stored _ _ _ _ Hg) as (raw & Hraw & Hv).
    apply value_of_ok in Hv. now subst raw. }
  exists value. split.
  - eapply get_agree; [symmetry; exact Ha1 | exact Hg].
  - unfold is_valid in Hres. destruct (_ && _).
    + subst st2. congruence.
    + destruct (Str.mem value (i_choices opt)).
      * subst st2. congruence.
      * destruct Hres as [Hv Hw]. split; [congruence | auto].
Qed.

Lemma single_choice_zzz :
  stored (config abc_loaded) "sect" "single" = Some (Some "zzz")
  /\ stored (config abc_validated) "sect" "single" = Some (Some "x").
Proof.
  split; [reflexivity|].
  destruct (single_choice_reset_to_default abc_loaded abc_validated "sect" "single"
              (items_of abc_loaded "sect") (option_of abc_loaded "sect" "single")
              ltac:(vm_compute; reflexivity) ltac:(vm_compute; reflexivity)
              ltac:(vm_compute; reflexivity) ltac:(discriminate)
              ltac:(discriminate) ltac:(discriminate)
              ltac:(vm_compute; reflexivity))
    as (value & Hg & Hres).
  vm_compute in Hg. injection Hg as <-.
  vm_compute in Hres. vm_compute. exact (proj1 Hres).
Defined.


(** ** The list-parsing rule *)

Lemma split_on_cons (sep : ascii -> bool) (s : string) :
  exists h t, split_on sep s = h :: t.
Proof.
  destruct s as [|c r]; simpl; eauto.
  destruct (split_on sep r) as [|h t]; eauto.
  destruct (sep c); eauto.
Qed.

Lemma split_is_split_on (sep : ascii) (s : string) :
  Str.split sep s = split_on (fun c => Ascii.eqb c sep) s.
Proof.
  induction s as [|c r IH]; simpl; auto.
  rewrite IH. destruct (split_on_cons (fun c => Ascii.eqb c sep) r) as (h & t & ->).
  now destruct (Ascii.eqb c sep).
Qed.

Lemma split_ws_is_split_on (s : string) :
  Str.split_ws s = filter Str.truthy (split_on Str.is_space s).
Proof.
  induction s as [|c r IH]; auto.
  cbn [Str.split_ws split_on].
  destruct (split_on_cons Str.is_space r) as (h & t & E). rewrite E in *.
  destruct (Str.is_space c) eqn:Ec.
  - rewrite IH. reflexivity.
  - destruct r as [|c' r'].
    + simpl in E. injection E as <- <-. reflexivity.
    + rewrite IH. cbn [split_on] in E.
      destruct (split_on_cons Str.is_space r') as (h' & t' & E'). rewrite E' in E.
      destruct (Str.is_space c'); injection E as <- <-; reflexivity.
Qed.

Lemma contains_existsb (c : ascii) (s : string) :
  Str.contains c s = existsb (fun x => Ascii.eqb x c) (list_ascii_of_string s).
Proof.
  induction s as [|c' r IH]; simpl; auto.
  now rewrite IH, Ascii.eqb_sym.
Qed.

(** Splitting on a separator loses nothing: the pieces joined by the
    separator are the string, and no piece holds the separator. *)
Lemma join_split (sep : ascii) (s : string) :
  Str.join (String sep EmptyString) (Str.split sep s) = s.
Proof.
  unfold Str.join. induction s as [|c r IH]; simpl; auto.
  destruct (Ascii.eqb c sep) eqn:E.
  - apply Ascii.eqb_eq in E. subst c.
    destruct (Str.split sep r) as [|h t] eqn:Er.
    + destruct r; simpl in Er; [discriminate|].
      destruct (Ascii.eqb a sep); [discriminate|].
      destruct (Str.split sep r); discriminate.
    + simpl. now rewrite <- IH.
  - destruct (Str.split sep r) as [|h t] eqn:Er.
    + simpl in IH. now subst r.
    + rewrite <- IH. destruct t; reflexivity.
Qed.

Lemma split_pieces_free (sep : ascii) (s piece : string) :
  In piece (Str.split sep s) -> Str.contains sep piece = false.
Proof.
  revert piece. induction s as [|c r IH]; simpl; intros piece.
  - intros [<-|[]]. reflexivity.
  - destruct (Ascii.eqb c sep) eqn:E.
    + intros [<-|H]; auto.
    + destruct (Str.split sep r) as [|h t].
      * intros [<-|[]]. simpl. now rewrite Ascii.eqb_sym, E.
      * intros [<-|H].
        -- simpl. rewrite Ascii.eqb_sym, E. apply IH. now left.
        -- apply IH. now right.
Qed.

Lemma parse_list_of_get (st : store) (section opt raw : string) :
  CP.get (config st) section opt = Ok (Some raw) ->
  _parse_list st section opt = Ok (spec_parse_list raw).
Proof.
  intros H. unfold _parse_list, spec_parse_list. rewrite H. simpl.
  destruct raw as [|c r]; [reflexivity|].
  change (String.eqb (String c r) "") with false. cbv iota.
  rewrite contains_existsb, split_is_split_on, split_ws_is_split_on.
  reflexivity.
Qed.

(** C8. The list-parsing rule: for a stored string, [_parse_list] returns
    what the rule of the specification gives, the empty sequence for the
    empty string and otherwise the trimmed, lowercased pieces between commas
    when a comma is present and between white space when none is; it turns
    the text A,b , C with its blanks into a, b, c. *)
Theorem parse_list_rule (st : store) (section opt raw : string) :
  CP.get (config st) section opt = Ok (Some raw) ->
  _parse_list st section opt = Ok (spec_parse_list raw)
  /\ spec_parse_list "" = []
  /\ spec_parse_list "A,b , C" = ["a"; "b"; "c"].
Proof.
  intros H. split; [now apply parse_list_of_get | split; reflexivity].
Qed.

Lemma parse_list_rule_example :
  _parse_list abc_loaded "sect" "multi" = Ok ["a"; "b"; "c"].
Proof.
  exact (proj1 (parse_list_rule abc_loaded "sect" "multi" "a, b, c"
                  ltac:(vm_compute; reflexivity))).
Defined.


(** ** The literal none *)

Lemma lower_char_n (c : ascii) :
  Str.lower_char c = "n"%char -> c = "n"%char \/ c = "N"%char.
Proof.
  destruct c as [[] [] [] [] [] [] [] []]; vm_compute; intros H;
    solve [discriminate H | auto].
Qed.

Lemma lower_char_o (c : ascii) :
  Str.lower_char c = "o"%char -> c = "o"%char \/ c = "O"%char.
Proof.
  destruct c as [[] [] [] [] [] [] [] []]; vm_compute; intros H;
    solve [discriminate H | auto].
Qed.

Lemma lower_char_e (c : ascii) :
  Str.lower_char c = "e"%char -> c = "e"%char \/ c = "E"%char.
Proof.
  destruct c as [[] [] [] [] [] [] [] []]; vm_compute; intros H;
    solve [discriminate H | auto].
Qed.

Lemma lower_none (s : string) : Str.lower s = "none" -> In s none_spellings.
Proof.
  destruct s as [|c1 [|c2 [|c3 [|c4 [|c5 r]]]]]; try discriminate.
  unfold Str.lower. simpl. intros H. injection H as H1 H2 H3 H4.
  apply lower_char_n in H1, H3. apply lower_char_o in H2. apply lower_char_e in H4.
  destruct H1, H2, H3, H4; subst; simpl; tauto.
Qed.

Lemma get_typed (st : store) (section opt : string) (ty : datatype) (value : string) :
  declared_type st section opt = Ok ty ->
  stored (config st) section opt = Some (Some value) ->
  CP.interpolated value = false ->
  get st section opt =
    (retval <-
       match ty with
       | Dbool => b <- CP.convert_to_boolean value ;; Ok (VBool b)
       | Dint => z <- Py.int_of_str value ;; Ok (VInt z)
       | Dfloat => Py.float_of_str value
       | Dlist => Ok (VList (spec_parse_list value))
       | _ => Ok (VStr value)
       end ;;
     match retval with
     | VStr s => if String.eqb (Str.lower s) "none" then Ok VNone else Ok retval
     | _ => Ok retval
     end).
Proof.
  intros Hty Hst Hi.
  assert (Hget : CP.get (config st) section opt = Ok (Some value)).
  { rewrite (stored_some _ _ _ _ Hst). simpl. now rewrite Hi. }
  unfold get. rewrite Hty. simpl.
  destruct ty; unfold CP.getboolean, CP.getint, CP.getfloat; try rewrite Hget; simpl; auto.
  rewrite (parse_list_of_get st section opt value Hget). reflexivity.
Qed.

(** C2, as the code has it. For a declared option whose stored value is the
    literal none in any letter case, [get] returns the absent value when the
    declared type is text (or not one of the five), the one-element list
    with the token none when it is list, and fails with a value error when
    it is boolean, integer or floating-point. *)
Theorem get_none_literal (st : store) (section opt : string) (ty : datatype)
  (value : string) :
  declared_type st section opt = Ok ty ->
  stored (config st) section opt = Some (Some value) ->
  Str.lower value = "none" ->
  get st section opt =
    match ty with
    | Dbool | Dint | Dfloat => Raise ValueError
    | Dlist => Ok (VList ["none"])
    | Dstr | Dother _ => Ok VNone
    end.
Proof.
  intros Hty Hst Hl. apply lower_none in Hl.
  assert (Hi : CP.interpolated value = false).
  { simpl in Hl. repeat (destruct Hl as [<-|Hl]; [reflexivity|]). contradiction. }
  rewrite (get_typed _ _ _ _ _ Hty Hst Hi).
  simpl in Hl.
  repeat (destruct Hl as [<-|Hl]; [destruct ty; reflexivity|]). contradiction.
Qed.

Lemma get_none_literal_text :
  get abc_loaded "sect" "name" = Ok VNone.
Proof.
  exact (get_none_literal abc_loaded "sect" "name" Dstr "NONE"
           ltac:(vm_compute; reflexivity) ltac:(vm_compute; reflexivity)
           ltac:(vm_compute; reflexivity)).
Defined.

(** C2, the claim as stated fails: in the store built on a file where the
    values of a boolean, an integer, a floating-point and a list option are
    spellings of none, [get] raises a value error for the first three and
    returns a list for the fourth. *)
Lemma none_is_not_absent_for_every_type :
  exists st,
    example_store "NONE" "none" "x" "None" "none" "face" = Ok st
    /\ stored (config st) "sect" "flag" = Some (Some "None")
    /\ get st "sect" "flag" = Raise ValueError
    /\ get st "global" "seed" = Raise ValueError
    /\ get st "sect" "rate" = Raise ValueError
    /\ get st "sect" "multi" = Ok (VList ["none"]).
Proof.
  eexists. split; [vm_compute; reflexivity|].
  repeat split.
Qed.


(** ** Integers and their decimal text *)

Lemma lstrip_no_space (s : string) : no_space s = true -> Str.lstrip s = s.
Proof.
  destruct s as [|c r]; simpl; auto.
  unfold no_space. simpl. intros H. apply andb_prop in H. destruct H as [H _].
  apply negb_true_iff in H. now rewrite H.
Qed.

Lemma rstrip_no_space (s : string) : no_space s = true -> Str.rstrip s = s.
Proof.
  unfold no_space. induction s as [|c r IH]; simpl; auto.
  intros H. apply andb_prop in H. destruct H as [Hc Hr].
  apply negb_true_iff in Hc. rewrite (IH Hr), Hc. now destruct r.
Qed.

Lemma strip_no_space (s : string) : no_space s = true -> Str.strip s = s.
Proof.
  intros H. unfold Str.strip. rewrite (lstrip_no_space _ H). now apply rstrip_no_space.
Qed.

Lemma not_space_not_c_space (c : ascii) :
  Str.is_space c = false -> Py.is_c_space c = false.
Proof. destruct c as [[] [] [] [] [] [] [] []]; intros H; try reflexivity; discriminate H. Qed.

Lemma num_lstrip_no_space (s : string) : no_space s = true -> Py.num_lstrip s = s.
Proof.
  destruct s as [|c r]; simpl; auto.
  unfold no_space. simpl. intros H. apply andb_prop in H. destruct H as [H _].
  apply negb_true_iff in H. now rewrite (not_space_not_c_space _ H).
Qed.

Lemma num_rstrip_no_space (s : string) : no_space s = true -> Py.num_rstrip s = s.
Proof.
  unfold no_space. induction s as [|c r IH]; simpl; auto.
  intros H. apply andb_prop in H. destruct H as [Hc Hr].
  apply negb_true_iff in Hc. rewrite (IH Hr), (not_space_not_c_space _ Hc).
  now destruct r.
Qed.

Lemma num_strip_no_space (s : string) : no_space s = true -> Py.num_strip s = s.
Proof.
  intros H. unfold Py.num_strip. rewrite (num_lstrip_no_space _ H).
  now apply num_rstrip_no_space.
Qed.

Lemma uint_text_no_space (u : Decimal.uint) :
  no_space (NilEmpty.string_of_uint u) = true.
Proof. induction u; simpl; auto. Qed.

Lemma uint_text_plain (u : Decimal.uint) :
  CP.interpolated (NilEmpty.string_of_uint u) = false.
Proof. unfold CP.interpolated. induction u; simpl; auto. Qed.

Lemma uint_text_empty (u : Decimal.uint) :
  NilEmpty.string_of_uint u = "" -> u = Decimal.Nil.
Proof. destruct u; simpl; auto; discriminate. Qed.

Lemma parse_digits_uint (u : Decimal.uint) :
  u <> Decimal.Nil -> Py.parse_digits (NilEmpty.string_of_uint u) = Some u.
Proof.
  induction u as [|u IH|u IH|u IH|u IH|u IH|u IH|u IH|u IH|u IH|u IH];
    intros Hne; [congruence|..];
    cbn [NilEmpty.string_of_uint Py.parse_digits];
    (destruct (NilEmpty.string_of_uint u) as [|c r] eqn:E;
     [ apply uint_text_empty in E; subst u; reflexivity
     | assert (Hu : u <> Decimal.Nil) by (intros ->; discriminate E);
       specialize (IH Hu);
       change (Py.digit _) with (Some Decimal.D0) ||
       change (Py.digit _) with (Some Decimal.D1) ||
       change (Py.digit _) with (Some Decimal.D2) ||
       change (Py.digit _) with (Some Decimal.D3) ||
       change (Py.digit _) with (Some Decimal.D4) ||
       change (Py.digit _) with (Some Decimal.D5) ||
       change (Py.digit _) with (Some Decimal.D6) ||
       change (Py.digit _) with (Some Decimal.D7) ||
       change (Py.digit _) with (Some Decimal.D8) ||
       change (Py.digit _) with (Some Decimal.D9);
       cbv iota;
       assert (Hc : Ascii.eqb c "_" = false)
         by (destruct u; simpl in E; try discriminate E; injection E as <- _; reflexivity);
       rewrite Hc, IH; reflexivity ]).
Qed.

Lemma int_text_no_space (z : Z) : no_space (Py.str_of_int z) = true.
Proof.
  unfold Py.str_of_int. destruct z; simpl; auto; apply uint_text_no_space.
Qed.

Lemma int_text_plain (z : Z) : CP.interpolated (Py.str_of_int z) = false.
Proof.
  unfold Py.str_of_int. destruct z; simpl; auto; apply uint_text_plain.
Qed.

(** [int(str(z))] is [z]. *)
Lemma int_of_str_of_int (z : Z) : Py.int_of_str (Py.str_of_int z) = Ok z.
Proof.
  unfold Py.int_of_str. rewrite (num_strip_no_space _ (int_text_no_space z)).
  rewrite <- (DecimalZ.of_to z) at 2.
  unfold Py.str_of_int. destruct z as [|p|p]; [reflexivity| |].
  - cbn [Z.to_int NilEmpty.string_of_int].
    pose proof (parse_digits_uint _ (DecimalPos.Unsigned.to_uint_nonnil p)) as Hp.
    destruct (NilEmpty.string_of_uint (Pos.to_uint p)) as [|c r] eqn:E;
      [discriminate Hp|].
    assert (Hc : Ascii.eqb c "-" = false /\ Ascii.eqb c "+" = false).
    { destruct (Pos.to_uint p); simpl in E; try discriminate E;
        injection E as <- _; auto. }
    destruct Hc as [-> ->]. now rewrite Hp.
  - cbn [Z.to_int NilEmpty.string_of_int]. cbn [Ascii.eqb Bool.eqb].
    change (Ascii.eqb "-" "-") with true. cbv iota.
    now rewrite (parse_digits_uint _ (DecimalPos.Unsigned.to_uint_nonnil p)).
Qed.

(** ** Floats and the text Python prints for them *)

Lemma digit_char (c : ascii) :
  Py.is_digit c = true ->
  Ascii.eqb c "_" = false /\ Ascii.eqb c "." = false
  /\ Ascii.eqb c "+" = false /\ Ascii.eqb c "-" = false
  /\ Ascii.eqb (Str.lower_char c) "e" = false
  /\ Ascii.eqb (Str.lower_char c) "i" = false
  /\ Ascii.eqb (Str.lower_char c) "n" = false
  /\ Str.is_space c = false /\ Ascii.eqb "%" c = false
  /\ Ascii.eqb Str.newline c = false /\ Ascii.eqb (ascii_of_nat 13) c = false.
Proof.
  destruct c as [[] [] [] [] [] [] [] []]; intros H; try discriminate H;
    repeat split.
Qed.

Lemma all_digits_cons (c : ascii) (s : string) :
  Py.all_digits (String c s) = Py.is_digit c && Py.all_digits s.
Proof. reflexivity. Qed.

Lemma all_digits_app (a b : string) :
  Py.all_digits (a ++ b) = Py.all_digits a && Py.all_digits b.
Proof.
  induction a as [|c a IH]; [reflexivity|].
  cbn [append]. rewrite !all_digits_cons, IH. apply andb_assoc.
Qed.

Lemma digitpart_tail_app (a b : string) :
  Py.all_digits a = true -> Py.ends_digits b -> Py.digitpart_tail (a ++ b) = (a, b).
Proof.
  intros Ha Hb. induction a as [|c a IH].
  - cbn [append]. destruct b as [|c r]; [reflexivity|].
    destruct Hb as [Hd Hu]. cbn [Py.digitpart_tail]. now rewrite Hd, Hu.
  - rewrite all_digits_cons in Ha. apply andb_prop in Ha. destruct Ha as [Hc Ha].
    cbn [append Py.digitpart_tail]. rewrite Hc, (IH Ha). reflexivity.
Qed.

Lemma digitpart_app (c : ascii) (a b : string) :
  Py.all_digits (String c a) = true -> Py.ends_digits b ->
  Py.digitpart (String c a ++ b) = Some (String c a, b).
Proof.
  intros Ha Hb. rewrite all_digits_cons in Ha. apply andb_prop in Ha.
  destruct Ha as [Hc Ha]. cbn [append Py.digitpart]. rewrite Hc.
  now rewrite (digitpart_tail_app a b Ha Hb).
Qed.

Lemma digitpart_all (c : ascii) (a : string) :
  Py.all_digits (String c a) = true ->
  Py.digitpart (String c a) = Some (String c a, EmptyString).
Proof.
  intros Ha. pose proof (digitpart_app c a "" Ha I) as H.
  replace (String c a ++ "")%string with (String c a) in H; [exact H|].
  clear. generalize (String c a). intros s. induction s; cbn; congruence.
Qed.

Lemma chars_app (a b : string) :
  list_ascii_of_string (a ++ b)
  = (list_ascii_of_string a ++ list_ascii_of_string b)%list.
Proof. induction a as [|c a IH]; [reflexivity|]. cbn. now rewrite IH. Qed.

Lemma string_app_nil (s : string) : (s ++ "")%string = s.
Proof. induction s; cbn; congruence. Qed.

Lemma string_length_app (a b : string) :
  String.length (a ++ b) = String.length a + String.length b.
Proof. induction a as [|c a IH]; [reflexivity|]. cbn. now rewrite IH. Qed.

Lemma digitpart_whole (s : string) :
  s <> "" -> Py.all_digits s = true -> Py.digitpart s = Some (s, "").
Proof.
  destruct s as [|c a]; [congruence|]. intros _. apply digitpart_all.
Qed.

Lemma zeros_digits (k : nat) : Py.all_digits (Py.zeros k) = true.
Proof. induction k; [reflexivity|]. cbn [Py.zeros]. now rewrite all_digits_cons, IHk. Qed.

Lemma zeros_length (k : nat) : String.length (Py.zeros k) = k.
Proof. induction k; cbn; congruence. Qed.

Lemma lstrip_zeros_app (k : nat) (s : string) :
  Py.lstrip_zeros (Py.zeros k ++ s) = Py.lstrip_zeros s.
Proof. induction k; [reflexivity|]. cbn [Py.zeros append Py.lstrip_zeros]. exact IHk. Qed.

Lemma lstrip_zeros_head (c : ascii) (r : string) :
  Ascii.eqb c "0" = false -> Py.lstrip_zeros (String c r) = String c r.
Proof. intros H. cbn [Py.lstrip_zeros]. now rewrite H. Qed.

Lemma rstrip_zeros_zeros (m : nat) : Py.rstrip_zeros (Py.zeros m) = "".
Proof. induction m; [reflexivity|]. cbn [Py.zeros Py.rstrip_zeros]. now rewrite IHm. Qed.

Lemma rstrip_zeros_app (a : string) (m : nat) :
  Py.rstrip_zeros (a ++ Py.zeros m) = Py.rstrip_zeros a.
Proof.
  induction a as [|c a IH]; [apply rstrip_zeros_zeros|].
  cbn [append Py.rstrip_zeros]. now rewrite IH.
Qed.

Lemma take_drop (n : nat) (s : string) : (Py.take n s ++ Py.drop n s)%string = s.
Proof.
  revert s. induction n as [|n IH]; intros s; [reflexivity|].
  destruct s as [|c r]; [reflexivity|]. cbn. now rewrite IH.
Qed.

Lemma take_length (n : nat) (s : string) :
  n <= String.length s -> String.length (Py.take n s) = n.
Proof.
  revert s. induction n as [|n IH]; intros s H; [reflexivity|].
  destruct s as [|c r]; cbn in *; [lia|]. rewrite IH; lia.
Qed.

Lemma take_drop_digits (n : nat) (s : string) :
  Py.all_digits s = true ->
  Py.all_digits (Py.take n s) = true /\ Py.all_digits (Py.drop n s) = true.
Proof.
  intros H. rewrite <- (take_drop n s), all_digits_app in H. now apply andb_prop in H.
Qed.

Lemma uint_text_digits (u : Decimal.uint) :
  Py.all_digits (NilEmpty.string_of_uint u) = true.
Proof. induction u; cbn; auto. Qed.

Lemma parse_digits_zero (s : string) :
  s <> "" -> Py.all_digits s = true ->
  Py.parse_digits (String "0" s) = option_map Decimal.D0 (Py.parse_digits s).
Proof.
  destruct s as [|c r]; [congruence|]. intros _ H.
  rewrite all_digits_cons in H. apply andb_prop in H. destruct H as [Hc _].
  destruct (digit_char c Hc) as (Hu & _).
  cbn [Py.parse_digits]. change (Py.digit "0") with (Some Decimal.D0). cbv iota.
  now rewrite Hu.
Qed.

(** The exponent printed is read back. *)
Lemma number_pad2 (z : Z) :
  (0 <= z)%Z ->
  Py.pad2 (Py.str_of_int z) <> ""
  /\ Py.all_digits (Py.pad2 (Py.str_of_int z)) = true
  /\ Py.number (Py.pad2 (Py.str_of_int z)) = Some z.
Proof.
  intros Hz. unfold Py.str_of_int, Py.number. destruct z as [|p|p]; [repeat split; discriminate| |lia].
  cbn [Z.to_int NilEmpty.string_of_int].
  pose proof (parse_digits_uint _ (DecimalPos.Unsigned.to_uint_nonnil p)) as Hp.
  pose proof (uint_text_digits (Pos.to_uint p)) as Hd.
  pose proof (DecimalZ.of_to (Zpos p)) as Hz'. cbn [Z.to_int] in Hz'.
  destruct (NilEmpty.string_of_uint (Pos.to_uint p)) as [|c [|c' r]] eqn:E;
    [discriminate Hp| |].
  - cbn [Py.pad2]. split; [discriminate|]. split.
    + rewrite all_digits_cons, Hd. reflexivity.
    + rewrite parse_digits_zero by (discriminate || exact Hd). rewrite Hp.
      cbn [option_map]. f_equal. exact Hz'.
  - cbn [Py.pad2]. split; [discriminate|]. split; [exact Hd|].
    rewrite Hp. cbn [option_map]. f_equal. exact Hz'.
Qed.

Lemma exponent_printed (ex : Z) :
  Py.exponent ("e" ++ (if (ex <? 0)%Z then "-" else "+")
                 ++ Py.pad2 (Py.str_of_int (Z.abs ex))) = Some ex.
Proof.
  destruct (number_pad2 (Z.abs ex) (Z.abs_nonneg ex)) as (Hne & Hd & Hn).
  cbn [append Py.exponent]. change (Ascii.eqb (Str.lower_char "e") "e") with true.
  cbv iota. destruct (ex <? 0)%Z eqn:E.
  - cbn [append]. change (Ascii.eqb "-" "+") with false.
    change (Ascii.eqb "-" "-") with true. cbv iota.
    rewrite (digitpart_whole _ Hne Hd), Hn. cbn [option_map]. f_equal.
    apply Z.ltb_lt in E. lia.
  - cbn [append]. change (Ascii.eqb "+" "+") with true. cbv iota.
    rewrite (digitpart_whole _ Hne Hd), Hn. cbn [option_map]. f_equal.
    apply Z.ltb_ge in E. lia.
Qed.

Lemma float_wf_inv (neg : bool) (ds : string) (decpt : Z) :
  Py.float_wf (Py.FNum neg ds decpt) = true ->
  exists d rest,
    ds = String d rest /\ Py.is_digit d = true /\ Ascii.eqb d "0" = false
    /\ Py.all_digits ds = true /\ Py.rstrip_zeros ds = ds
    /\ String.length ds <= 15 /\ (-306 <= decpt <= 308)%Z.
Proof.
  cbn [Py.float_wf]. intros H.
  apply andb_prop in H. destruct H as [H Hmax]. apply andb_prop in H.
  destruct H as [H Hmin]. apply andb_prop in H. destruct H as [H Hlen].
  apply andb_prop in H. destruct H as [H Hr]. apply andb_prop in H.
  destruct H as [Hd Hhead].
  destruct ds as [|d rest]; [discriminate Hhead|]. exists d, rest.
  apply negb_true_iff in Hhead. apply String.eqb_eq in Hr.
  apply Nat.leb_le in Hlen. apply Z.leb_le in Hmin, Hmax.
  unfold Py.max_digits, Py.min_decpt, Py.max_decpt in *.
  pose proof Hd as Hd'. rewrite all_digits_cons in Hd'. apply andb_prop in Hd'.
  destruct Hd' as [Hd1 _]. repeat split; auto.
Qed.

Lemma float_value_of (neg : bool) (i f : string) (e : Z) (sig ds : string) (decpt : Z) :
  Py.lstrip_zeros (i ++ f) = sig -> Py.rstrip_zeros sig = ds -> ds <> "" ->
  String.length ds <= 15 ->
  decpt = (Z.of_nat (String.length i) + e
           - Z.of_nat (String.length (i ++ f) - String.length sig))%Z ->
  (-306 <= decpt <= 308)%Z ->
  Py.float_of_syntax (Py.SNum neg i f e) = Some (Py.FNum neg ds decpt).
Proof.
  intros Hs Hd Hne Hlen Hp Hrange. cbn [Py.float_of_syntax]. cbv zeta.
  rewrite Hs, Hd. destruct ds as [|c r]; [congruence|]. rewrite <- Hp.
  replace (String.length (String c r) <=? Py.max_digits)%nat with true
    by (symmetry; apply Nat.leb_le; exact Hlen).
  replace (Py.min_decpt <=? decpt)%Z with true
    by (symmetry; apply Z.leb_le; unfold Py.min_decpt; lia).
  replace (decpt <=? Py.max_decpt)%Z with true
    by (symmetry; apply Z.leb_le; unfold Py.max_decpt; lia).
  reflexivity.
Qed.

Lemma zeros_snoc (m : nat) : (Py.zeros m ++ "0")%string = Py.zeros (S m).
Proof. induction m; [reflexivity|]. cbn [Py.zeros append] in *. now rewrite IHm. Qed.

Lemma drop_length (n : nat) (s : string) :
  String.length (Py.drop n s) = String.length s - n.
Proof.
  revert s. induction n as [|n IH]; intros s; [cbn; lia|].
  destruct s as [|c r]; [reflexivity|]. cbn. apply IH.
Qed.

Lemma string_app_assoc (a b c : string) : ((a ++ b) ++ c)%string = (a ++ b ++ c)%string.
Proof. induction a as [|x a IH]; [reflexivity|]. cbn. now rewrite IH. Qed.

(** The text printed for a number is read back as the number. *)
Lemma numeric_printed (neg : bool) (ds : string) (decpt : Z) :
  Py.float_wf (Py.FNum neg ds decpt) = true ->
  exists syntax,
    Py.numeric_literal neg (Py.repr_number ds decpt) = Some syntax
    /\ Py.float_of_syntax syntax = Some (Py.FNum neg ds decpt).
Proof.
  intros Hwf. destruct (float_wf_inv _ _ _ Hwf)
    as (d & rest & -> & Hd & Hnz & Hall & Hr & Hlen & Hrange).
  destruct (digit_char d Hd) as (_ & Hdot & _).
  pose proof Hall as Hall'. rewrite all_digits_cons in Hall'.
  apply andb_prop in Hall'. destruct Hall' as [_ Hrest].
  assert (Hone : Py.all_digits (String d "") = true)
    by (rewrite all_digits_cons, Hd; reflexivity).
  unfold Py.repr_number.
  destruct ((decpt <=? -4)%Z || (16 <? decpt)%Z) eqn:Esci.
  - (* the exponent notation *)
    set (ex := (decpt - 1)%Z).
    set (tail := ("e" ++ (if (ex <? 0)%Z then "-" else "+")
                    ++ Py.pad2 (Py.str_of_int (Z.abs ex)))%string).
    assert (Htail : Py.ends_digits tail) by (split; reflexivity).
    assert (Hex : Py.exponent tail = Some ex) by apply exponent_printed.
    assert (Htail' : exists r, tail = String "e" r) by (eexists; reflexivity).
    destruct rest as [|c2 r2].
    + exists (Py.SNum neg (String d "") "" ex). split.
      * unfold Py.numeric_literal.
        rewrite (digitpart_app d "" tail Hone Htail).
        destruct Htail' as (r & Er). rewrite Er in *. 
        change (Ascii.eqb "e" ".") with false. cbv iota. now rewrite Hex.
      * apply (float_value_of neg (String d "") "" ex (String d "") (String d "")).
        -- now apply lstrip_zeros_head.
        -- exact Hr.
        -- discriminate.
        -- exact Hlen.
        -- unfold ex. cbn [append String.length Nat.sub Z.of_nat]. lia.
        -- exact Hrange.
    + exists (Py.SNum neg (String d "") (String c2 r2) ex). split.
      * unfold Py.numeric_literal.
        change (String d ("." ++ String c2 r2) ++ tail)%string
          with (String d "" ++ String "." (String c2 r2 ++ tail))%string.
        rewrite (digitpart_app d "" _ Hone) by (split; reflexivity).
        change (Ascii.eqb "." ".") with true. cbv iota.
        rewrite (digitpart_app c2 r2 tail Hrest Htail). now rewrite Hex.
      * apply (float_value_of neg (String d "") (String c2 r2) ex
                 (String d (String c2 r2)) (String d (String c2 r2))).
        -- now apply lstrip_zeros_head.
        -- exact Hr.
        -- discriminate.
        -- exact Hlen.
        -- unfold ex. cbn [append]. rewrite Nat.sub_diag.
           cbn [String.length Z.of_nat]. lia.
        -- exact Hrange.
  - apply orb_false_iff in Esci. destruct Esci as [E1 E2].
    apply Z.leb_gt in E1. apply Z.ltb_ge in E2.
    destruct (decpt <=? 0)%Z eqn:E3.
    + (* below one *)
      apply Z.leb_le in E3. set (k := Z.to_nat (- decpt)).
      exists (Py.SNum neg "0" (Py.zeros k ++ String d rest) 0). split.
      * unfold Py.numeric_literal.
        change ("0." ++ Py.zeros k ++ String d rest)%string
          with (String "0" "" ++ String "." (Py.zeros k ++ String d rest))%string.
        rewrite (digitpart_app "0" "" _ eq_refl) by (split; reflexivity).
        change (Ascii.eqb "." ".") with true. cbv iota.
        rewrite digitpart_whole.
        -- reflexivity.
        -- destruct k; discriminate.
        -- now rewrite all_digits_app, zeros_digits.
      * apply (float_value_of neg "0" (Py.zeros k ++ String d rest) 0
                 (String d rest) (String d rest)); try assumption.
        -- change ("0" ++ Py.zeros k ++ String d rest)%string
             with (Py.zeros (S k) ++ String d rest)%string.
           rewrite lstrip_zeros_app. now apply lstrip_zeros_head.
        -- discriminate.
        -- change ("0" ++ Py.zeros k ++ String d rest)%string
             with (Py.zeros (S k) ++ String d rest)%string.
           rewrite string_length_app, zeros_length. unfold k.
           cbn [String.length]. lia.
    + apply Z.leb_gt in E3.
      destruct (decpt <? Z.of_nat (String.length (String d rest)))%Z eqn:E4.
      * (* the point within the digits *)
        apply Z.ltb_lt in E4. set (p := Z.to_nat decpt).
        assert (Hp : exists p', p = S p') by (exists (Nat.pred p); unfold p; lia).
        destruct Hp as (p' & Ep).
        destruct (take_drop_digits p (String d rest) Hall) as [Htake Hdrop].
        assert (Hdl : String.length (Py.drop p (String d rest)) <> 0).
        { rewrite drop_length. unfold p. lia. }
        exists (Py.SNum neg (Py.take p (String d rest)) (Py.drop p (String d rest)) 0).
        split.
        -- unfold Py.numeric_literal. fold p. rewrite Ep in *.
           cbn [Py.take] in *.
           change (String d (Py.take p' rest) ++ "." ++ Py.drop (S p') (String d rest))%string
             with (String d (Py.take p' rest)
                   ++ String "." (Py.drop (S p') (String d rest)))%string.
           rewrite (digitpart_app d (Py.take p' rest) _ Htake) by (split; reflexivity).
           change (Ascii.eqb "." ".") with true. cbv iota.
           rewrite digitpart_whole; [reflexivity| |exact Hdrop].
           intros Hn. rewrite Hn in Hdl. now apply Hdl.
        -- apply (float_value_of neg _ _ 0 (String d rest) (String d rest));
             try assumption.
           ++ rewrite take_drop. now apply lstrip_zeros_head.
           ++ discriminate.
           ++ rewrite take_drop, take_length by (unfold p; lia). unfold p. lia.
      * (* an integer *)
        apply Z.ltb_ge in E4.
        set (m := Z.to_nat decpt - String.length (String d rest)).
        exists (Py.SNum neg (String d rest ++ Py.zeros m) "0" 0). split.
        -- unfold Py.numeric_literal. fold m.
           rewrite <- string_app_assoc.
           change (String d rest ++ Py.zeros m)%string
             with (String d (rest ++ Py.zeros m))%string.
           rewrite (digitpart_app d (rest ++ Py.zeros m) ".0").
           ++ reflexivity.
           ++ change (String d (rest ++ Py.zeros m))
                with (String d rest ++ Py.zeros m)%string.
              now rewrite all_digits_app, Hall, zeros_digits.
           ++ split; reflexivity.
        -- apply (float_value_of neg _ _ 0 (String d rest ++ Py.zeros (S m))
                    (String d rest)); try assumption.
           ++ rewrite string_app_assoc, zeros_snoc. cbn [append].
              now apply lstrip_zeros_head.
           ++ now rewrite rstrip_zeros_app.
           ++ discriminate.
           ++ rewrite string_app_assoc, zeros_snoc.
              rewrite !string_length_app, !zeros_length. unfold m.
              cbn [String.length] in *. lia.
Qed.

Lemma float_char_plain (c : ascii) :
  Py.float_char c = true ->
  Str.is_space c = false /\ Ascii.eqb "%" c = false
  /\ Ascii.eqb Str.newline c = false /\ Ascii.eqb (ascii_of_nat 13) c = false.
Proof.
  destruct c as [[] [] [] [] [] [] [] []]; intros H; try discriminate H;
    repeat split.
Qed.

Lemma digit_float_char (c : ascii) : Py.is_digit c = true -> Py.float_char c = true.
Proof. intros H. unfold Py.float_char. now rewrite H. Qed.

Lemma digits_float_chars (s : string) :
  Py.all_digits s = true -> forallb Py.float_char (list_ascii_of_string s) = true.
Proof.
  unfold Py.all_digits. intros H. apply forallb_forall. intros c Hc.
  rewrite forallb_forall in H. apply digit_float_char. auto.
Qed.

Lemma float_chars_app (a b : string) :
  forallb Py.float_char (list_ascii_of_string (a ++ b))
  = forallb Py.float_char (list_ascii_of_string a)
    && forallb Py.float_char (list_ascii_of_string b).
Proof. rewrite chars_app. apply forallb_app. Qed.

Lemma repr_number_chars (neg : bool) (ds : string) (decpt : Z) :
  Py.float_wf (Py.FNum neg ds decpt) = true ->
  forallb Py.float_char (list_ascii_of_string (Py.repr_number ds decpt)) = true
  /\ exists c r, Py.repr_number ds decpt = String c r /\ Py.is_digit c = true.
Proof.
  intros Hwf. destruct (float_wf_inv _ _ _ Hwf)
    as (d & rest & -> & Hd & Hnz & Hall & Hr & Hlen & Hrange).
  pose proof (digits_float_chars _ Hall) as Hchars.
  unfold Py.repr_number.
  destruct ((decpt <=? -4)%Z || (16 <? decpt)%Z) eqn:Esci.
  - destruct (number_pad2 (Z.abs (decpt - 1)) (Z.abs_nonneg _)) as (_ & Hp & _).
    apply digits_float_chars in Hp. split.
    + rewrite !float_chars_app, Hp.
      replace (forallb Py.float_char
                 (list_ascii_of_string (if (decpt - 1 <? 0)%Z then "-" else "+")))
        with true by now destruct (decpt - 1 <? 0)%Z.
      destruct rest as [|c2 r2].
      * cbn [list_ascii_of_string forallb] in *. apply andb_prop in Hchars.
        destruct Hchars as [-> _]. reflexivity.
      * change (String d ("." ++ String c2 r2))
          with (String d "" ++ "." ++ String c2 r2)%string.
        rewrite !float_chars_app.
        cbn [list_ascii_of_string forallb] in *. apply andb_prop in Hchars.
        destruct Hchars as [-> ->]. reflexivity.
    + destruct rest; eexists; eexists; (split; [reflexivity | exact Hd]).
  - destruct (decpt <=? 0)%Z eqn:E3.
    + split; [|eexists; eexists; split; reflexivity].
      rewrite !float_chars_app, Hchars, (digits_float_chars _ (zeros_digits _)).
      reflexivity.
    + destruct (decpt <? Z.of_nat (String.length (String d rest)))%Z eqn:E4.
      * destruct (take_drop_digits (Z.to_nat decpt) (String d rest) Hall) as [Ht Hdr].
        split.
        -- rewrite !float_chars_app, (digits_float_chars _ Ht),
             (digits_float_chars _ Hdr). reflexivity.
        -- apply Z.leb_gt in E3.
           assert (Hp : exists p', Z.to_nat decpt = S p')
             by (exists (Nat.pred (Z.to_nat decpt)); lia).
           destruct Hp as (p' & ->). cbn [Py.take append].
           eexists; eexists; split; [reflexivity | exact Hd].
      * split; [|eexists; eexists; split; [reflexivity | exact Hd]].
        rewrite !float_chars_app, Hchars, (digits_float_chars _ (zeros_digits _)).
        reflexivity.
Qed.

Lemma float_chars_contains (x : ascii) (s : string) :
  (forall c, Py.float_char c = true -> Ascii.eqb x c = false) ->
  forallb Py.float_char (list_ascii_of_string s) = true -> Str.contains x s = false.
Proof.
  intros Hx. induction s as [|c s IH]; [reflexivity|].
  cbn [list_ascii_of_string forallb Str.contains]. intros H.
  apply andb_prop in H. destruct H as [Hc Hs]. now rewrite (Hx c Hc), IH.
Qed.

Lemma float_chars_no_space (s : string) :
  forallb Py.float_char (list_ascii_of_string s) = true -> no_space s = true.
Proof.
  unfold no_space. intros H. apply forallb_forall. intros c Hc.
  rewrite forallb_forall in H. destruct (float_char_plain c (H c Hc)) as [-> _].
  reflexivity.
Qed.

(** The text printed for a float of the model has no white space, no
    percent sign and no line break. *)
Lemma repr_float_chars (x : Py.float_value) :
  Py.float_wf x = true ->
  forallb Py.float_char (list_ascii_of_string (Py.repr_float x)) = true.
Proof.
  destruct x as [|neg|neg|neg ds decpt]; intros Hwf;
    [reflexivity | now destruct neg | now destruct neg |].
  cbn [Py.repr_float]. rewrite float_chars_app.
  rewrite (proj1 (repr_number_chars neg ds decpt Hwf)). now destruct neg.
Qed.

Lemma repr_float_plain (x : Py.float_value) :
  Py.float_wf x = true ->
  no_space (Py.repr_float x) = true
  /\ CP.interpolated (Py.repr_float x) = false
  /\ CP.has_linebreak (Py.repr_float x) = false.
Proof.
  intros Hwf. pose proof (repr_float_chars x Hwf) as H. split; [|split].
  - now apply float_chars_no_space.
  - apply float_chars_contains; [|exact H]. intros c Hc. apply (float_char_plain c Hc).
  - unfold CP.has_linebreak.
    rewrite (float_chars_contains Str.newline _
               (fun c Hc => proj1 (proj2 (proj2 (float_char_plain c Hc)))) H).
    rewrite (float_chars_contains (ascii_of_nat 13) _
               (fun c Hc => proj2 (proj2 (proj2 (float_char_plain c Hc)))) H).
    reflexivity.
Qed.

(** [float(repr(x))] is [x]: the text printed for a float of the model is
    read back as that float. *)
Lemma float_of_str_repr (x : Py.float_value) :
  Py.float_wf x = true ->
  Py.float_of_str (Py.repr_float x) = Ok (VFloat (Py.repr_float x)).
Proof.
  destruct x as [|neg|neg|neg ds decpt]; intros Hwf;
    [reflexivity | now destruct neg | now destruct neg |].
  destruct (numeric_printed neg ds decpt Hwf) as (syntax & Hlit & Hval).
  destruct (repr_number_chars neg ds decpt Hwf) as (_ & c & r & Ebody & Hc).
  destruct (repr_float_plain _ Hwf) as (Hsp & _).
  destruct (digit_char c Hc) as (_ & _ & Hplus & Hminus & _ & Hi & Hn & _).
  unfold Py.float_of_str, Py.float_literal.
  rewrite (num_strip_no_space _ Hsp). cbn [Py.repr_float].
  assert (Hneg : Py.is_negative ((if neg then "-" else "") ++ Py.repr_number ds decpt) = neg).
  { destruct neg; [reflexivity|]. rewrite Ebody. cbn [append Py.is_negative]. exact Hminus. }
  assert (Hbody : Py.unsigned_part ((if neg then "-" else "") ++ Py.repr_number ds decpt)
                  = Py.repr_number ds decpt).
  { destruct neg; [reflexivity|]. rewrite Ebody. cbn [append Py.unsigned_part].
    now rewrite Hplus, Hminus. }
  rewrite Hneg, Hbody, Hlit.
  replace (Str.mem (Str.lower (Py.repr_number ds decpt)) ["inf"; "infinity"]) with false.
  2:{ rewrite Ebody. unfold Str.mem, Str.lower. cbn [Str.map_chars existsb String.eqb].
      now rewrite !Hi. }
  replace (String.eqb (Str.lower (Py.repr_number ds decpt)) "nan") with false.
  2:{ rewrite Ebody. unfold Str.lower. cbn [Str.map_chars String.eqb]. now rewrite Hn. }
  now rewrite Hval.
Qed.


Lemma is_float_repr_inv (lit : string) :
  Py.is_float_repr lit = true ->
  exists x, Py.float_wf x = true /\ Py.repr_float x = lit.
Proof.
  unfold Py.is_float_repr. destruct (Py.float_literal lit) as [syntax|]; [|discriminate].
  destruct (Py.float_of_syntax syntax) as [x|]; [|discriminate].
  intros H. apply andb_prop in H. destruct H as [Hwf He].
  apply String.eqb_eq in He. eauto.
Qed.

(** ** The bounds of numeric options *)

Lemma for_each_map {A B S : Type} (body : B -> S -> result S) (g : A -> B)
  (xs : list A) (s : S) :
  for_each body (map g xs) s = for_each (fun x => body (g x)) xs s.
Proof.
  revert s. induction xs as [|x xs IH]; simpl; intros s; auto.
  destruct (body (g x) s); simpl; auto.
Qed.

Lemma for_each_sim {A S T : Type} (body1 : A -> T -> result T)
  (body2 : A -> S -> result S) (h : S -> T) (xs : list A) :
  (forall x t, In x xs -> body1 x (h t) = (t' <- body2 x t ;; Ok (h t'))) ->
  forall s, for_each body1 xs (h s) = (s' <- for_each body2 xs s ;; Ok (h s')).
Proof.
  induction xs as [|x xs IH]; simpl; intros Hstep s; auto.
  rewrite Hstep by auto. destruct (body2 x s) as [t|e]; simpl; [|reflexivity].
  apply IH. intros y t' Hy. apply Hstep. auto.
Qed.

Lemma get_rebound_items (b : option (pyval * pyval)) (items : OD.t entry) (k : string) :
  OD.get (map (rebound_entry b) items) k
  = match OD.get items k with
    | Some e => Some (snd (rebound_entry b (k, e)))
    | None => None
    end.
Proof.
  induction items as [|[k' e] items IH]; simpl; auto.
  destruct (String.eqb k k'); auto.
Qed.

Lemma get_rebound (b : option (pyval * pyval)) (d : schema) (s : string) :
  OD.get (rebound b d) s
  = match OD.get d s with
    | Some items => Some (map (rebound_entry b) items)
    | None => None
    end.
Proof.
  induction d as [|[s' items] d IH]; simpl; auto.
  destruct (String.eqb s s'); auto.
Qed.

Lemma declared_type_rebound (st : store) (b : option (pyval * pyval)) (s k : string) :
  declared_type (with_defaults st (rebound b (defaults st))) s k = declared_type st s k.
Proof.
  unfold declared_type. simpl. rewrite get_rebound.
  destruct (OD.get (defaults st) s) as [items|]; auto.
  rewrite get_rebound_items. destruct (OD.get items k) as [[info|o]|]; auto.
Qed.

Lemma get_with_defaults (st : store) (d : schema) (s k : string) :
  declared_type (with_defaults st d) s k = declared_type st s k ->
  get (with_defaults st d) s k = get st s k.
Proof.
  unfold get. intros ->. reflexivity.
Qed.

Lemma check_choice_with_defaults (s : string) (kv : string * entry) (st : store)
  (d : schema) :
  check_choice s kv (with_defaults st d)
  = (st' <- check_choice s kv st ;; Ok (with_defaults st' d)).
Proof.
  destruct kv as [k e]. unfold check_choice.
  destruct (String.eqb k "helptext"); [reflexivity|].
  destruct e as [info|opt]; [reflexivity|].
  destruct (i_choices opt) as [|ch chs]; [reflexivity|].
  change (_parse_list (with_defaults st d) s k) with (_parse_list st s k).
  change (config (with_defaults st d)) with (config st).
  destruct (datatype_eqb (i_type opt) Dlist).
  - destruct (_parse_list st s k) as [[|t ts]|]; [reflexivity| |reflexivity].
    cbn [bind]. destruct (existsb _ _); [|reflexivity].
    cbn [config warn with_config with_defaults].
    match goal with |- context [CP.set ?a ?b ?c ?d] => destruct (CP.set a b c d) end;
      reflexivity.
  - destruct (CP.get (config st) s k) as [[v|]|]; [|reflexivity|reflexivity].
    cbn [bind]. destruct (_ && _); [reflexivity|].
    destruct (negb _); [|reflexivity].
    cbn [config warn with_config with_defaults].
    match goal with |- context [CP.set ?a ?b ?c ?d] => destruct (CP.set a b c d) end;
      reflexivity.
Qed.

Lemma check_choice_rebound (b : option (pyval * pyval)) (s : string)
  (kv : string * entry) (st : store) :
  check_choice s (rebound_entry b kv) st = check_choice s kv st.
Proof.
  destruct kv as [k [info|opt]]; reflexivity.
Qed.

Lemma check_config_choices_rebound (st : store) (b : option (pyval * pyval)) :
  check_config_choices (with_defaults st (rebound b (defaults st)))
  = (st' <- check_config_choices st ;;
     Ok (with_defaults st' (rebound b (defaults st)))).
Proof.
  unfold check_config_choices.
  change (defaults (with_defaults st (rebound b (defaults st))))
    with (rebound b (defaults st)).
  unfold rebound at 1. rewrite for_each_map.
  apply (for_each_sim _ _ (fun t => with_defaults t (rebound b (defaults st)))).
  intros [s items] t _. cbn [fst snd]. rewrite for_each_map.
  apply (for_each_sim _ _ (fun t => with_defaults t (rebound b (defaults st)))).
  intros kv t' _. rewrite check_choice_rebound. apply check_choice_with_defaults.
Qed.

Lemma add_item_numeric (st : store) (section title info : string) (ty : datatype)
  (default rounding lo hi : pyval) (choices : list string) (gui_radio fixed : bool)
  (group : option string) (items : OD.t entry) :
  ty = Dint \/ ty = Dfloat ->
  default <> VNone ->
  OD.get (defaults st) section = Some items -> items <> [] ->
  exists helptext,
    add_item st (Some section) (Some title) ty default (Some info) (Some rounding)
      (Some (lo, hi)) (ChSeq choices) gui_radio fixed group
    = Ok (with_defaults st
            (OD.set (defaults st) section
               (OD.set items title
                  (Item {| i_default := default; i_helptext := helptext;
                           i_type := ty; i_rounding := Some rounding;
                           i_min_max := Some (lo, hi); i_choices := choices;
                           i_gui_radio := gui_radio; i_fixed := fixed;
                           i_group := group |})))).
Proof.
  intros Hty Hd Hs Hne. unfold add_item. rewrite Hs.
  destruct items as [|it items]; [congruence|].
  assert (He : exists h,
             expand_helptext info choices false default ty (Some (lo, hi)) fixed = Ok h).
  { unfold expand_helptext. destruct choices; simpl; eauto.
    destruct Hty as [-> | ->]; simpl; eauto. }
  destruct He as (h & He). exists h.
  destruct default; try congruence;
    destruct Hty as [-> | ->]; simpl; rewrite He; reflexivity.
Qed.

Lemma float_of_str_float (text : string) (v : pyval) :
  Py.float_of_str text = Ok v -> exists lit, v = VFloat lit.
Proof.
  unfold Py.float_of_str. destruct (Py.float_literal text) as [syntax|]; [|discriminate].
  destruct (Py.float_of_syntax syntax); [|discriminate].
  intros [= <-]. eauto.
Qed.

Lemma get_numeric (st : store) (section opt text : string) :
  stored (config st) section opt = Some (Some text) ->
  CP.interpolated text = false ->
  (declared_type st section opt = Ok Dint ->
   get st section opt = (z <- Py.int_of_str text ;; Ok (VInt z)))
  /\ (declared_type st section opt = Ok Dfloat ->
      get st section opt = Py.float_of_str text).
Proof.
  intros Hst Hplain. split; intros Hty; rewrite (get_typed _ _ _ _ _ Hty Hst Hplain).
  - destruct (Py.int_of_str text); reflexivity.
  - destruct (Py.float_of_str text) as [v|e] eqn:E; [|reflexivity].
    destruct (float_of_str_float _ _ E) as (lit & ->). reflexivity.
Qed.

(** C10. The bounds of a numeric option are metadata only.  [add_item]
    accepts and stores any default next to any bounds.  [get] returns the
    number the stored text denotes, whatever the bounds: the integer for an
    integer option, and for a float option the float, for every float of
    the model written as Python prints it; for any stored text it is the
    outcome of [int] or [float] on that text, and of nothing else.  Neither
    the typed read nor the validation of the choices depends on the bounds
    the schema declares, since both give the same with every bound of the
    schema replaced. *)
Theorem bounds_are_metadata_only :
  (forall (st : store) (section title info : string) (ty : datatype)
          (default rounding lo hi : pyval) (choices : list string)
          (gui_radio fixed : bool) (group : option string) (items : OD.t entry),
      ty = Dint \/ ty = Dfloat -> default <> VNone ->
      OD.get (defaults st) section = Some items -> items <> [] ->
      exists st',
        add_item st (Some section) (Some title) ty default (Some info) (Some rounding)
          (Some (lo, hi)) (ChSeq choices) gui_radio fixed group = Ok st'
        /\ i_default (option_of st' section title) = default
        /\ i_min_max (option_of st' section title) = Some (lo, hi))
  /\ (forall (st : store) (section opt : string) (z : Z),
         declared_type st section opt = Ok Dint ->
         stored (config st) section opt = Some (Some (Py.str_of_int z)) ->
         get st section opt = Ok (VInt z))
  /\ (forall (st : store) (section opt : string) (x : Py.float_value),
         Py.float_wf x = true ->
         declared_type st section opt = Ok Dfloat ->
         stored (config st) section opt = Some (Some (Py.repr_float x)) ->
         get st section opt = Ok (VFloat (Py.repr_float x)))
  /\ (forall (st : store) (section opt text : string),
         stored (config st) section opt = Some (Some text) ->
         CP.interpolated text = false ->
         (declared_type st section opt = Ok Dint ->
          get st section opt = (z <- Py.int_of_str text ;; Ok (VInt z)))
         /\ (declared_type st section opt = Ok Dfloat ->
             get st section opt = Py.float_of_str text))
  /\ (forall (st : store) (bounds : option (pyval * pyval)) (section opt : string),
         get (with_defaults st (rebound bounds (defaults st))) section opt
         = get st section opt)
  /\ (forall (st : store) (bounds : option (pyval * pyval)),
         check_config_choices (with_defaults st (rebound bounds (defaults st)))
         = (st' <- check_config_choices st ;;
            Ok (with_defaults st' (rebound bounds (defaults st))))).
Proof.
  split; [|split; [|split; [|split; [|split]]]].
  - intros st section title info ty default rounding lo hi choices gui_radio fixed
      group items Hty Hd Hs Hne.
    destruct (add_item_numeric st section title info ty default rounding lo hi choices
                gui_radio fixed group items Hty Hd Hs Hne) as (h & ->).
    eexists. split; [reflexivity|].
    unfold option_of, items_of. simpl.
    rewrite od_get_set_same, od_get_set_same. split; reflexivity.
  - intros st section opt z Hty Hst.
    rewrite (get_typed _ _ _ _ _ Hty Hst (int_text_plain z)).
    now rewrite int_of_str_of_int.
  - intros st section opt x Hwf Hty Hst.
    destruct (repr_float_plain x Hwf) as (_ & Hplain & _).
    rewrite (get_typed _ _ _ _ _ Hty Hst Hplain).
    now rewrite (float_of_str_repr x Hwf).
  - exact get_numeric.
  - intros st bounds section opt.
    apply get_with_defaults, declared_type_rebound.
  - intros st bounds. apply check_config_choices_rebound.
Qed.

(** ** The drift check *)

Lemma proxy_keys_stored (c : CP.t) (s : string) :
  In s (CP.sections c) -> CP.proxy_keys c s = Ok (stored_keys c s).
Proof.
  unfold CP.proxy_keys, CP.proxy, stored_keys, CP.sections. intros Hin.
  destruct (OD.get c s) as [d|] eqn:E; [reflexivity|].
  apply od_get_none in E. contradiction.
Qed.

Lemma subset_In (a b : list string) :
  subset a b = true -> forall x, In x a -> In x b.
Proof.
  unfold subset. rewrite forallb_forall. intros H x Hx. apply mem_In. auto.
Qed.

Lemma keys_changed_false (c : CP.t) (d : schema) :
  (forall s items, In (s, items) d -> In s (CP.sections c)) ->
  forallb (fun sect : string * OD.t entry =>
             set_eqb (option_keys c (fst sect)) (declared_keys (snd sect))) d = true ->
  keys_changed c d = Ok false.
Proof.
  induction d as [|[s items] d IH]; simpl; intros Hin Hall; [reflexivity|].
  apply andb_prop in Hall. destruct Hall as [Hs Hall].
  rewrite (proxy_keys_stored c s) by (eapply Hin; left; reflexivity).
  simpl. unfold option_keys, declared_keys in Hs. rewrite Hs. simpl.
  apply IH; auto. intros s' items' H. eapply Hin. right. exact H.
Qed.

Lemma check_config_change_false (st : store) :
  matches_schema (config st) (defaults st) = true ->
  check_config_change st = Ok false.
Proof.
  unfold matches_schema, check_config_change. intros H.
  apply andb_prop in H. destruct H as [Hs Hk]. rewrite Hs. simpl.
  apply keys_changed_false; auto.
  intros s items Hin. unfold set_eqb in Hs. apply andb_prop in Hs.
  eapply subset_In; [apply Hs|]. now apply (in_map fst) in Hin.
Qed.

Lemma check_config_choices_untouched (st st' : store) :
  check_config_choices st = Ok st' -> untouched st st'.
Proof.
  unfold check_config_choices.
  apply (for_each_preserves _ untouched untouched_refl untouched_trans).
  intros [s items] t t' _. apply items_loop_untouched.
Qed.

Section Reconcile.

Variable textwrap_fill : string -> string -> string.

(** C6. When the sections the parser loaded are those of the schema and, in
    every section, its option names other than help-text comments are the
    option titles of the schema, the drift check reports no change, and the
    validation is that of the choices alone: when it completes the file is
    what it was and [save_config] was not called. *)
Theorem matching_file_is_not_rewritten (st : store) :
  matches_schema (config st) (defaults st) = true ->
  check_config_change st = Ok false
  /\ validate_config textwrap_fill st = check_config_choices st
  /\ forall st', validate_config textwrap_fill st = Ok st' ->
                 file st' = file st /\ saves st' = saves st.
Proof.
  intros H. pose proof (check_config_change_false st H) as Hc.
  assert (Hv : validate_config textwrap_fill st = check_config_choices st).
  { unfold validate_config. rewrite Hc. reflexivity. }
  repeat split; auto.
  - rewrite Hv in H0. apply check_config_choices_untouched in H0. apply H0.
  - rewrite Hv in H0. apply check_config_choices_untouched in H0. apply H0.
Qed.

End Reconcile.

Lemma matching_file_example :
  check_config_change abc_loaded = Ok false
  /\ file (built (validate_config fill_short abc_loaded)) = file abc_loaded
  /\ saves (built (validate_config fill_short abc_loaded)) = 0.
Proof.
  destruct (matching_file_is_not_rewritten fill_short abc_loaded
              ltac:(vm_compute; reflexivity))
    as (Hc & Hv & Hf).
  split; [exact Hc|].
  exact (Hf (built (validate_config fill_short abc_loaded))
            ltac:(vm_compute; reflexivity)).
Defined.

(** ** The aggregate read *)

Lemma for_each_invariant {A S : Type} (body : A -> S -> result S) (I : S -> Prop)
  (xs : list A) :
  (forall x s s', In x xs -> I s -> body x s = Ok s' -> I s') ->
  forall s s', I s -> for_each body xs s = Ok s' -> I s'.
Proof.
  induction xs as [|x xs IH]; simpl; intros Hstep s s' Hs H.
  - now injection H as <-.
  - bind_inv H. eapply IH; [| |exact H].
    + intros y t t' Hy. apply Hstep. now right.
    + eapply Hstep; eauto.
Qed.

(** The step of an element of the list is run, on a state reached from the
    first one, and the loop ends in a state reached from the one it left. *)
Lemma for_each_In {A S : Type} (body : A -> S -> result S) (R : S -> S -> Prop)
  (xs : list A) :
  (forall s, R s s) ->
  (forall s1 s2 s3, R s1 s2 -> R s2 s3 -> R s1 s3) ->
  (forall x s s', In x xs -> body x s = Ok s' -> R s s') ->
  forall x s s', In x xs -> for_each body xs s = Ok s' ->
    exists s1 s2, body x s1 = Ok s2 /\ R s s1 /\ R s2 s'.
Proof.
  intros Hrefl Htrans. induction xs as [|y xs IH]; simpl; intros Hstep x s s' Hin H;
    [contradiction|].
  bind_inv H. destruct Hin as [Heq | Hin].
  - subst y. exists s, a. split; [exact Ha|]. split; [apply Hrefl|].
    eapply (for_each_preserves body R Hrefl Htrans); [|exact H].
    intros z t t' Hz. apply Hstep. now right.
  - destruct (IH (fun z t t' Hz => Hstep z t t' (or_intror Hz)) x a s' Hin H)
      as (s1 & s2 & Hb & H1 & H2).
    exists s1, s2. split; [exact Hb|]. split; [|exact H2].
    eapply Htrans; [|exact H1].
    eapply Hstep; [left; reflexivity | exact Ha].
Qed.

Lemma od_set_keeps {V : Type} (d : OD.t V) (k k' : string) (v : V) :
  OD.get d k' <> None -> OD.get (OD.set d k v) k' <> None.
Proof.
  destruct (string_dec k k') as [<-|Hne].
  - rewrite od_get_set_same. discriminate.
  - now rewrite od_get_set_other.
Qed.

Lemma stored_keys_In (c : CP.t) (s k : string) :
  In k (stored_keys c s) <-> stored c s k <> None.
Proof.
  unfold stored_keys, stored. destruct (OD.get c s) as [d|].
  - split.
    + intros Hin Hn. apply od_get_none in Hn. contradiction.
    + intros Hne. destruct (OD.get d k) eqn:E; [|congruence].
      eapply od_get_keys; eauto.
  - simpl. split; [contradiction | congruence].
Qed.

Lemma proxy_keys_inv (c : CP.t) (s : string) (keys : list string) :
  CP.proxy_keys c s = Ok keys -> keys = stored_keys c s /\ OD.get c s <> None.
Proof.
  unfold CP.proxy_keys, CP.proxy, stored_keys.
  destruct (OD.get c s) as [d|].
  - simpl. intros [= <-]. split; [reflexivity | discriminate].
  - destruct (String.eqb s CP.default_section); discriminate.
Qed.

(** Every binding of the dictionary [config_dict] builds is the typed value
    of a key that is no comment, in a collated section that holds it. *)
Lemma config_dict_bindings (st : store) (conf : OD.t pyval) :
  config_dict st = Ok conf ->
  forall k v, OD.get conf k = Some v ->
    is_comment_key k = false
    /\ exists s, (Str.startswith s "global" = true \/ s = section st)
                 /\ stored (config st) s k <> None /\ get st s k = Ok v.
Proof.
  unfold config_dict. intros H.
  set (I := fun conf : OD.t pyval =>
              forall k v, OD.get conf k = Some v ->
                is_comment_key k = false
                /\ exists s, (Str.startswith s "global" = true \/ s = section st)
                             /\ stored (config st) s k <> None /\ get st s k = Ok v).
  refine (for_each_invariant _ I _ _ [] conf _ H); [|intros k v; discriminate].
  clear H conf. intros sect conf0 conf1 Hsect HI.
  assert (Hcoll : Str.startswith sect "global" = true \/ sect = section st).
  { apply in_app_or in Hsect. destruct Hsect as [H|[<-|[]]]; [|now right].
    apply filter_In in H. left. apply H. }
  destruct (negb (Str.mem sect (CP.sections (config st)))); [now intros [= <-]|].
  intros H. bind_inv H. apply proxy_keys_inv in Ha. destruct Ha as [-> _].
  refine (for_each_invariant _ I _ _ conf0 conf1 HI H).
  clear H HI conf0 conf1. intros key c0 c1 Hkey HI0.
  destruct (is_comment_key key) eqn:Ec; [now intros [= <-]|].
  intros H. bind_inv H. injection H as <-.
  intros k v. destruct (string_dec key k) as [<-|Hne].
  - rewrite od_get_set_same. intros [= <-]. split; [exact Ec|].
    exists sect. split; [exact Hcoll|]. split; [|exact Ha].
    now apply stored_keys_In.
  - rewrite od_get_set_other by exact Hne. apply HI0.
Qed.

(** A key that is no comment, held by a collated section of the parser, is
    bound in the dictionary [config_dict] builds. *)
Lemma config_dict_binds (st : store) (conf : OD.t pyval) (s k : string) :
  config_dict st = Ok conf ->
  In s (CP.sections (config st)) ->
  Str.startswith s "global" = true \/ s = section st ->
  stored (config st) s k <> None -> is_comment_key k = false ->
  OD.get conf k <> None.
Proof.
  unfold config_dict. intros H Hs Hcoll Hk Hc.
  set (keeps := fun c c' : OD.t pyval => OD.get c k <> None -> OD.get c' k <> None).
  assert (Hrefl : forall c, keeps c c) by (unfold keeps; auto).
  assert (Htrans : forall c1 c2 c3, keeps c1 c2 -> keeps c2 c3 -> keeps c1 c3)
    by (unfold keeps; auto).
  assert (Hkey : forall sect key c c',
             (if is_comment_key key then Ok c
              else v <- get st sect key ;; Ok (OD.set c key v)) = Ok c' -> keeps c c').
  { intros sect key c c'. destruct (is_comment_key key); [now intros [= <-]|].
    intros H0. bind_inv H0. injection H0 as <-. unfold keeps. apply od_set_keeps. }
  assert (Hin : In s (filter (fun sect => Str.startswith sect "global")
                        (CP.sections (config st)) ++ [section st])).
  { apply in_or_app. destruct Hcoll as [Hg | ->]; [left | right; now left].
    apply filter_In. auto. }
  match type of H with
  | for_each ?b ?xs _ = _ =>
      destruct (for_each_In b keeps xs Hrefl Htrans) with (x := s) (s := @nil (string * pyval)) (s' := conf)
        as (c1 & c2 & Hbody & _ & H2); [ | exact Hin | exact H | ]
  end.
  { intros sect c c' _.
    destruct (negb (Str.mem sect (CP.sections (config st)))); [now intros [= <-]|].
    intros H0. bind_inv H0. revert H0.
    apply (for_each_preserves _ keeps Hrefl Htrans). intros key t t' _. apply Hkey. }
  apply H2. clear H2 H.
  assert (Hm : Str.mem s (CP.sections (config st)) = true) by now apply mem_In.
  cbv beta in Hbody. rewrite Hm in Hbody. cbn [negb] in Hbody. bind_inv Hbody.
  apply proxy_keys_inv in Ha. destruct Ha as [-> _].
  match type of Hbody with
  | for_each ?b ?xs ?c0 = _ =>
      destruct (for_each_In b keeps xs Hrefl Htrans) with (x := k) (s := c0) (s' := c2)
        as (t1 & t2 & Hstep & _ & H2); [ | | exact Hbody | ]
  end.
  { intros key t t' _. apply Hkey. }
  { now apply stored_keys_In. }
  apply H2. cbv beta in Hstep. rewrite Hc in Hstep. bind_inv Hstep. injection Hstep as <-.
  rewrite od_get_set_same. discriminate.
Qed.

(** C9. An option the parser holds under a section whose name starts with
    the global prefix, and that no other collated section (another global
    section, or the requested one) holds, is mapped by [config_dict] to its
    typed value, whatever the requested section is; and no key that starts
    as a comment does is mapped. *)
Theorem global_options_are_merged (st : store) (conf : OD.t pyval) (g k : string) :
  config_dict st = Ok conf ->
  In g (CP.sections (config st)) -> Str.startswith g "global" = true ->
  stored (config st) g k <> None -> is_comment_key k = false ->
  (forall s, Str.startswith s "global" = true \/ s = section st -> s <> g ->
             stored (config st) s k = None) ->
  (exists v, get st g k = Ok v /\ OD.get conf k = Some v)
  /\ (forall k', is_comment_key k' = true -> OD.get conf k' = None).
Proof.
  intros H Hg Hglobal Hk Hc Honly. split.
  - pose proof (config_dict_binds st conf g k H Hg (or_introl Hglobal) Hk Hc) as Hb.
    destruct (OD.get conf k) as [v|] eqn:E; [|congruence].
    exists v. split; [|reflexivity].
    destruct (config_dict_bindings st conf H k v E) as (_ & s & Hs & Hst & Hget).
    destruct (string_dec s g) as [->|Hne]; [exact Hget|].
    exfalso. apply Hst. now apply Honly.
  - intros k' Hk'. destruct (OD.get conf k') as [v|] eqn:E; [|reflexivity].
    destruct (config_dict_bindings st conf H k' v E) as (Hf & _). congruence.
Qed.

(** ** Writing the schema into a parser *)

Lemma prefix_app (p s : string) : prefix p (p ++ s) = true.
Proof.
  induction p as [|c p IH]; simpl.
  - now destruct s.
  - destruct (ascii_dec c c); [exact IH | congruence].
Qed.

Lemma set_stored (c c' : CP.t) (s k : string) (v : option string) (s' k' : string) :
  CP.set c s k v = Ok c' ->
  stored c' s' k' = if String.eqb s' s && String.eqb k' k then Some v else stored c s' k'.
Proof.
  intros H. destruct (String.eqb s' s && String.eqb k' k) eqn:E.
  - apply andb_prop in E. destruct E as [E1 E2].
    apply String.eqb_eq in E1, E2. subst. eapply stored_set_same; eauto.
  - eapply stored_set_other; eauto.
    apply andb_false_iff in E. destruct E as [E|E]; apply String.eqb_neq in E; auto.
Qed.

Lemma add_section_inv (c c' : CP.t) (s : string) :
  CP.add_section c s = Ok c' ->
  OD.get c s = None /\ c' = OD.set c s [] /\ CP.sections c' = CP.sections c ++ [s].
Proof.
  unfold CP.add_section, CP.has_section, CP.sections.
  destruct (String.eqb s CP.default_section); [discriminate|].
  destruct (OD.mem c s) eqn:E; [discriminate|].
  intros [= <-]. rewrite od_keys_set, E. unfold OD.mem in E.
  destruct (OD.get c s); [discriminate | auto].
Qed.

Lemma add_section_stored (c c' : CP.t) (s s' k : string) :
  CP.add_section c s = Ok c' ->
  stored c' s' k = if String.eqb s' s then None else stored c s' k.
Proof.
  intros H. apply add_section_inv in H. destruct H as (Hn & -> & _).
  unfold stored. destruct (String.eqb s' s) eqn:E.
  - apply String.eqb_eq in E. subst. now rewrite od_get_set_same.
  - apply String.eqb_neq in E. now rewrite od_get_set_other by congruence.
Qed.

Section Writing.

Variable textwrap_fill : string -> string -> string.

Lemma format_help_is_help_key (helptext : string) (is_section : bool) :
  is_help_key (format_help textwrap_fill helptext is_section) = true.
Proof.
  unfold format_help, is_help_key, Str.startswith.
  match goal with |- context [Str.replace ?a ?b ?c] => generalize (Str.replace a b c) end.
  intros body. destruct is_section.
  - apply orb_true_iff. left.
    change (Str.upper ("# " ++ body)) with ("# " ++ Str.upper body)%string.
    apply prefix_app.
  - apply orb_true_iff. right.
    change (nl ++ "# " ++ body)%string with ((nl ++ "# ") ++ body)%string.
    apply prefix_app.
Qed.

Lemma insert_config_section_inv (s helptext : string) (c c' : CP.t) :
  insert_config_section textwrap_fill s helptext c = Ok c' ->
  OD.get c s = None
  /\ CP.sections c' = CP.sections c ++ [s]
  /\ forall s' k,
       stored c' s' k
       = if String.eqb s' s
         then if String.eqb k (format_help textwrap_fill helptext true)
              then Some None else None
         else stored c s' k.
Proof.
  unfold insert_config_section. intros H. bind_inv H.
  pose proof (add_section_inv _ _ _ Ha) as (Hn & _ & Hs).
  split; [exact Hn|]. split.
  - rewrite (sections_set _ _ _ _ _ H). exact Hs.
  - intros s' k. rewrite (set_stored _ _ _ _ _ s' k H).
    rewrite (add_section_stored _ _ _ s' k Ha).
    destruct (String.eqb s' s); simpl; reflexivity.
Qed.

Lemma insert_config_item_inv (s k : string) (v : pyval) (opt : opt_dict) (c c' : CP.t) :
  insert_config_item textwrap_fill s k v opt c = Ok c' ->
  CP.sections c' = CP.sections c
  /\ forall s' k',
       stored c' s' k'
       = if String.eqb s' s && String.eqb k' k then Some (Some (Py.str v))
         else if String.eqb s' s
                 && String.eqb k' (format_help textwrap_fill (i_helptext opt) false)
              then Some None
              else stored c s' k'.
Proof.
  unfold insert_config_item. intros H. bind_inv H. split.
  - rewrite (sections_set _ _ _ _ _ H). apply (sections_set _ _ _ _ _ Ha).
  - intros s' k'. rewrite (set_stored _ _ _ _ _ s' k' H).
    now rewrite (set_stored _ _ _ _ _ s' k' Ha).
Qed.

End Writing.

Section Inserting.

Variable textwrap_fill : string -> string -> string.

Lemma help_key_neq (k helptext : string) (is_section : bool) :
  is_help_key k = false ->
  String.eqb k (format_help textwrap_fill helptext is_section) = false.
Proof.
  intros Hk. apply String.eqb_neq. intros ->.
  now rewrite format_help_is_help_key in Hk.
Qed.

(** What [insert_items] leaves in the parser: the sections are the same, the
    other sections hold the same, and in the section written an option of
    the schema holds the string of its value, any other name that is no
    help-text comment what it held. *)
Lemma insert_items_stored (value : string -> opt_dict -> result pyval) (s : string)
  (items : OD.t entry) :
  NoDup (OD.keys items) ->
  forall c c',
    insert_items textwrap_fill value s items c = Ok c' ->
    CP.sections c' = CP.sections c
    /\ (forall s' k, s' <> s -> stored c' s' k = stored c s' k)
    /\ (forall k, is_help_key k = false ->
          (k = "helptext" \/ OD.get items k = None -> stored c' s k = stored c s k)
          /\ (forall opt, k <> "helptext" -> OD.get items k = Some (Item opt) ->
                exists v, value k opt = Ok v
                          /\ stored c' s k = Some (Some (Py.str v)))).
Proof.
  unfold insert_items.
  induction items as [|[k0 e0] items IH]; intros Hnd c c' H.
  - simpl in H. injection H as <-. repeat split; auto.
    intros opt _ Hget. discriminate Hget.
  - inversion Hnd as [|? ? Hnotin Hnd']; subst.
    cbn [for_each] in H. bind_inv H.
    destruct (IH Hnd' a c' H) as (Hsec & Hother & Hkeys). clear IH H.
    assert (Hstep : CP.sections a = CP.sections c
                    /\ (forall s' k, s' <> s -> stored a s' k = stored c s' k)
                    /\ (forall k, is_help_key k = false -> k <> k0 ->
                          stored a s k = stored c s k)
                    /\ (k0 <> "helptext" ->
                        exists opt v, e0 = Item opt /\ value k0 opt = Ok v
                                      /\ stored a s k0 = Some (Some (Py.str v)))).
    { destruct (String.eqb k0 "helptext") eqn:E0.
      - injection Ha as <-. apply String.eqb_eq in E0. repeat split; auto.
        congruence.
      - destruct e0 as [info|opt0]; [discriminate|]. bind_inv Ha.
        apply insert_config_item_inv in Ha. destruct Ha as (Hs1 & Hst).
        split; [exact Hs1|]. split; [|split].
        + intros s' k Hne. rewrite Hst.
          apply String.eqb_neq in Hne. now rewrite Hne.
        + intros k Hk Hne. rewrite Hst.
          apply String.eqb_neq in Hne. rewrite Hne, andb_false_r.
          now rewrite (help_key_neq k _ _ Hk), andb_false_r.
        + intros _. exists opt0, a0. repeat split; auto.
          rewrite Hst. now rewrite !String.eqb_refl. }
    destruct Hstep as (Hs1 & Ho1 & Hk1 & Hk0).
    split; [congruence|]. split.
    + intros s' k Hne. rewrite Hother by exact Hne. now apply Ho1.
    + intros k Hk. destruct (Hkeys k Hk) as (Hrest & Hitem).
      assert (Hr : In k0 (OD.keys items) -> False) by exact Hnotin.
      cbn [OD.get]. destruct (String.eqb k k0) eqn:E.
      * apply String.eqb_eq in E. subst k0.
        assert (Hnone : OD.get items k = None) by now apply od_get_none.
        split.
        -- intros [Hh | Hn]; [|discriminate Hn].
           rewrite (Hrest (or_intror Hnone)).
           destruct (String.eqb k "helptext") eqn:E0.
           ++ now injection Ha as <-.
           ++ apply String.eqb_neq in E0. contradiction.
        -- intros opt Hne [= ->].
           destruct (Hk0 Hne) as (opt' & v & [= <-] & Hv & Hst).
           exists v. split; [exact Hv|].
           now rewrite (Hrest (or_intror Hnone)).
      * apply String.eqb_neq in E. split.
        -- intros Hcase. rewrite (Hrest Hcase). now apply Hk1.
        -- exact Hitem.
Qed.

End Inserting.

Section InsertingSections.

Variable textwrap_fill : string -> string -> string.

(** What [insert_sections] leaves in the parser: the sections of the schema
    are added after those it had; the sections that are not of the schema
    hold the same; a section of the schema holds, beside help-text comments,
    its declared options and nothing else, each with the string of its
    value. *)
Lemma insert_sections_stored (value : string -> string -> opt_dict -> result pyval)
  (d : schema) :
  NoDup (OD.keys d) ->
  forallb (fun sect : string * OD.t entry => distinct (OD.keys (snd sect))) d = true ->
  forall c c',
    insert_sections textwrap_fill value d c = Ok c' ->
    CP.sections c' = CP.sections c ++ OD.keys d
    /\ (forall s, OD.get d s = None -> forall k, stored c' s k = stored c s k)
    /\ (forall s items, OD.get d s = Some items ->
          forall k, is_help_key k = false ->
            (k = "helptext" \/ OD.get items k = None -> stored c' s k = None)
            /\ (forall opt, k <> "helptext" -> OD.get items k = Some (Item opt) ->
                  exists v, value s k opt = Ok v
                            /\ stored c' s k = Some (Some (Py.str v)))).
Proof.
  unfold insert_sections.
  induction d as [|[s0 items0] d IH]; intros Hnd Hall c c' H.
  - simpl in H. injection H as <-. rewrite List.app_nil_r.
    split; [reflexivity|]. split; [reflexivity|].
    intros s items Hget. discriminate Hget.
  - inversion Hnd as [|? ? Hnotin Hnd']; subst.
    cbn [forallb snd] in Hall. apply andb_prop in Hall. destruct Hall as [Hd0 Hall].
    apply distinct_NoDup in Hd0.
    cbn [for_each] in H. bind_inv H. rename a into c2.
    destruct (IH Hnd' Hall c2 c' H) as (Hsec & Hnone & Hsome). clear IH H.
    bind_inv Ha. rename a into helptext. bind_inv Ha. rename a into c1.
    apply insert_config_section_inv in Ha1. destruct Ha1 as (Hfresh & Hs1 & Hst1).
    destruct (insert_items_stored textwrap_fill (value s0) s0 items0 Hd0 c1 c2 Ha)
      as (Hs2 & Ho2 & Hk2).
    assert (Hr : OD.get d s0 = None) by now apply od_get_none.
    split; [|split].
    + rewrite Hsec, Hs2, Hs1. cbn [OD.keys map fst]. now rewrite <- List.app_assoc.
    + intros s Hget k. cbn [OD.get] in Hget.
      destruct (String.eqb s s0) eqn:E; [discriminate|].
      rewrite (Hnone s Hget k). apply String.eqb_neq in E.
      rewrite (Ho2 s k E). rewrite Hst1.
      apply String.eqb_neq in E. now rewrite E.
    + intros s items Hget k Hk. cbn [OD.get] in Hget.
      destruct (String.eqb s s0) eqn:E.
      * apply String.eqb_eq in E. subst s0. injection Hget as <-.
        rewrite (Hnone s Hr k).
        destruct (Hk2 k Hk) as (Hrest & Hitem).
        assert (H1 : stored c1 s k = None).
        { rewrite Hst1, String.eqb_refl. now rewrite (help_key_neq _ k _ _ Hk). }
        split.
        -- intros Hcase. now rewrite (Hrest Hcase).
        -- exact Hitem.
      * exact (Hsome s items Hget k Hk).
Qed.

End InsertingSections.

(** ** Well-formed parsers *)

Lemma od_set_Forall {V : Type} (P : string * V -> Prop) (d : OD.t V) (k : string) (v : V) :
  Forall P d -> P (k, v) -> Forall P (OD.set d k v).
Proof.
  intros Hd Hk. induction d as [|[k' v'] d IH]; simpl.
  - constructor; auto.
  - inversion Hd; subst. destruct (String.eqb k k'); constructor; auto.
Qed.

Lemma od_get_Forall {V : Type} (P : string * V -> Prop) (d : OD.t V) (k : string) (v : V) :
  Forall P d -> OD.get d k = Some v -> P (k, v).
Proof.
  intros Hd Hk. apply od_get_In in Hk. rewrite Forall_forall in Hd. auto.
Qed.

Lemma parser_wf_nil : parser_wf [].
Proof. split; constructor. Qed.

Lemma parser_wf_set (c c' : CP.t) (s k : string) (v : option string) :
  CP.set c s k v = Ok c' -> parser_wf c -> parser_wf c'.
Proof.
  intros H [Hnd Hall]. apply set_inv in H. destruct H as (d & Hd & ->). split.
  - now apply od_keys_set_NoDup.
  - apply od_set_Forall; auto. simpl. apply od_keys_set_NoDup.
    exact (od_get_Forall _ _ _ _ Hall Hd).
Qed.

Lemma parser_wf_add_section (c c' : CP.t) (s : string) :
  CP.add_section c s = Ok c' -> parser_wf c -> parser_wf c'.
Proof.
  intros H [Hnd Hall]. apply add_section_inv in H. destruct H as (_ & -> & _). split.
  - now apply od_keys_set_NoDup.
  - apply od_set_Forall; auto. constructor.
Qed.

Lemma parser_wf_stored (c : CP.t) (s k : string) (v : option string) (d : CP.options) :
  parser_wf c -> In (s, d) c -> In (k, v) d -> stored c s k = Some v.
Proof.
  intros [Hnd Hall] Hs Hk. unfold stored.
  rewrite (od_In_get c s d Hnd Hs). apply od_In_get; auto.
  rewrite Forall_forall in Hall. exact (Hall _ Hs).
Qed.

Section WfInsert.

Variable textwrap_fill : string -> string -> string.

Lemma parser_wf_insert_sections (value : string -> string -> opt_dict -> result pyval)
  (d : schema) (c c' : CP.t) :
  insert_sections textwrap_fill value d c = Ok c' -> parser_wf c -> parser_wf c'.
Proof.
  unfold insert_sections. intros H Hwf. revert H.
  apply for_each_invariant; [|exact Hwf].
  intros [s items] c0 c1 _ Hwf0 H. bind_inv H. bind_inv H.
  assert (Hwf1 : parser_wf a0).
  { unfold insert_config_section in Ha0. bind_inv Ha0.
    eapply parser_wf_set; [exact Ha0|]. eapply parser_wf_add_section; eauto. }
  revert H. unfold insert_items. apply for_each_invariant; [|exact Hwf1].
  intros [k e] c2 c3 _ Hwf2.
  destruct (String.eqb k "helptext"); [now intros [= <-]|].
  destruct e as [info|opt]; [discriminate|].
  intros H. bind_inv H. unfold insert_config_item in H. bind_inv H.
  eapply parser_wf_set; [exact H|]. eapply parser_wf_set; eauto.
Qed.

End WfInsert.

(** ** The text of the file *)

Lemma replace_absent (c : ascii) (by_ s : string) :
  Str.contains c s = false -> Str.replace c by_ s = s.
Proof.
  induction s as [|c' r IH]; simpl; auto.
  intros H. apply orb_false_iff in H. destruct H as [-> H]. now rewrite IH.
Qed.

Lemma split_absent (sep : ascii) (s : string) :
  Str.contains sep s = false -> Str.split sep s = [s].
Proof.
  induction s as [|c r IH]; simpl; auto.
  intros H. apply orb_false_iff in H. destruct H as [Hc H].
  rewrite Ascii.eqb_sym, Hc, IH by exact H. reflexivity.
Qed.

Lemma plain_key_inv (k : string) :
  CP.plain_key k = true ->
  Str.truthy k = true /\ Str.strip k = k /\ CP.has_linebreak k = false
  /\ Str.startswith k "#" = false /\ Str.startswith k ";" = false.
Proof.
  unfold CP.plain_key. intros H.
  apply andb_prop in H. destruct H as [H _].
  apply andb_prop in H. destruct H as [H Hsemi].
  apply andb_prop in H. destruct H as [H Hhash].
  apply andb_prop in H. destruct H as [H _].
  apply andb_prop in H. destruct H as [H _].
  apply andb_prop in H. destruct H as [H Hlb].
  apply andb_prop in H. destruct H as [Ht Hstrip].
  apply negb_true_iff in Hsemi, Hhash, Hlb. apply String.eqb_eq in Hstrip. auto.
Qed.

Lemma plain_not_comment (k : string) :
  CP.plain_key k = true -> CP.comment_block k = false.
Proof.
  intros H. apply plain_key_inv in H. destruct H as (Ht & Hs & Hl & Hh & Hc).
  unfold CP.has_linebreak in Hl. apply orb_false_iff in Hl. destruct Hl as [Hn Hr].
  unfold CP.comment_block. rewrite (replace_absent _ _ _ Hr), (split_absent _ _ Hn).
  simpl. unfold CP.is_comment_line. now rewrite Hs, Ht, Hh, Hc.
Qed.

Lemma prefix_head (c : ascii) (p s : string) :
  prefix (String c p) s = true -> exists r, s = String c r /\ prefix p r = true.
Proof.
  destruct s as [|c' r]; simpl; [discriminate|].
  destruct (ascii_dec c c') as [<-|]; [eauto | discriminate].
Qed.

Lemma rstrip_length (s : string) : String.length (Str.rstrip s) <= String.length s.
Proof.
  induction s as [|c s IH]; simpl; auto.
  destruct (Str.rstrip s); [destruct (Str.is_space c)|]; simpl in *; lia.
Qed.

Lemma lstrip_length (s : string) : String.length (Str.lstrip s) <= String.length s.
Proof.
  induction s as [|c s IH]; simpl; auto.
  destruct (Str.is_space c); simpl; lia.
Qed.

(** A text that [strip] leaves as it is does not start with white space. *)
Lemma strip_fixed_head (c : ascii) (r : string) :
  Str.strip (String c r) = String c r -> Str.is_space c = false.
Proof.
  unfold Str.strip. cbn [Str.lstrip]. destruct (Str.is_space c); [|reflexivity].
  intros H. pose proof (rstrip_length (Str.lstrip r)) as H1.
  pose proof (lstrip_length r) as H2. rewrite H in H1. simpl in H1. lia.
Qed.

Lemma plain_not_help (k : string) : CP.plain_key k = true -> is_help_key k = false.
Proof.
  intros H. apply plain_key_inv in H. destruct H as (Ht & Hs & Hl & Hh & Hc).
  unfold is_help_key, Str.startswith in *. apply orb_false_iff. split.
  - destruct (prefix "# " k) eqn:E; [|reflexivity].
    apply prefix_head in E. destruct E as (r & -> & _).
    simpl in Hh. destruct (ascii_dec "#" "#"); [|congruence].
    destruct r; discriminate Hh.
  - destruct (prefix (nl ++ "# ") k) eqn:E; [|reflexivity].
    change (nl ++ "# ")%string with (String Str.newline "# ") in E.
    apply prefix_head in E. destruct E as (r & -> & _).
    apply strip_fixed_head in Hs. discriminate Hs.
Qed.

(** What [written_options] does with the first option. *)
Lemma written_options_cons (k : string) (v : option string) (d d' : CP.options) :
  CP.written_options ((k, v) :: d) = Ok d' ->
  (CP.comment_block k = true /\ CP.written_options d = Ok d')
  \/ (CP.comment_block k = false /\ CP.plain_key k = true
      /\ exists v' r', CP.written_value v = Ok v' /\ CP.written_options d = Ok r'
                       /\ d' = (k, v') :: r').
Proof.
  cbn [CP.written_options]. destruct (CP.comment_block k).
  - intros H. left. split; [reflexivity|]. destruct v as [x|]; [|exact H].
    destruct (CP.ends_marked k && negb (CP.has_linebreak x)); [exact H | discriminate H].
  - destruct (CP.plain_key k); [|discriminate]. intros H. right.
    bind_inv H. bind_inv H. injection H as <-. eauto 8.
Qed.

Lemma written_options_get (d d' : CP.options) (k : string) :
  CP.written_options d = Ok d' -> CP.plain_key k = true ->
  match OD.get d k with
  | None => OD.get d' k = None
  | Some v => exists v', CP.written_value v = Ok v' /\ OD.get d' k = Some v'
  end.
Proof.
  intros H Hk. pose proof (plain_not_comment k Hk) as Hc.
  revert d' H. induction d as [|[k0 v0] d IH]; intros d' H.
  - simpl in H. injection H as <-. reflexivity.
  - cbn [OD.get].
    destruct (written_options_cons _ _ _ _ H)
      as [[Hcb Hd] | (Hcb & Hp & v' & r' & Hv & Hd & ->)].
    + destruct (String.eqb k k0) eqn:E; [|now apply IH].
      apply String.eqb_eq in E. subst k0. congruence.
    + cbn [OD.get]. destruct (String.eqb k k0) eqn:E; [eauto|]. now apply IH.
Qed.

Lemma written_options_keys (d d' : CP.options) (k : string) :
  CP.written_options d = Ok d' -> In k (OD.keys d') ->
  CP.plain_key k = true /\ In k (OD.keys d).
Proof.
  revert d'. induction d as [|[k0 v0] d IH]; intros d' H Hin.
  - simpl in H. injection H as <-. contradiction.
  - destruct (written_options_cons _ _ _ _ H)
      as [[Hcb Hd] | (Hcb & Hp & v' & r' & Hv & Hd & ->)].
    + destruct (IH d' Hd Hin). split; auto. now right.
    + destruct Hin as [<- | Hin]; [split; auto; now left|].
      destruct (IH r' Hd Hin). split; auto. now right.
Qed.

Lemma written_options_NoDup (d d' : CP.options) :
  CP.written_options d = Ok d' -> NoDup (OD.keys d) -> NoDup (OD.keys d').
Proof.
  revert d'. induction d as [|[k0 v0] d IH]; intros d' H Hnd.
  - simpl in H. injection H as <-. constructor.
  - inversion Hnd as [|? ? Hnotin Hnd']; subst.
    destruct (written_options_cons _ _ _ _ H)
      as [[Hcb Hd] | (Hcb & Hp & v' & r' & Hv & Hd & ->)].
    + now apply IH.
    + simpl. constructor; [|now apply IH].
      intros Hin. apply Hnotin. eapply written_options_keys; eauto.
Qed.

Lemma written_get (c text : CP.t) (s : string) :
  CP.written c = Ok text ->
  match OD.get c s with
  | None => OD.get text s = None
  | Some d => exists d', CP.written_options d = Ok d' /\ OD.get text s = Some d'
  end.
Proof.
  revert text. induction c as [|[s0 d0] c IH]; intros text H; simpl in H.
  - injection H as <-. reflexivity.
  - destruct (negb (Str.truthy s0) || CP.has_linebreak s0); [discriminate|].
    bind_inv H. bind_inv H. injection H as <-. simpl.
    destruct (String.eqb s s0); [eauto | now apply IH].
Qed.

Lemma written_sections (c text : CP.t) :
  CP.written c = Ok text -> CP.sections text = CP.sections c.
Proof.
  unfold CP.sections.
  revert text. induction c as [|[s0 d0] c IH]; intros text H; simpl in H.
  - now injection H as <-.
  - destruct (negb (Str.truthy s0) || CP.has_linebreak s0); [discriminate|].
    bind_inv H. bind_inv H. injection H as <-. simpl. f_equal. now apply IH.
Qed.

Lemma written_wf (c text : CP.t) :
  CP.written c = Ok text -> parser_wf c -> parser_wf text.
Proof.
  intros H [Hnd Hall]. split.
  - change (NoDup (CP.sections text)). now rewrite (written_sections _ _ H).
  - clear Hnd. revert text H.
    induction c as [|[s0 d0] c IH]; intros text H; simpl in H.
    + injection H as <-. constructor.
    + inversion Hall; subst.
      destruct (negb (Str.truthy s0) || CP.has_linebreak s0); [discriminate|].
      bind_inv H. bind_inv H. injection H as <-. constructor; [|now apply IH].
      simpl. eapply written_options_NoDup; eauto.
Qed.

Lemma written_stored (c text : CP.t) (s k : string) :
  CP.written c = Ok text -> CP.plain_key k = true ->
  match stored c s k with
  | None => stored text s k = None
  | Some v => exists v', CP.written_value v = Ok v' /\ stored text s k = Some v'
  end.
Proof.
  intros H Hk. pose proof (written_get c text s H) as Hs. unfold stored.
  destruct (OD.get c s) as [d|].
  - destruct Hs as (d' & Hd & ->). now apply written_options_get.
  - now rewrite Hs.
Qed.

Lemma written_stored_inv (c text : CP.t) (s k : string) :
  CP.written c = Ok text -> stored text s k <> None ->
  CP.plain_key k = true /\ stored c s k <> None.
Proof.
  intros H. pose proof (written_get c text s H) as Hs. unfold stored.
  destruct (OD.get c s) as [d|].
  - destruct Hs as (d' & Hd & ->). intros Hne.
    assert (Hin : In k (OD.keys d')).
    { destruct (OD.get d' k) eqn:E; [|congruence]. eapply od_get_keys; eauto. }
    destruct (written_options_keys _ _ _ Hd Hin) as [Hp Hin'].
    split; auto. intros Hn. apply od_get_none in Hn. contradiction.
  - rewrite Hs. congruence.
Qed.

Lemma fold_set_get (opts d : CP.options) (k : string) :
  NoDup (OD.keys opts) ->
  OD.get (fold_left (fun d kv => OD.set d (fst kv) (snd kv)) opts d) k
  = match OD.get opts k with
    | Some v => Some v
    | None => OD.get d k
    end.
Proof.
  revert d. induction opts as [|[k0 v0] opts IH]; intros d Hnd; simpl; auto.
  inversion Hnd as [|? ? Hnotin Hnd']; subst. rewrite IH by exact Hnd'.
  destruct (String.eqb k k0) eqn:E.
  - apply String.eqb_eq in E. subst k0.
    assert (Hn : OD.get opts k = None) by now apply od_get_none.
    rewrite Hn. apply od_get_set_same.
  - apply String.eqb_neq in E. destruct (OD.get opts k); auto.
    apply od_get_set_other. congruence.
Qed.

Lemma read_section_stored (s0 : string) (opts : CP.options) (c c' : CP.t) :
  CP.read_section (s0, opts) c = Ok c' -> NoDup (OD.keys opts) ->
  forall s k,
    stored c' s k
    = if String.eqb s s0
      then match OD.get opts k with
           | Some v => Some v
           | None => stored c s0 k
           end
      else stored c s k.
Proof.
  unfold CP.read_section. intros H Hnd s k.
  destruct (String.eqb s0 CP.default_section); [discriminate|].
  injection H as <-. unfold stored.
  destruct (String.eqb s s0) eqn:E.
  - apply String.eqb_eq in E. subst s0.
    rewrite od_get_set_same, fold_set_get by exact Hnd.
    destruct (OD.get opts k); [reflexivity|]. now destruct (OD.get c s).
  - apply String.eqb_neq in E. rewrite od_get_set_other by congruence. reflexivity.
Qed.

(** Reading a file sets what the file holds and keeps the rest. *)
Lemma read_stored (text : CP.t) :
  parser_wf text ->
  forall c c', CP.read c text = Ok c' ->
    forall s k,
      stored c' s k = match stored text s k with
                      | Some v => Some v
                      | None => stored c s k
                      end.
Proof.
  unfold CP.read. induction text as [|[s0 opts] text IH]; intros [Hnd Hall] c c' H s k.
  - simpl in H. now injection H as <-.
  - inversion Hnd as [|? ? Hnotin Hnd']; subst. inversion Hall as [|? ? Hopts Hall']; subst.
    cbn [for_each] in H. bind_inv H.
    rewrite (IH (conj Hnd' Hall') a c' H s k). clear IH H.
    rewrite (read_section_stored _ _ _ _ Ha Hopts s k).
    destruct (String.eqb s s0) eqn:E.
    + apply String.eqb_eq in E. subst s0.
      assert (Hn : OD.get text s = None) by now apply od_get_none.
      replace (stored text s k) with (@None (option string))
        by (unfold stored; now rewrite Hn).
      replace (stored ((s, opts) :: text) s k) with (OD.get opts k)
        by (unfold stored; cbn [OD.get]; now rewrite String.eqb_refl).
      reflexivity.
    + replace (stored ((s0, opts) :: text) s k) with (stored text s k)
        by (unfold stored; cbn [OD.get]; now rewrite E).
      reflexivity.
Qed.

(** ** Regenerating the file *)

Lemma save_config_inv (st st' : store) :
  save_config st = Ok st' ->
  exists text,
    CP.written (config st) = Ok text /\ file st' = Some text
    /\ config st' = config st /\ defaults st' = defaults st
    /\ saves st' = S (saves st) /\ warnings st' = warnings st
    /\ section st' = section st.
Proof.
  unfold save_config. intros H. bind_inv H. injection H as <-.
  exists a. simpl. auto 10.
Qed.

Lemma carried_value_str (old : CP.t) (s k : string) (opt : opt_dict) (v : pyval) :
  carried_value old s k opt = Ok v ->
  Py.str v = match stored old s k with
             | Some (Some value) => value
             | Some None => "None"
             | None => Py.str (i_default opt)
             end.
Proof.
  unfold carried_value, stored.
  destruct (Str.mem s (CP.sections old)) eqn:E; simpl.
  - unfold CP.proxy_get, CP.proxy. destruct (OD.get old s) as [d|].
    + simpl. destruct (OD.get d k) as [raw|].
      * intros H. bind_inv H. bind_inv Ha. apply value_of_ok in Ha0. subst a0.
        injection Ha as <-. injection H as <-. now destruct raw.
      * now intros [= <-].
    + destruct (String.eqb s CP.default_section); discriminate.
  - apply mem_false in E. intros [= <-].
    destruct (OD.get old s) eqn:Eg; [|reflexivity].
    exfalso. apply E. eapply od_get_keys; eauto.
Qed.

Lemma written_value_some (x : string) (v : option string) :
  CP.written_value (Some x) = Ok v -> v = Some (Str.strip x).
Proof.
  simpl. destruct (CP.has_linebreak x); [discriminate | now intros [= <-]].
Qed.

Section Healing.

Variable textwrap_fill : string -> string -> string.

(** When the drift check reports a change and the validation completes,
    the file was written once, from the schema: its sections are
    those of the schema; an option of the schema holds the value the loaded
    parser had for it (the text None for an option without value), or the
    string of the schema default when the loaded parser had none; and a name
    the schema does not declare for a section is not in the file. *)
Lemma validate_config_regenerates (st st' : store) :
  schema_wf (defaults st) = true ->
  check_config_change st = Ok true ->
  validate_config textwrap_fill st = Ok st' ->
  exists text,
    file st' = Some text /\ saves st' = S (saves st)
    /\ CP.sections text = OD.keys (defaults st)
    /\ (forall s items k opt,
          OD.get (defaults st) s = Some items ->
          OD.get items k = Some (Item opt) ->
          k <> "helptext" -> CP.plain_key k = true ->
          stored text s k
          = Some (Some (Str.strip
                          match stored (config st) s k with
                          | Some (Some value) => value
                          | Some None => "None"
                          | None => Py.str (i_default opt)
                          end)))
    /\ (forall s k,
          match OD.get (defaults st) s with
          | Some items => k = "helptext" \/ OD.get items k = None
          | None => True
          end ->
          stored text s k = None).
Proof.
  intros Hwf Hchange H. unfold validate_config in H. rewrite Hchange in H.
  cbn [bind] in H. bind_inv H. rename a into st1.
  apply check_config_choices_untouched in H.
  destruct H as (_ & Hfile & Hsaves & _).
  unfold add_new_config_items in Ha. bind_inv Ha. rename a into new_config.
  apply save_config_inv in Ha. destruct Ha as (text & Hw & Hf & _ & _ & Hs & _).
  cbn [config with_config saves] in Hw, Hs.
  unfold schema_wf in Hwf. apply andb_prop in Hwf. destruct Hwf as [Hnd Hall].
  apply distinct_NoDup in Hnd.
  destruct (insert_sections_stored textwrap_fill _ _ Hnd Hall _ _ Ha0)
    as (Hsec & Hnone & Hsome).
  exists text. split; [congruence|]. split; [congruence|]. split; [|split].
  - rewrite (written_sections _ _ Hw), Hsec. reflexivity.
  - intros s items k opt Hs0 Hk Hne Hplain.
    destruct (Hsome s items Hs0 k (plain_not_help k Hplain)) as (_ & Hitem).
    destruct (Hitem opt Hne Hk) as (v & Hv & Hst).
    pose proof (written_stored _ _ s k Hw Hplain) as Hws. rewrite Hst in Hws.
    destruct Hws as (v' & Hv' & ->). apply written_value_some in Hv'. subst v'.
    now rewrite (carried_value_str _ _ _ _ _ Hv).
  - intros s k Hdecl.
    destruct (stored text s k) eqn:E; [|reflexivity]. exfalso.
    destruct (written_stored_inv _ _ s k Hw) as (Hplain & Hst); [congruence|].
    apply Hst. destruct (OD.get (defaults st) s) as [items|] eqn:Es.
    + destruct (Hsome s items Es k (plain_not_help k Hplain)) as (Hrest & _). auto.
    + now rewrite (Hnone s Es k).
Qed.

End Healing.

(** ** The examples of the construction *)

(** C3, the claim as stated fails for list options: a list default is
    written as Python prints a list, and read back token by token; a text
    default of a list option is read back as a list. *)
Lemma list_default_is_not_reproduced :
  exists st0 st1 st2,
    list_defaults (fresh "sect" None) = Ok st0
    /\ create_default fill_short st0 = Ok st1
    /\ load_config st1 = Ok st2
    /\ i_type (option_of st2 "sect" "tags") = Dlist
    /\ i_default (option_of st2 "sect" "tags") = VList ["a"; "b"]
    /\ stored (config st2) "sect" "tags" = Some (Some "['a', 'b']")
    /\ get st2 "sect" "tags" = Ok (VList ["['a'"; "'b']"])
    /\ i_default (option_of example_reloaded "sect" "multi") = VStr "a, c"
    /\ get example_reloaded "sect" "multi" = Ok (VList ["a"; "c"]).
Proof.
  do 3 eexists.
  split; [vm_compute; reflexivity|].
  split; [vm_compute; reflexivity|].
  split; [vm_compute; reflexivity|].
  repeat split.
Qed.

(** C4, the code at the failing input: a list option declared without
    choices is accepted and stored with an empty choice list. *)
Lemma list_option_without_choices_is_stored :
  exists st,
    unchecked_list_defaults (fresh "sect" None) = Ok st
    /\ i_type (option_of st "sect" "tags") = Dlist
    /\ i_choices (option_of st "sect" "tags") = [].
Proof.
  eexists. split; [vm_compute; reflexivity|]. split; reflexivity.
Qed.

Lemma global_merge_example :
  section abc_validated = "sect"
  /\ OD.get (read_dict (config_dict abc_validated)) "seed" = Some (VInt 77)
  /\ OD.get (read_dict (config_dict abc_validated)) "# OPTIONS FOR ALL PLUGINS" = None.
Proof.
  split; [reflexivity|].
  assert (Honly : forall s,
             Str.startswith s "global" = true \/ s = section abc_validated ->
             s <> "global" -> stored (config abc_validated) s "seed" = None).
  { intros s _ Hne. unfold stored.
    destruct (OD.get (config abc_validated) s) as [d|] eqn:E; [|reflexivity].
    unfold abc_validated in E. cbn [config OD.get] in E.
    destruct (String.eqb s "global") eqn:E1.
    - apply String.eqb_eq in E1. contradiction.
    - destruct (String.eqb s "sect"); [|discriminate E].
      injection E as <-. reflexivity. }
  destruct (global_options_are_merged abc_validated
              (read_dict (config_dict abc_validated)) "global" "seed"
              ltac:(vm_compute; reflexivity) ltac:(left; reflexivity)
              ltac:(vm_compute; reflexivity) ltac:(vm_compute; discriminate)
              ltac:(vm_compute; reflexivity) Honly)
    as ((v & Hg & Hv) & Hcomment).
  split.
  - vm_compute in Hg. injection Hg as <-. exact Hv.
  - exact (Hcomment "# OPTIONS FOR ALL PLUGINS" ltac:(vm_compute; reflexivity)).
Defined.

Lemma bounds_example :
  i_min_max (option_of out_of_bounds "global" "seed") = Some (VInt 0, VInt 3)
  /\ get out_of_bounds "global" "seed" = Ok (VInt 77)
  /\ i_min_max (option_of out_of_bounds "sect" "rate")
     = Some (VFloat "0.0", VFloat "1.0")
  /\ get out_of_bounds "sect" "rate" = Ok (VFloat "7.5")
  /\ get out_of_bounds "sect" "tiny" = Ok (VFloat "-2.5e-07").
Proof.
  split; [reflexivity|]. split; [|split; [reflexivity|split]].
  - exact (proj1 (proj2 bounds_are_metadata_only) out_of_bounds "global" "seed" 77%Z
             ltac:(vm_compute; reflexivity) ltac:(vm_compute; reflexivity)).
  - exact (proj1 (proj2 (proj2 bounds_are_metadata_only)) out_of_bounds "sect" "rate"
             (Py.FNum false "75" 1)
             ltac:(vm_compute; reflexivity) ltac:(vm_compute; reflexivity)
             ltac:(vm_compute; reflexivity)).
  - exact (proj1 (proj2 (proj2 bounds_are_metadata_only)) out_of_bounds "sect" "tiny"
             (Py.FNum true "25" (-6))
             ltac:(vm_compute; reflexivity) ltac:(vm_compute; reflexivity)
             ltac:(vm_compute; reflexivity)).
Defined.

(** ** Declaring options *)

Lemma expand_helptext_ok (helptext : string) (choices : list string) (tuple : bool)
  (default : pyval) (ty : datatype) (min_max : option (pyval * pyval)) (fixed : bool) :
  (datatype_eqb ty Dfloat || datatype_eqb ty Dint = true -> min_max <> None) ->
  exists h, expand_helptext helptext choices tuple default ty min_max fixed = Ok h.
Proof.
  intros Hnum. unfold expand_helptext.
  destruct choices as [|ch chs]; [|cbn [bind]; eauto].
  destruct ty; cbn [datatype_eqb bind]; eauto;
    (destruct min_max as [[lo hi]|]; [cbn [bind]; eauto | exfalso; now apply Hnum]).
Qed.

(** X1. [add_item] raises nothing but a value error, and raises it exactly
    when an argument is missing, the section is not declared, the type is
    not one of the five, a numeric type lacks rounding or bounds, or the
    choices are no sequence; a list type without choices is not refused.
    When it accepts, the option can be looked up with the type, the
    default, the bounds and the choices given, under the title given. *)
Theorem add_item_accepts_or_raises_value_error (st : store)
  (section title : option string) (ty : datatype) (default : pyval)
  (info : option string) (rounding : option pyval)
  (min_max : option (pyval * pyval)) (choices : choices_arg)
  (gui_radio fixed : bool) (group : option string) :
  if add_item_accepts st section title ty default info rounding min_max choices
  then exists st' s t,
         section = Some s /\ title = Some t
         /\ add_item st section title ty default info rounding min_max choices
              gui_radio fixed group = Ok st'
         /\ declared_type st' s t = Ok ty
         /\ i_default (option_of st' s t) = default
         /\ i_min_max (option_of st' s t) = min_max
         /\ i_choices (option_of st' s t) = stored_choices choices
         /\ i_fixed (option_of st' s t) = fixed
  else add_item st section title ty default info rounding min_max choices
         gui_radio fixed group = Raise ValueError.
Proof.
  unfold add_item_accepts, add_item.
  destruct section as [s|]; [|reflexivity].
  destruct title as [t|]; [|reflexivity].
  destruct info as [i|]; [|now destruct default].
  destruct default as [|x|b|z|lit|l] eqn:Ed; [reflexivity|..];
    (destruct (OD.get (defaults st) s) as [[|it items]|] eqn:Es; [reflexivity| |reflexivity];
     cbn [andb];
     destruct (is_known_type ty) eqn:Ek; [|reflexivity];
     assert (Hl : isinstance_list ty = false) by (destruct ty; [reflexivity..|discriminate Ek]);
     rewrite Hl; cbn [andb negb];
     destruct (datatype_eqb ty Dfloat || datatype_eqb ty Dint) eqn:En;
     [ destruct rounding as [r|]; [|reflexivity];
       destruct min_max as [mm|]; [|reflexivity] | ];
     cbn [andb negb orb is_none];
     (destruct choices as [|chs|[|ch chs]|]; [| | | |reflexivity]);
     match goal with
     | |- context [expand_helptext ?a ?b ?c ?d ?e ?f ?g] =>
         destruct (expand_helptext_ok a b c d e f g) as (h & ->);
         [ try (intros _; discriminate);
           try (intros Hn; rewrite En in Hn; discriminate Hn) | ]
     end;
     cbn [bind]; eexists; exists s, t;
     (split; [reflexivity|]); (split; [reflexivity|]); (split; [reflexivity|]);
     unfold declared_type, option_of, items_of; cbn [defaults with_defaults];
     rewrite !od_get_set_same; repeat split).
Qed.

Lemma schema_wf_iff (d : schema) :
  schema_wf d = true
  <-> NoDup (OD.keys d)
      /\ Forall (fun sect : string * OD.t entry => NoDup (OD.keys (snd sect))) d.
Proof.
  unfold schema_wf. rewrite andb_true_iff, forallb_forall, Forall_forall. split.
  - intros [H1 H2]. split; [now apply distinct_NoDup|].
    intros x Hx. apply distinct_NoDup. auto.
  - intros [H1 H2]. split; [now apply NoDup_distinct|].
    intros x Hx. apply NoDup_distinct. auto.
Qed.

Lemma items_of_set_same (st : store) (d : schema) (s : string) (items : OD.t entry) :
  items_of (with_defaults st (OD.set d s items)) s = items.
Proof. unfold items_of. cbn [defaults with_defaults]. now rewrite od_get_set_same. Qed.

Lemma items_of_set_other (st : store) (s s' : string) (items : OD.t entry) :
  s <> s' ->
  items_of (with_defaults st (OD.set (defaults st) s items)) s' = items_of st s'.
Proof.
  intros H. unfold items_of. cbn [defaults with_defaults].
  now rewrite od_get_set_other.
Qed.

(** X2. Declaring a section needs a title and a help text, and nothing
    else: it keeps the names of the schema distinct, puts the section where
    a section of that name was or else at the end, leaves in it the help
    text alone, so that options declared under that name before are gone,
    and leaves the other sections as they were. *)
Theorem add_section_resets_the_section (st : store) (title info : option string) :
  schema_wf (defaults st) = true ->
  match title, info with
  | Some t, Some i =>
      exists st',
        add_section st title info = Ok st'
        /\ schema_wf (defaults st') = true
        /\ items_of st' t = [("helptext", Helptext i)]
        /\ (forall s, s <> t -> items_of st' s = items_of st s)
        /\ OD.keys (defaults st')
           = (if OD.mem (defaults st) t then OD.keys (defaults st)
              else OD.keys (defaults st) ++ [t])
        /\ config st' = config st /\ file st' = file st
  | _, _ => add_section st title info = Raise ValueError
  end.
Proof.
  intros Hwf. destruct title as [t|]; [|reflexivity].
  destruct info as [i|]; [|reflexivity].
  eexists. split; [reflexivity|]. split; [|split; [|split; [|split]]].
  - cbn [defaults with_defaults]. apply schema_wf_iff in Hwf. destruct Hwf as [H1 H2].
    apply schema_wf_iff. split; [now apply od_keys_set_NoDup|].
    apply od_set_Forall; [exact H2|]. simpl.
    constructor; [intros [] | constructor].
  - apply items_of_set_same.
  - intros s Hs. apply items_of_set_other. congruence.
  - cbn [defaults with_defaults]. apply od_keys_set.
  - split; reflexivity.
Qed.

Lemma add_section_example :
  items_of (built (add_section example_declared (Some "sect") (Some "again"))) "sect"
  = [("helptext", Helptext "again")].
Proof.
  destruct (add_section_resets_the_section example_declared (Some "sect") (Some "again")
              ltac:(vm_compute; reflexivity))
    as (st' & Hadd & _ & Hitems & _).
  rewrite Hadd. exact Hitems.
Defined.

Lemma add_item_inv (st st' : store) (section title : option string) (ty : datatype)
  (default : pyval) (info : option string) (rounding : option pyval)
  (min_max : option (pyval * pyval)) (choices : choices_arg)
  (gui_radio fixed : bool) (group : option string) :
  add_item st section title ty default info rounding min_max choices
    gui_radio fixed group = Ok st' ->
  exists s t items o,
    section = Some s /\ title = Some t
    /\ OD.get (defaults st) s = Some items
    /\ st' = with_defaults st (OD.set (defaults st) s (OD.set items t (Item o))).
Proof.
  unfold add_item. intros H.
  destruct section as [s|]; [|discriminate].
  destruct title as [t|]; [|discriminate].
  assert (H' : exists i items r,
             info = Some i /\ OD.get (defaults st) s = Some items /\ r = Ok st'
             /\ (exists chs h,
                    r = Ok (with_defaults st
                              (OD.set (defaults st) s
                                 (OD.set items t
                                    (Item {| i_default := default; i_helptext := h;
                                             i_type := ty; i_rounding := rounding;
                                             i_min_max := min_max; i_choices := chs;
                                             i_gui_radio := gui_radio; i_fixed := fixed;
                                             i_group := group |})))))).
  { destruct default; try discriminate;
      (destruct info as [i|]; [|discriminate];
       destruct (OD.get (defaults st) s) as [[|it items]|] eqn:Es; try discriminate;
       destruct (negb (is_known_type ty)); [discriminate|];
       destruct (_ && _); [discriminate|];
       destruct (_ && _); [discriminate|];
       destruct choices as [|chs|[|ch chs]|]; try discriminate;
       bind_inv H; exists i, (it :: items), (Ok st');
       (split; [reflexivity|]); (split; [reflexivity|]); (split; [reflexivity|]);
       eexists; exists a; rewrite <- H; reflexivity). }
  destruct H' as (i & items & r & _ & Hs & -> & chs & h & [= ->]).
  exists s, t, items. eexists. repeat split. exact Hs.
Qed.

(** X3. Declaring an option keeps the section names and the option titles
    of each section distinct, keeps the sections in their order, and leaves
    every other entry of the schema as it was: the option takes the place of
    an entry of that title, or else comes last in its section. *)
Theorem add_item_keeps_the_other_entries (st st' : store)
  (section title : option string) (ty : datatype) (default : pyval)
  (info : option string) (rounding : option pyval)
  (min_max : option (pyval * pyval)) (choices : choices_arg)
  (gui_radio fixed : bool) (group : option string) :
  schema_wf (defaults st) = true ->
  add_item st section title ty default info rounding min_max choices
    gui_radio fixed group = Ok st' ->
  schema_wf (defaults st') = true
  /\ OD.keys (defaults st') = OD.keys (defaults st)
  /\ (forall s k, (Some s <> section \/ Some k <> title) ->
        OD.get (items_of st' s) k = OD.get (items_of st s) k)
  /\ (forall s t, section = Some s -> title = Some t ->
        OD.keys (items_of st' s)
        = if OD.mem (items_of st s) t then OD.keys (items_of st s)
          else OD.keys (items_of st s) ++ [t])
  /\ config st' = config st /\ file st' = file st.
Proof.
  intros Hwf H. apply add_item_inv in H.
  destruct H as (s & t & items & o & -> & -> & Hs & ->).
  apply schema_wf_iff in Hwf. destruct Hwf as [H1 H2].
  split; [|split; [|split; [|split]]].
  - cbn [defaults with_defaults]. apply schema_wf_iff.
    split; [now apply od_keys_set_NoDup|].
    apply od_set_Forall; [exact H2|]. simpl. apply od_keys_set_NoDup.
    exact (od_get_Forall _ _ _ _ H2 Hs).
  - cbn [defaults with_defaults]. rewrite od_keys_set. unfold OD.mem. now rewrite Hs.
  - intros s' k Hne. destruct (string_dec s s') as [<-|Hs'].
    + rewrite items_of_set_same. unfold items_of. rewrite Hs.
      apply od_get_set_other. destruct Hne as [Hne|Hne]; congruence.
    + now rewrite items_of_set_other.
  - intros s' t' [= <-] [= <-]. rewrite items_of_set_same. unfold items_of.
    rewrite Hs. apply od_keys_set.
  - split; reflexivity.
Qed.

Lemma add_item_example :
  schema_wf (defaults seed_declared) = true
  /\ OD.keys (items_of seed_declared "global") = ["helptext"; "seed"].
Proof.
  split; [|reflexivity].
  exact (proj1 (add_item_keeps_the_other_entries global_declared seed_declared
                  (Some "global") (Some "seed") Dint (VInt 5) (Some "Random seed")
                  (Some (VInt 1)) (Some (VInt 0, VInt 3)) ChNone false true None
                  ltac:(vm_compute; reflexivity) ltac:(vm_compute; reflexivity))).
Defined.

(** ** The drift check, in closed form *)

Lemma keys_changed_closed (c : CP.t) (d : schema) :
  (forall s items, In (s, items) d -> In s (CP.sections c)) ->
  keys_changed c d
  = Ok (negb (forallb (fun sect : string * OD.t entry =>
                         set_eqb (option_keys c (fst sect)) (declared_keys (snd sect)))
                d)).
Proof.
  induction d as [|[s items] d IH]; intros Hin; [reflexivity|].
  cbn [keys_changed forallb fst snd].
  rewrite (proxy_keys_stored c s) by (eapply Hin; left; reflexivity).
  cbn [bind]. fold (option_keys c s). fold (declared_keys items).
  destruct (set_eqb (option_keys c s) (declared_keys items)); [|reflexivity].
  cbn [negb andb]. apply IH. intros s' items' H. eapply Hin. right. exact H.
Qed.

Lemma check_config_change_true (st : store) :
  matches_schema (config st) (defaults st) = false ->
  check_config_change st = Ok true.
Proof.
  unfold check_config_change, matches_schema.
  destruct (set_eqb (CP.sections (config st)) (OD.keys (defaults st))) eqn:Hs;
    [|reflexivity].
  cbn [negb andb]. intros Hk. rewrite keys_changed_closed, Hk; [reflexivity|].
  intros s items Hin. unfold set_eqb in Hs. apply andb_prop in Hs.
  eapply subset_In; [apply Hs|]. now apply (in_map fst) in Hin.
Qed.

(** X4. The drift check never raises: it reports a change exactly when the
    sections of the parser and of the schema differ as sets, or when, in
    some section of the schema, the option names of the parser that are no
    help-text comments and the option titles of the schema differ as sets.
    The order of sections and options does not matter. *)
Theorem check_config_change_closed_form (st : store) :
  check_config_change st = Ok (negb (matches_schema (config st) (defaults st))).
Proof.
  destruct (matches_schema (config st) (defaults st)) eqn:E; cbn [negb].
  - now apply check_config_change_false.
  - now apply check_config_change_true.
Qed.

(** ** What the validation of the choices never does *)

Lemma check_choice_changes (s : string) (kv : string * entry) (st st' : store) :
  check_choice s kv st = Ok st' ->
  st' = st \/
  exists opt w v c,
    fst kv <> "helptext" /\ snd kv = Item opt /\ i_choices opt <> []
    /\ stored (config st) s (fst kv) <> None
    /\ CP.set (config st) s (fst kv) (Some v) = Ok c
    /\ st' = with_config (warn st w) c.
Proof.
  destruct kv as [k e]. unfold check_choice.
  destruct (String.eqb k "helptext") eqn:Ek; [intros [= <-]; auto|].
  apply String.eqb_neq in Ek.
  destruct e as [info|opt]; [discriminate|].
  destruct (i_choices opt) as [|ch chs] eqn:Ech; [intros [= <-]; auto|].
  assert (Hget : forall v, CP.get (config st) s k = Ok v -> stored (config st) s k <> None).
  { intros v Hv. destruct (get_stored _ _ _ _ Hv) as (raw & -> & _). discriminate. }
  destruct (datatype_eqb (i_type opt) Dlist).
  - intros H. bind_inv H.
    assert (Hst : stored (config st) s k <> None).
    { unfold _parse_list in Ha. bind_inv Ha. eapply Hget; eauto. }
    destruct a as [|t ts]; [injection H as <-; auto|].
    destruct (existsb _ _); [|injection H as <-; auto].
    bind_inv H. injection H as <-. right. cbn [config warn] in Ha0.
    exists opt. do 3 eexists. cbn [fst snd]. rewrite Ech.
    repeat split; [exact Ek | discriminate | exact Hst | exact Ha0].
  - intros H. bind_inv H. pose proof (Hget _ Ha) as Hst.
    destruct a as [v|]; [|discriminate].
    destruct (_ && _); [injection H as <-; auto|].
    destruct (negb _); [|injection H as <-; auto].
    bind_inv H. injection H as <-. right. cbn [config warn] in Ha0.
    exists opt. do 3 eexists. cbn [fst snd]. rewrite Ech.
    repeat split; [exact Ek | discriminate | exact Hst | exact Ha0].
Qed.

(** X5. The validation of the choices, when it completes, changes values
    only: the schema, the file and the count of saves are what they were,
    the parser has the same sections, an option is in the parser after it
    exactly when it was before, and the value of an option that the schema
    does not declare with choices is what it was. *)
Theorem check_config_choices_changes_values_only (st st' : store) :
  schema_wf (defaults st) = true ->
  check_config_choices st = Ok st' ->
  defaults st' = defaults st /\ file st' = file st /\ saves st' = saves st
  /\ CP.sections (config st') = CP.sections (config st)
  /\ (forall s k, stored (config st') s k = None <-> stored (config st) s k = None)
  /\ (forall s k,
        match OD.get (items_of st s) k with
        | Some (Item opt) => k = "helptext" \/ i_choices opt = []
        | _ => True
        end ->
        stored (config st') s k = stored (config st) s k).
Proof.
  intros Hwf H. pose proof (check_config_choices_untouched _ _ H) as Hu.
  destruct Hu as (Hd & Hf & Hs & _ & Hsec & _).
  split; [exact Hd|]. split; [exact Hf|]. split; [exact Hs|]. split; [exact Hsec|].
  apply schema_wf_iff in Hwf. destruct Hwf as [Hnd Hall].
  set (R := fun t t' : store =>
              (forall s k, stored (config t') s k = None <-> stored (config t) s k = None)
              /\ (forall s k,
                    match OD.get (items_of st s) k with
                    | Some (Item opt) => k = "helptext" \/ i_choices opt = []
                    | _ => True
                    end ->
                    stored (config t') s k = stored (config t) s k)).
  assert (Hrefl : forall t, R t t) by (intros t; split; intros; reflexivity).
  assert (Htrans : forall t1 t2 t3, R t1 t2 -> R t2 t3 -> R t1 t3).
  { intros t1 t2 t3 [A1 A2] [B1 B2]. split.
    - intros s k. now rewrite B1.
    - intros s k Hc. now rewrite B2, A2. }
  change (R st st'). unfold check_config_choices in H. revert H.
  apply (for_each_preserves _ R Hrefl Htrans).
  intros [s items] t t' Hsect. cbn [fst snd].
  apply (for_each_preserves _ R Hrefl Htrans).
  intros [k e] u u' Hitem Hstep.
  apply check_choice_changes in Hstep.
  destruct Hstep as [-> | (opt & w & v & c & Hk & He & Hch & Hst & Hset & ->)];
    [apply Hrefl|].
  cbn [fst snd] in *. subst e. split.
  - intros s' k'. cbn [config with_config warn].
    rewrite (set_stored _ _ _ _ _ s' k' Hset).
    destruct (String.eqb s' s && String.eqb k' k) eqn:E; [|reflexivity].
    apply andb_prop in E. destruct E as [E1 E2].
    apply String.eqb_eq in E1, E2. subst s' k'.
    split; [discriminate | intros Hn; contradiction].
  - intros s' k' Hc. cbn [config with_config warn].
    rewrite (set_stored _ _ _ _ _ s' k' Hset).
    destruct (String.eqb s' s && String.eqb k' k) eqn:E; [|reflexivity].
    apply andb_prop in E. destruct E as [E1 E2].
    apply String.eqb_eq in E1, E2. subst s' k'. exfalso.
    unfold items_of in Hc. rewrite (od_In_get _ _ _ Hnd Hsect) in Hc.
    assert (Hi : NoDup (OD.keys items)).
    { rewrite Forall_forall in Hall. exact (Hall _ Hsect). }
    rewrite (od_In_get _ _ _ Hi Hitem) in Hc. destruct Hc; contradiction.
Qed.

Lemma validation_keeps_seed :
  stored (config abc_validated) "global" "seed" = Some (Some "77")
  /\ saves abc_validated = 0.
Proof.
  destruct (check_config_choices_changes_values_only abc_loaded abc_validated
              ltac:(vm_compute; reflexivity) ltac:(vm_compute; reflexivity))
    as (_ & _ & Hs & _ & _ & Hsame).
  split; [|exact Hs].
  exact (Hsame "global" "seed" ltac:(vm_compute; right; reflexivity)).
Defined.

(** ** The options that can change *)

(** X6. When [changeable_items] returns, every key it maps is the title of
    an option that a collated section (a global section of the parser, or
    the requested section) declares as not fixed, mapped to its typed
    value; and every option so declared is mapped.  An option marked fixed
    is never returned on its own account. *)
Theorem changeable_items_are_not_fixed (st : store) (retval : OD.t pyval) :
  changeable_items st = Ok retval ->
  (forall k v, OD.get retval k = Some v ->
     exists sect o,
       (Str.startswith sect "global" = true /\ In sect (CP.sections (config st))
        \/ sect = section st)
       /\ In (k, Item o) (items_of st sect) /\ k <> "helptext"
       /\ i_fixed o = false /\ get st sect k = Ok v)
  /\ (forall sect k o,
        (Str.startswith sect "global" = true /\ In sect (CP.sections (config st))
         \/ sect = section st) ->
        In (k, Item o) (items_of st sect) -> k <> "helptext" -> i_fixed o = false ->
        OD.get retval k <> None).
Proof.
  unfold changeable_items. intros H.
  assert (Hcoll : forall sect,
             In sect (filter (fun sect => Str.startswith sect "global")
                        (CP.sections (config st)) ++ [section st])
             <-> (Str.startswith sect "global" = true /\ In sect (CP.sections (config st))
                  \/ sect = section st)).
  { intros sect. rewrite in_app_iff, filter_In. simpl. intuition auto. }
  split.
  - set (I := fun r : OD.t pyval =>
                forall k v, OD.get r k = Some v ->
                  exists sect o,
                    (Str.startswith sect "global" = true /\ In sect (CP.sections (config st))
                     \/ sect = section st)
                    /\ In (k, Item o) (items_of st sect) /\ k <> "helptext"
                    /\ i_fixed o = false /\ get st sect k = Ok v).
    refine (for_each_invariant _ I _ _ [] retval _ H); [|intros k v; discriminate].
    clear H retval. intros sect r0 r1 Hsect HI.
    apply Hcoll in Hsect.
    destruct (OD.get (defaults st) sect) as [items|] eqn:Es; [|now intros [= <-]].
    intros H. refine (for_each_invariant _ I _ _ r0 r1 HI H).
    clear H HI r0 r1. intros [key val] c0 c1 Hkey HI0.
    destruct (String.eqb key "helptext") eqn:Ek; [now intros [= <-]|].
    apply String.eqb_neq in Ek.
    destruct val as [info|o]; [discriminate|].
    destruct (i_fixed o) eqn:Ef; [now intros [= <-]|].
    intros H. bind_inv H. injection H as <-.
    intros k v. destruct (string_dec key k) as [<-|Hne].
    + rewrite od_get_set_same. intros [= <-]. exists sect, o.
      unfold items_of. rewrite Es. auto.
    + rewrite od_get_set_other by exact Hne. apply HI0.
  - intros sect k o Hsect Hin Hk Hf. apply Hcoll in Hsect.
    set (keeps := fun c c' : OD.t pyval => OD.get c k <> None -> OD.get c' k <> None).
    assert (Hrefl : forall c, keeps c c) by (unfold keeps; auto).
    assert (Htrans : forall c1 c2 c3, keeps c1 c2 -> keeps c2 c3 -> keeps c1 c3)
      by (unfold keeps; auto).
    assert (Hstep : forall s (kv : string * entry) c c',
               (let (key, val) := kv in
                if String.eqb key "helptext" then Ok c
                else match val with
                     | Helptext _ => Raise TypeError
                     | Item o =>
                         if i_fixed o then Ok c
                         else v <- get st s key ;; Ok (OD.set c key v)
                     end) = Ok c' -> keeps c c').
    { intros s [key val] c c'. destruct (String.eqb key "helptext"); [now intros [= <-]|].
      destruct val as [info|o']; [discriminate|].
      destruct (i_fixed o'); [now intros [= <-]|].
      intros H0. bind_inv H0. injection H0 as <-. unfold keeps. apply od_set_keeps. }
    match type of H with
    | for_each ?b ?xs _ = _ =>
        destruct (for_each_In b keeps xs Hrefl Htrans) with
          (x := sect) (s := @nil (string * pyval)) (s' := retval)
          as (c1 & c2 & Hbody & _ & H2); [ | exact Hsect | exact H | ]
    end.
    { intros s c c' _. destruct (OD.get (defaults st) s); [|now intros [= <-]].
      apply (for_each_preserves _ keeps Hrefl Htrans). intros kv u u' _. apply Hstep. }
    apply H2. clear H2 H. cbv beta in Hbody.
    unfold items_of in Hin. destruct (OD.get (defaults st) sect) as [items|]; [|contradiction].
    match type of Hbody with
    | for_each ?b ?xs ?c0 = _ =>
        destruct (for_each_In b keeps xs Hrefl Htrans) with
          (x := (k, Item o)) (s := c0) (s' := c2)
          as (t1 & t2 & Hk2 & _ & H2); [ | exact Hin | exact Hbody | ]
    end.
    { intros kv u u' _. apply Hstep. }
    apply H2. cbv beta iota in Hk2. apply String.eqb_neq in Hk.
    rewrite Hk, Hf in Hk2. bind_inv Hk2. injection Hk2 as <-.
    rewrite od_get_set_same. discriminate.
Qed.

Lemma changeable_items_example :
  OD.get (read_dict (changeable_items abc_validated)) "rate" = Some (VFloat "0.25")
  /\ OD.get (read_dict (changeable_items abc_validated)) "seed" = None.
Proof.
  destruct (changeable_items_are_not_fixed abc_validated
              (read_dict (changeable_items abc_validated))
              ltac:(vm_compute; reflexivity)) as (Hsound & Hcomplete).
  split; [|reflexivity].
  pose proof (Hcomplete "sect" "rate" (option_of abc_validated "sect" "rate")
                (or_intror eq_refl)
                ltac:(vm_compute; tauto) ltac:(discriminate) eq_refl) as Hb.
  destruct (OD.get (read_dict (changeable_items abc_validated)) "rate") as [v|] eqn:E;
    [|contradiction].
  vm_compute in E. now injection E as <-.
Defined.

(** ** The construction as a whole *)

Lemma check_config_choices_presence (st st' : store) :
  check_config_choices st = Ok st' ->
  forall s k, stored (config st') s k = None <-> stored (config st) s k = None.
Proof.
  set (R := fun t t' : store =>
              forall s k, stored (config t') s k = None <-> stored (config t) s k = None).
  assert (Hrefl : forall t, R t t) by (intros t s k; reflexivity).
  assert (Htrans : forall t1 t2 t3, R t1 t2 -> R t2 t3 -> R t1 t3).
  { intros t1 t2 t3 A B s k. unfold R in A, B. rewrite (B s k). apply A. }
  unfold check_config_choices. intros H. change (R st st'). revert H.
  apply (for_each_preserves _ R Hrefl Htrans).
  intros [s items] t t' _. cbn [fst snd].
  apply (for_each_preserves _ R Hrefl Htrans).
  intros [k e] u u' _ Hstep. apply check_choice_changes in Hstep.
  destruct Hstep as [-> | (opt & w & v & c & _ & _ & _ & Hst & Hset & ->)];
    [apply Hrefl|].
  intros s' k'. cbn [config with_config warn fst] in *.
  rewrite (set_stored _ _ _ _ _ s' k' Hset).
  destruct (String.eqb s' s && String.eqb k' k) eqn:E; [|reflexivity].
  apply andb_prop in E. destruct E as [E1 E2].
  apply String.eqb_eq in E1, E2. subst s' k'.
  split; [discriminate | intros Hn; contradiction].
Qed.

Lemma read_sections_In (text : CP.t) :
  forall c c', CP.read c text = Ok c' ->
    forall s, In s (CP.sections c') <-> In s (CP.sections c) \/ In s (CP.sections text).
Proof.
  unfold CP.read, CP.sections.
  induction text as [|[s0 opts] text IH]; intros c c' H s.
  - simpl in H. injection H as <-. simpl. tauto.
  - cbn [for_each] in H. bind_inv H. rewrite (IH _ _ H s). clear IH H.
    unfold CP.read_section in Ha.
    destruct (String.eqb s0 CP.default_section); [discriminate|].
    injection Ha as <-. rewrite od_keys_set. unfold OD.keys. cbn [map fst In].
    unfold OD.mem. destruct (OD.get c s0) eqn:E.
    + apply od_get_keys in E. unfold OD.keys in E. split; [tauto|].
      intros [H|[<-|H]]; auto.
    + rewrite in_app_iff. cbn [In]. tauto.
Qed.

Lemma set_eqb_iff (a b : list string) :
  set_eqb a b = true <-> (forall x, In x a <-> In x b).
Proof.
  unfold set_eqb, subset. rewrite andb_true_iff, !forallb_forall. split.
  - intros [H1 H2] x. split; intros Hx; apply mem_In; auto.
  - intros H. split; intros x Hx; apply mem_In; now apply H.
Qed.

Section Construction.

Variable textwrap_fill : string -> string -> string.

(** The course of a construction that succeeds: the file is created when
    there is none, loaded, and then either found to match the schema and
    validated as it is, or regenerated and validated. *)
Lemma handle_config_inv (st st' : store) :
  handle_config textwrap_fill st = Ok st' ->
  exists st1 st2,
    (if check_exists st then st1 = st else create_default textwrap_fill st = Ok st1)
    /\ load_config st1 = Ok st2
    /\ ((matches_schema (config st2) (defaults st2) = true
         /\ check_config_choices st2 = Ok st')
        \/ (matches_schema (config st2) (defaults st2) = false
            /\ exists st3, add_new_config_items textwrap_fill st2 = Ok st3
                           /\ check_config_choices st3 = Ok st')).
Proof.
  unfold handle_config. intros H. bind_inv H. rename a into st1.
  bind_inv H. rename a into st2. exists st1, st2.
  split; [|split; [exact Ha0|]].
  - destruct (check_exists st); cbn [negb] in Ha; [now injection Ha as <- | exact Ha].
  - unfold validate_config in H.
    destruct (matches_schema (config st2) (defaults st2)) eqn:E.
    + rewrite (check_config_change_false _ E) in H. cbn [bind] in H. auto.
    + rewrite (check_config_change_true _ E) in H. cbn [bind] in H.
      bind_inv H. right. split; [reflexivity|]. eauto.
Qed.

Lemma create_default_inv (st st1 : store) :
  create_default textwrap_fill st = Ok st1 ->
  exists c1 text,
    insert_sections textwrap_fill (fun _ _ opt => Ok (i_default opt)) (defaults st)
      (config st) = Ok c1
    /\ CP.written c1 = Ok text
    /\ file st1 = Some text /\ config st1 = c1 /\ defaults st1 = defaults st
    /\ saves st1 = S (saves st).
Proof.
  unfold create_default. intros H. bind_inv H.
  apply save_config_inv in H. destruct H as (text & Hw & Hf & Hc & Hd & Hs & _).
  exists a, text. cbn [config with_config defaults saves] in *. auto 10.
Qed.

Lemma add_new_config_items_inv (st st3 : store) :
  add_new_config_items textwrap_fill st = Ok st3 ->
  exists c text,
    insert_sections textwrap_fill (carried_value (config st)) (defaults st) [] = Ok c
    /\ CP.written c = Ok text
    /\ file st3 = Some text /\ config st3 = c /\ defaults st3 = defaults st
    /\ saves st3 = S (saves st).
Proof.
  unfold add_new_config_items. intros H. bind_inv H.
  apply save_config_inv in H. destruct H as (text & Hw & Hf & Hc & Hd & Hs & _).
  exists a, text. cbn [config with_config defaults saves] in *. auto 10.
Qed.

Lemma load_config_inv (st st2 : store) :
  load_config st = Ok st2 ->
  defaults st2 = defaults st /\ file st2 = file st /\ saves st2 = saves st
  /\ match file st with
     | Some text => CP.read (config st) text = Ok (config st2)
     | None => config st2 = config st
     end.
Proof.
  unfold load_config. destruct (file st) as [text|] eqn:E.
  - intros H. bind_inv H. injection H as <-. cbn [defaults file saves config with_config].
    auto.
  - intros [= <-]. rewrite E. auto.
Qed.

End Construction.

Section Constructed.

Variable textwrap_fill : string -> string -> string.

Lemma regenerated_sections (value : string -> string -> opt_dict -> result pyval)
  (d : schema) (c text : CP.t) :
  schema_wf d = true ->
  insert_sections textwrap_fill value d [] = Ok c -> CP.written c = Ok text ->
  CP.sections text = OD.keys d.
Proof.
  intros Hwf Hi Hw. apply schema_wf_iff in Hwf. destruct Hwf as [Hnd Hall].
  assert (Hall' : forallb (fun sect : string * OD.t entry => distinct (OD.keys (snd sect))) d
                  = true).
  { apply forallb_forall. intros x Hx. apply NoDup_distinct.
    rewrite Forall_forall in Hall. auto. }
  destruct (insert_sections_stored textwrap_fill value d Hnd Hall' _ _ Hi) as (Hs & _).
  rewrite (written_sections _ _ Hw), Hs. reflexivity.
Qed.

(** X7. A construction that succeeds leaves a file, and the sections of
    the file are those of the schema: those of a file that matched are kept,
    and a file that is created or regenerated is written from the schema. *)
Theorem construction_leaves_the_sections_of_the_schema (st st' : store) :
  schema_wf (defaults st) = true -> config st = [] ->
  handle_config textwrap_fill st = Ok st' ->
  exists text,
    file st' = Some text /\ defaults st' = defaults st
    /\ forall s, In s (CP.sections text) <-> In s (OD.keys (defaults st)).
Proof.
  intros Hwf Hempty H. apply handle_config_inv in H.
  destruct H as (st1 & st2 & H1 & Hload & Hval).
  apply load_config_inv in Hload. destruct Hload as (Hd2 & Hf2 & _ & Hread).
  assert (Hfirst : defaults st1 = defaults st
                   /\ ((file st1 = file st /\ config st1 = [] /\ file st <> None)
                       \/ exists text1, file st1 = Some text1
                                        /\ CP.sections text1 = OD.keys (defaults st))).
  { unfold check_exists in H1. destruct (file st) as [text0|] eqn:Ef.
    - subst st1. split; [reflexivity|]. left. rewrite Ef. repeat split; auto. discriminate.
    - apply create_default_inv in H1.
      destruct H1 as (c1 & text1 & Hi & Hw & Hf1 & _ & Hd1 & _).
      split; [exact Hd1|]. right. exists text1. split; [exact Hf1|].
      rewrite Hempty in Hi. eapply regenerated_sections; eauto. }
  destruct Hfirst as (Hd1 & Hfile1).
  destruct Hval as [(Hm & Hc) | (_ & st3 & Hnew & Hc)].
  - apply check_config_choices_untouched in Hc. destruct Hc as (Hd & Hf & _).
    destruct Hfile1 as [(Hf1 & Hc1 & Hne) | (text1 & Hf1 & Hs1)].
    + destruct (file st1) as [text0|] eqn:Ef1; [|congruence].
      exists text0. split; [congruence|]. split; [congruence|].
      intros s. unfold matches_schema in Hm. apply andb_prop in Hm.
      destruct Hm as [Hm _]. rewrite set_eqb_iff in Hm.
      rewrite Hd2, Hd1 in Hm. rewrite <- Hm.
      rewrite (read_sections_In _ _ _ Hread s). rewrite Hc1. simpl. tauto.
    + exists text1. split; [congruence|]. split; [congruence|].
      intros s. now rewrite Hs1.
  - apply check_config_choices_untouched in Hc. destruct Hc as (Hd & Hf & _).
    apply add_new_config_items_inv in Hnew.
    destruct Hnew as (c & text & Hi & Hw & Hf3 & _ & Hd3 & _).
    exists text. split; [congruence|]. split; [congruence|].
    intros s. rewrite Hd2, Hd1 in Hi.
    now rewrite (regenerated_sections _ _ _ _ Hwf Hi Hw).
Qed.

(** X8. After a construction that succeeds the parser holds every option
    of the schema whose title is no help-text comment, so that a typed read
    of a declared option never fails for a missing section or option. *)
Theorem construction_stores_every_option (st st' : store) (s k : string)
  (items : OD.t entry) (opt : opt_dict) :
  schema_wf (defaults st) = true -> config st = [] ->
  handle_config textwrap_fill st = Ok st' ->
  OD.get (defaults st) s = Some items -> OD.get items k = Some (Item opt) ->
  k <> "helptext" -> is_help_key k = false ->
  stored (config st') s k <> None
  /\ declared_type st' s k = Ok (i_type opt).
Proof.
  intros Hwf Hempty H Hs Hk Hne Hhelp. apply handle_config_inv in H.
  destruct H as (st1 & st2 & H1 & Hload & Hval).
  apply load_config_inv in Hload. destruct Hload as (Hd2 & _ & _ & _).
  assert (Hd1 : defaults st1 = defaults st).
  { destruct (check_exists st); [now subst|].
    apply create_default_inv in H1. destruct H1 as (c1 & text1 & _ & _ & _ & _ & Hd & _).
    exact Hd. }
  assert (Hmain : stored (config st') s k <> None /\ defaults st' = defaults st).
  { destruct Hval as [(Hm & Hc) | (_ & st3 & Hnew & Hc)].
    - pose proof (check_config_choices_presence _ _ Hc s k) as Hp.
      apply check_config_choices_untouched in Hc. destruct Hc as (Hd & _).
      split; [|congruence]. rewrite Hp.
      unfold matches_schema in Hm. apply andb_prop in Hm. destruct Hm as [_ Hm].
      rewrite forallb_forall in Hm. rewrite Hd2, Hd1 in Hm.
      specialize (Hm (s, items) (od_get_In _ _ _ Hs)). cbn [fst snd] in Hm.
      rewrite set_eqb_iff in Hm.
      assert (Hin : In k (option_keys (config st2) s)).
      { apply Hm. unfold declared_keys. apply filter_In. split.
        - eapply od_get_keys; eauto.
        - apply negb_true_iff. now apply String.eqb_neq. }
      unfold option_keys in Hin. apply filter_In in Hin. destruct Hin as [Hin _].
      now apply stored_keys_In.
    - pose proof (check_config_choices_presence _ _ Hc s k) as Hp.
      apply check_config_choices_untouched in Hc. destruct Hc as (Hd & _).
      apply add_new_config_items_inv in Hnew.
      destruct Hnew as (c & text & Hi & _ & _ & Hc3 & Hd3 & _).
      split; [|congruence]. rewrite Hp, Hc3.
      rewrite Hd2, Hd1 in Hi.
      pose proof Hwf as Hwf'. unfold schema_wf in Hwf'. apply andb_prop in Hwf'.
      destruct Hwf' as [Hnd Hall]. apply distinct_NoDup in Hnd.
      destruct (insert_sections_stored textwrap_fill _ _ Hnd Hall _ _ Hi)
        as (_ & _ & Hsome).
      destruct (Hsome s items Hs k Hhelp) as (_ & Hitem).
      destruct (Hitem opt Hne Hk) as (v & _ & ->). discriminate. }
  destruct Hmain as [Hst Hd]. split; [exact Hst|].
  unfold declared_type. rewrite Hd, Hs, Hk. reflexivity.
Qed.

End Constructed.

Lemma construction_sections_example :
  In "global" (CP.sections (file_text drifted_built)).
Proof.
  destruct (construction_leaves_the_sections_of_the_schema fill_short
              drifted_declared drifted_built
              ltac:(vm_compute; reflexivity) ltac:(vm_compute; reflexivity)
              ltac:(vm_compute; reflexivity)) as (text & Hf & _ & Hs).
  assert (Ht : text = file_text drifted_built) by (unfold file_text; now rewrite Hf).
  subst text. apply Hs. vm_compute. auto.
Defined.

Lemma construction_options_example :
  stored (config drifted_declared) "sect" "name" = None
  /\ stored (config drifted_built) "sect" "name" <> None.
Proof.
  split; [reflexivity|].
  exact (proj1 (construction_stores_every_option fill_short
                  drifted_declared drifted_built "sect" "name"
                  (items_of drifted_declared "sect")
                  (option_of drifted_declared "sect" "name")
                  ltac:(vm_compute; reflexivity) ltac:(vm_compute; reflexivity)
                  ltac:(vm_compute; reflexivity) ltac:(vm_compute; reflexivity)
                  ltac:(vm_compute; reflexivity) ltac:(discriminate)
                  ltac:(vm_compute; reflexivity))).
Defined.

(** ** A second construction on the file of the first *)

Lemma read_ok (text : CP.t) :
  Forall (fun sect : string * CP.options => fst sect <> CP.default_section) text ->
  forall c, exists c', CP.read c text = Ok c'.
Proof.
  unfold CP.read. induction 1 as [|[s0 opts] text Hs _ IH]; intros c.
  - exists c. reflexivity.
  - cbn [for_each]. unfold CP.read_section at 1. cbn [fst] in Hs.
    apply String.eqb_neq in Hs. rewrite Hs. cbn [bind]. apply IH.
Qed.

Section Again.

Variable textwrap_fill : string -> string -> string.

Lemma insert_sections_entries (value : string -> string -> opt_dict -> result pyval)
  (d : schema) :
  forall c c',
    insert_sections textwrap_fill value d c = Ok c' ->
    forall s items, In (s, items) d ->
      s <> CP.default_section
      /\ forall k e, In (k, e) items -> k = "helptext" \/ exists opt, e = Item opt.
Proof.
  unfold insert_sections. induction d as [|[s0 items0] d IH]; intros c c' H s items Hin;
    [contradiction|].
  cbn [for_each] in H. bind_inv H. destruct Hin as [[= -> ->] | Hin];
    [|eapply IH; eauto].
  clear IH H. bind_inv Ha. bind_inv Ha. split.
  - unfold insert_config_section in Ha1. bind_inv Ha1.
    unfold CP.add_section in Ha2.
    destruct (String.eqb s CP.default_section) eqn:E; [discriminate|].
    now apply String.eqb_neq.
  - clear Ha0 Ha1. revert a1 a Ha. unfold insert_items.
    induction items as [|[k0 e0] items IHi]; intros c1 c2 H k e Hin; [contradiction|].
    cbn [for_each] in H. bind_inv H. destruct Hin as [[= -> ->] | Hin];
      [|eapply IHi; eauto].
    destruct (String.eqb k "helptext") eqn:E; [left; now apply String.eqb_eq|].
    destruct e as [info|opt]; [discriminate|]. right. eauto.
Qed.

(** The file written from the schema, loaded by a new object, matches the
    schema. *)
Lemma regenerated_matches (value : string -> string -> opt_dict -> result pyval)
  (d : schema) (c text c2 : CP.t) :
  schema_wf d = true -> titles_plain d = true ->
  insert_sections textwrap_fill value d [] = Ok c -> CP.written c = Ok text ->
  CP.read [] text = Ok c2 ->
  matches_schema c2 d = true.
Proof.
  intros Hwf Hplain Hi Hw Hr.
  pose proof (regenerated_sections textwrap_fill _ _ _ _ Hwf Hi Hw) as Hsec.
  pose proof Hwf as Hwf'. unfold schema_wf in Hwf'. apply andb_prop in Hwf'.
  destruct Hwf' as [Hnd Hall]. apply distinct_NoDup in Hnd.
  destruct (insert_sections_stored textwrap_fill _ _ Hnd Hall _ _ Hi) as (_ & _ & Hsome).
  assert (Hwfc : parser_wf c).
  { eapply parser_wf_insert_sections; [exact Hi | apply parser_wf_nil]. }
  pose proof (written_wf _ _ Hw Hwfc) as Hwft.
  assert (Hst : forall s k, stored c2 s k = stored text s k).
  { intros s k. rewrite (read_stored text Hwft _ _ Hr s k).
    destruct (stored text s k); reflexivity. }
  unfold matches_schema. apply andb_true_iff. split.
  - apply set_eqb_iff. intros s. rewrite (read_sections_In _ _ _ Hr s), Hsec.
    simpl. tauto.
  - apply forallb_forall. intros [s items] Hin. cbn [fst snd].
    pose proof (od_In_get _ _ _ Hnd Hin) as Hs.
    destruct (insert_sections_entries _ _ _ _ Hi s items Hin) as (_ & Hentries).
    unfold titles_plain in Hplain. rewrite forallb_forall in Hplain.
    specialize (Hplain (s, items) Hin). cbn [snd] in Hplain.
    rewrite forallb_forall in Hplain.
    apply set_eqb_iff. intros k. unfold option_keys, declared_keys.
    rewrite !filter_In, stored_keys_In, Hst, !negb_true_iff. split.
    + intros [Hne Hhelp].
      destruct (written_stored_inv _ _ s k Hw Hne) as (Hpk & Hc).
      destruct (Hsome s items Hs k Hhelp) as (Hrest & _).
      destruct (String.eqb k "helptext") eqn:Ek.
      * apply String.eqb_eq in Ek. exfalso. apply Hc. auto.
      * split; [|reflexivity].
        destruct (OD.get items k) as [e|] eqn:Eg; [eapply od_get_keys; eauto|].
        exfalso. apply Hc. auto.
    + intros [Hin' Hk]. apply String.eqb_neq in Hk.
      destruct (OD.get items k) as [e|] eqn:Eg;
        [|apply od_get_none in Eg; contradiction].
      pose proof (od_get_In _ _ _ Eg) as Hine.
      destruct (Hentries k e Hine) as [Hh | (opt & ->)]; [contradiction|].
      pose proof (Hplain (k, Item opt) Hine) as Hp. cbn [fst] in Hp.
      apply orb_true_iff in Hp. destruct Hp as [Hp|Hp];
        [apply String.eqb_eq in Hp; contradiction|].
      pose proof (plain_not_help k Hp) as Hhelp.
      destruct (Hsome s items Hs k Hhelp) as (_ & Hitem).
      destruct (Hitem opt Hk Eg) as (v & _ & Hv).
      pose proof (written_stored _ _ s k Hw Hp) as Hws. rewrite Hv in Hws.
      destruct Hws as (v' & _ & ->). split; [discriminate | exact Hhelp].
Qed.

Lemma regenerated_reads (value : string -> string -> opt_dict -> result pyval)
  (d : schema) (c text : CP.t) :
  schema_wf d = true ->
  insert_sections textwrap_fill value d [] = Ok c -> CP.written c = Ok text ->
  exists c2, CP.read [] text = Ok c2.
Proof.
  intros Hwf Hi Hw. apply read_ok. apply Forall_forall. intros [s opts] Hin. cbn [fst].
  assert (Hs : In s (CP.sections text)) by (apply (in_map fst) in Hin; exact Hin).
  rewrite (regenerated_sections textwrap_fill _ _ _ _ Hwf Hi Hw) in Hs.
  unfold OD.keys in Hs. apply in_map_iff in Hs. destruct Hs as ([s' items] & <- & Hin').
  exact (proj1 (insert_sections_entries _ _ _ _ Hi s' items Hin')).
Qed.

(** X9. A second construction does not rewrite: when a construction
    succeeded and every option title of the schema is a plain name, a new
    object with the same schema on the file it left loads the file, finds no
    drift, and so validates the choices without saving. *)
Theorem second_construction_does_not_rewrite (st st' : store) :
  schema_wf (defaults st) = true -> titles_plain (defaults st) = true ->
  config st = [] ->
  handle_config textwrap_fill st = Ok st' ->
  exists st2,
    load_config (again st') = Ok st2
    /\ check_config_change st2 = Ok false
    /\ handle_config textwrap_fill (again st') = check_config_choices st2
    /\ forall st'', handle_config textwrap_fill (again st') = Ok st'' ->
                    file st'' = file st' /\ saves st'' = 0.
Proof.
  intros Hwf Hplain Hempty H.
  assert (Hkey : exists text c2,
             file st' = Some text /\ defaults st' = defaults st
             /\ CP.read [] text = Ok c2
             /\ matches_schema c2 (defaults st) = true).
  { apply handle_config_inv in H. destruct H as (st1 & st2 & H1 & Hload & Hval).
    apply load_config_inv in Hload. destruct Hload as (Hd2 & Hf2 & _ & Hread).
    destruct Hval as [(Hm & Hc) | (_ & st3 & Hnew & Hc)].
    - apply check_config_choices_untouched in Hc. destruct Hc as (Hd & Hf & _).
      unfold check_exists in H1. destruct (file st) as [text0|] eqn:Ef.
      + subst st1. rewrite Ef in Hread, Hf2. rewrite Hempty in Hread.
        exists text0, (config st2). repeat split; congruence.
      + apply create_default_inv in H1.
        destruct H1 as (c1 & text1 & Hi & Hw & Hf1 & _ & Hd1 & _).
        rewrite Hempty in Hi.
        destruct (regenerated_reads _ _ _ _ Hwf Hi Hw) as (c2 & Hr).
        exists text1, c2. split; [congruence|]. split; [congruence|].
        split; [exact Hr|]. eapply regenerated_matches; eauto.
    - apply check_config_choices_untouched in Hc. destruct Hc as (Hd & Hf & _).
      assert (Hd1 : defaults st1 = defaults st).
      { destruct (check_exists st); [now subst|].
        apply create_default_inv in H1.
        destruct H1 as (c1 & text1 & _ & _ & _ & _ & Hd1 & _). exact Hd1. }
      apply add_new_config_items_inv in Hnew.
      destruct Hnew as (c & text & Hi & Hw & Hf3 & _ & Hd3 & _).
      rewrite Hd2, Hd1 in Hi.
      destruct (regenerated_reads _ _ _ _ Hwf Hi Hw) as (c2 & Hr).
      exists text, c2. split; [congruence|]. split; [congruence|].
      split; [exact Hr|]. eapply regenerated_matches; eauto. }
  destruct Hkey as (text & c2 & Hf & Hd & Hr & Hm).
  exists (with_config (again st') c2).
  assert (Hload : load_config (again st') = Ok (with_config (again st') c2)).
  { unfold load_config. cbn [file again config]. rewrite Hf, Hr. reflexivity. }
  assert (Hchange : check_config_change (with_config (again st') c2) = Ok false).
  { apply check_config_change_false. cbn [config with_config defaults again].
    now rewrite Hd. }
  assert (Hh : handle_config textwrap_fill (again st')
               = check_config_choices (with_config (again st') c2)).
  { unfold handle_config, check_exists. cbn [file again]. rewrite Hf. cbn [negb bind].
    rewrite Hload. cbn [bind]. unfold validate_config. rewrite Hchange. reflexivity. }
  split; [exact Hload|]. split; [exact Hchange|]. split; [exact Hh|].
  intros st'' H2. rewrite Hh in H2. apply check_config_choices_untouched in H2.
  destruct H2 as (_ & Hf2 & Hs2 & _). split; [exact Hf2 | exact Hs2].
Qed.

End Again.

Lemma second_construction_example :
  saves first_built = 1
  /\ saves (built (handle_config fill_short (again first_built))) = 0
  /\ file (built (handle_config fill_short (again first_built))) = file first_built.
Proof.
  split; [reflexivity|].
  destruct (second_construction_does_not_rewrite fill_short example_declared first_built
              ltac:(vm_compute; reflexivity) ltac:(vm_compute; reflexivity)
              ltac:(vm_compute; reflexivity) ltac:(vm_compute; reflexivity))
    as (st2 & _ & _ & _ & Hsame).
  destruct (Hsame (built (handle_config fill_short (again first_built)))
              ltac:(vm_compute; reflexivity)) as [Hf Hs].
  split; [exact Hs | exact Hf].
Defined.

(** ** Reads that find no value *)

(** X10. What [get] does where there is nothing to parse.  An option the
    schema does not declare is a key error, whatever the parser holds.  A
    declared option without value in the parser (a bare name in the file) is
    an empty list for a list option and the absent value for a text option,
    and an error for a boolean, an integer or a float.  A declared option
    that the parser does not hold is the parser's missing section or
    missing option error. *)
Theorem get_without_a_value (st : store) (section opt : string) :
  (OD.get (items_of st section) opt = None -> get st section opt = Raise KeyError)
  /\ (forall ty, declared_type st section opt = Ok ty ->
        stored (config st) section opt = Some None ->
        get st section opt
        = match ty with
          | Dbool => Raise AttributeError
          | Dint | Dfloat => Raise TypeError
          | Dlist => Ok (VList [])
          | Dstr | Dother _ => Ok VNone
          end)
  /\ (forall ty, declared_type st section opt = Ok ty ->
        stored (config st) section opt = None ->
        section <> CP.default_section ->
        get st section opt
        = Raise (if CP.has_section (config st) section
                 then NoOptionError else NoSectionError)).
Proof.
  split; [|split].
  - unfold items_of, get, declared_type.
    destruct (OD.get (defaults st) section) as [items|]; [|reflexivity].
    now intros ->.
  - intros ty Hty Hst. unfold get. rewrite Hty. cbn [bind].
    assert (Hget : CP.get (config st) section opt = Ok None)
      by (rewrite (stored_some _ _ _ _ Hst); reflexivity).
    unfold CP.getboolean, CP.getint, CP.getfloat, _parse_list.
    destruct ty; rewrite Hget; reflexivity.
  - intros ty Hty Hst Hne. unfold get. rewrite Hty. cbn [bind].
    assert (Hget : CP.get (config st) section opt
                   = Raise (if CP.has_section (config st) section
                            then NoOptionError else NoSectionError)).
    { unfold CP.get, CP.has_section, OD.mem. unfold stored in Hst.
      destruct (OD.get (config st) section) as [d|].
      - now rewrite Hst.
      - apply String.eqb_neq in Hne. now rewrite Hne. }
    unfold CP.getboolean, CP.getint, CP.getfloat, _parse_list.
    destruct ty; rewrite Hget; reflexivity.
Qed.

Lemma get_bare_flag :
  stored (config drifted_declared) "sect" "flag" = None
  /\ get (built (load_config drifted_declared)) "sect" "flag" = Raise AttributeError
  /\ get drifted_declared "sect" "flag" = Raise NoSectionError.
Proof.
  split; [reflexivity|].
  destruct (get_without_a_value (built (load_config drifted_declared)) "sect" "flag")
    as (_ & Hbare & _).
  destruct (get_without_a_value drifted_declared "sect" "flag") as (_ & _ & Hmiss).
  split.
  - exact (Hbare Dbool ltac:(vm_compute; reflexivity) ltac:(vm_compute; reflexivity)).
  - exact (Hmiss Dbool ltac:(vm_compute; reflexivity) ltac:(vm_compute; reflexivity)
             ltac:(discriminate)).
Defined.

(** ** The requested section comes last *)

Lemma for_each_app {A S : Type} (body : A -> S -> result S) (xs ys : list A) (s : S) :
  for_each body (xs ++ ys) s = (s1 <- for_each body xs s ;; for_each body ys s1).
Proof.
  revert s. induction xs as [|x xs IH]; intros s; [reflexivity|].
  cbn [app for_each]. destruct (body x s) as [s'|e]; cbn [bind]; [apply IH | reflexivity].
Qed.

(** X11. The requested section has the last word in [config_dict]: a key it
    holds, that is no comment, is mapped to the typed value it has in the
    requested section, also when a global section holds the same key. *)
Theorem own_section_takes_precedence (st : store) (conf : OD.t pyval) (k : string) :
  config_dict st = Ok conf ->
  stored (config st) (section st) k <> None -> is_comment_key k = false ->
  exists v, get st (section st) k = Ok v /\ OD.get conf k = Some v.
Proof.
  unfold config_dict. intros H Hk Hc. rewrite for_each_app in H. bind_inv H.
  cbn [for_each] in H. bind_inv H. injection H as <-. clear Ha.
  assert (Hs : Str.mem (section st) (CP.sections (config st)) = true).
  { apply mem_In. unfold stored in Hk. unfold CP.sections.
    destruct (OD.get (config st) (section st)) eqn:E; [|congruence].
    eapply od_get_keys; eauto. }
  rewrite Hs in Ha0. cbn [negb] in Ha0. bind_inv Ha0.
  apply proxy_keys_inv in Ha. destruct Ha as [-> _].
  apply stored_keys_In in Hk.
  set (done := fun c : OD.t pyval =>
                 exists v, get st (section st) k = Ok v /\ OD.get c k = Some v).
  assert (Hkeep : forall keys c c',
             for_each (fun key conf0 =>
                         if is_comment_key key then Ok conf0
                         else v <- get st (section st) key ;; Ok (OD.set conf0 key v))
               keys c = Ok c' ->
             (done c \/ In k keys) -> done c').
  { induction keys as [|key keys IH]; intros c c' Hl Hd.
    - simpl in Hl. injection Hl as <-. destruct Hd as [Hd|[]]. exact Hd.
    - cbn [for_each] in Hl. bind_inv Hl. apply (IH _ _ Hl). clear IH Hl.
      destruct (string_dec key k) as [->|Hne].
      + left. rewrite Hc in Ha. bind_inv Ha. injection Ha as <-.
        exists a2. split; [exact Ha1 | apply od_get_set_same].
      + destruct Hd as [(v & Hv & Hg)|[Heq|Hin]]; [|contradiction|now right].
        left. exists v. split; [exact Hv|].
        destruct (is_comment_key key); [now injection Ha as <-|].
        bind_inv Ha. injection Ha as <-. now rewrite od_get_set_other. }
  exact (Hkeep _ _ _ Ha0 (or_intror Hk)).
Qed.

Lemma own_section_example :
  OD.get (read_dict (config_dict abc_validated)) "multi" = Some (VList ["a"; "c"]).
Proof.
  destruct (own_section_takes_precedence abc_validated
              (read_dict (config_dict abc_validated)) "multi"
              ltac:(vm_compute; reflexivity) ltac:(vm_compute; discriminate)
              ltac:(vm_compute; reflexivity)) as (v & Hg & Hv).
  vm_compute in Hg. injection Hg as <-. exact Hv.
Defined.

(** ** The repaired selection *)

Lemma split_on_absent (sep : ascii -> bool) (s : string) :
  existsb sep (list_ascii_of_string s) = false -> split_on sep s = [s].
Proof.
  induction s as [|c r IH]; [reflexivity|].
  cbn [list_ascii_of_string existsb split_on]. intros H.
  apply orb_false_iff in H. destruct H as [Hc Hr]. now rewrite (IH Hr), Hc.
Qed.

Lemma split_on_app (sep : ascii -> bool) (x s : string) (c : ascii) :
  existsb sep (list_ascii_of_string x) = false -> sep c = true ->
  split_on sep (x ++ String c s) = x :: split_on sep s.
Proof.
  intros Hx Hc. induction x as [|c0 x IH].
  - cbn [append split_on]. destruct (split_on_cons sep s) as (h & t & E).
    now rewrite E, Hc.
  - cbn [list_ascii_of_string existsb] in Hx. apply orb_false_iff in Hx.
    destruct Hx as [H0 Hx]. cbn [append split_on]. rewrite (IH Hx).
    now rewrite H0.
Qed.

Lemma is_word_inv (x : string) :
  is_word x = true ->
  Str.truthy x = true /\ no_space x = true
  /\ existsb is_comma (list_ascii_of_string x) = false.
Proof.
  unfold is_word. intros H. apply andb_prop in H. destruct H as [H Hc].
  apply andb_prop in H. destruct H as [Ht Hs]. apply negb_true_iff in Hc. auto.
Qed.

Lemma existsb_app_string (p : ascii -> bool) (a b : string) :
  existsb p (list_ascii_of_string (a ++ b))
  = existsb p (list_ascii_of_string a) || existsb p (list_ascii_of_string b).
Proof.
  induction a as [|c a IH]; [reflexivity|].
  cbn [append list_ascii_of_string existsb]. now rewrite IH, orb_assoc.
Qed.

Lemma strip_space_word (x : string) :
  no_space x = true -> Str.strip (String " " x) = x.
Proof.
  intros H. unfold Str.strip. cbn [Str.lstrip].
  change (Str.is_space " ") with true. cbv iota.
  now apply strip_no_space.
Qed.

(** The tokens after the first, each written after a comma and a space,
    are read back as they are. *)
Lemma parse_rest (l : list string) (y : string) :
  Forall (fun x => is_word x = true /\ Str.lower x = x) (y :: l) ->
  map (fun token => Str.lower (Str.strip token))
    (split_on is_comma (String " " (concat ", " (y :: l))))
  = y :: l.
Proof.
  revert y. induction l as [|z l IH]; intros y H.
  - inversion H as [|? ? [Hw Hl] _]; subst.
    apply is_word_inv in Hw. destruct Hw as (_ & Hs & Hc).
    cbn [concat]. rewrite split_on_absent by (cbn; exact Hc).
    cbn [map]. now rewrite (strip_space_word _ Hs), Hl.
  - inversion H as [|? ? [Hw Hl] Hrest]; subst.
    apply is_word_inv in Hw. destruct Hw as (_ & Hs & Hc).
    change (concat ", " (y :: z :: l))
      with (y ++ String "," (String " " (concat ", " (z :: l))))%string.
    change (String " " (y ++ String "," (String " " (concat ", " (z :: l)))))
      with (String " " y ++ String "," (String " " (concat ", " (z :: l))))%string.
    rewrite split_on_app; [|cbn; exact Hc|reflexivity].
    cbn [map]. rewrite (IH z Hrest), (strip_space_word _ Hs), Hl. reflexivity.
Qed.

Lemma no_space_existsb (x : string) :
  no_space x = true -> existsb Str.is_space (list_ascii_of_string x) = false.
Proof.
  unfold no_space. induction (list_ascii_of_string x) as [|c l IH]; [reflexivity|].
  cbn [forallb existsb]. intros H. apply andb_prop in H. destruct H as [Hc Hl].
  apply negb_true_iff in Hc. now rewrite Hc, IH.
Qed.

(** Words joined by a comma and a space are read back as they are. *)
Lemma parse_joined_words (l : list string) :
  Forall (fun x => is_word x = true /\ Str.lower x = x) l ->
  spec_parse_list (Str.join ", " l) = l.
Proof.
  unfold Str.join. destruct l as [|x [|y l]]; intros H.
  - reflexivity.
  - inversion H as [|? ? [Hw Hl] _]; subst.
    apply is_word_inv in Hw. destruct Hw as (Ht & Hs & Hc).
    cbn [concat]. unfold spec_parse_list.
    destruct x as [|c r]; [discriminate Ht|].
    change (String.eqb (String c r) "") with false. cbv iota.
    rewrite Hc, (split_on_absent _ _ (no_space_existsb _ Hs)).
    cbn [filter Str.truthy map]. now rewrite (strip_no_space _ Hs), Hl.
  - inversion H as [|? ? [Hw Hl] Hrest]; subst.
    apply is_word_inv in Hw. destruct Hw as (Ht & Hs & Hc).
    change (concat ", " (x :: y :: l))
      with (x ++ String "," (String " " (concat ", " (y :: l))))%string.
    unfold spec_parse_list.
    destruct x as [|c r]; [discriminate Ht|].
    change (String.eqb (String c r ++ String "," (String " " (concat ", " (y :: l)))) "")
      with false. cbv iota.
    rewrite existsb_app_string.
    change (existsb is_comma
              (list_ascii_of_string (String "," (String " " (concat ", " (y :: l))))))
      with true.
    rewrite orb_true_r. rewrite split_on_app by (exact Hc || reflexivity).
    cbn [map]. rewrite (parse_rest l y Hrest), (strip_no_space _ Hs), Hl. reflexivity.
Qed.

Lemma lower_char_idem (c : ascii) :
  Str.lower_char (Str.lower_char c) = Str.lower_char c.
Proof. destruct c as [[] [] [] [] [] [] [] []]; reflexivity. Qed.

Lemma lower_idem (s : string) : Str.lower (Str.lower s) = Str.lower s.
Proof.
  unfold Str.lower. induction s as [|c r IH]; [reflexivity|].
  cbn [Str.map_chars]. now rewrite lower_char_idem, IH.
Qed.

Lemma parse_list_lower (st : store) (s k : string) (tokens : list string) :
  _parse_list st s k = Ok tokens -> Forall (fun t => Str.lower t = t) tokens.
Proof.
  unfold _parse_list. intros H. bind_inv H.
  destruct a as [[|c r]|]; try (injection H as <-; constructor).
  injection H as <-. apply Forall_forall. intros t Ht.
  apply in_map_iff in Ht. destruct Ht as (piece & <- & _). apply lower_idem.
Qed.

Lemma set_some_plain (c c' : CP.t) (s k v : string) :
  CP.set c s k (Some v) = Ok c' -> CP.interpolated v = false.
Proof.
  unfold CP.set. destruct (CP.interpolated v); [discriminate | reflexivity].
Qed.

(** X12. After the validation of the choices, a multi-choice option whose
    declared choices are single words (no white space, no comma, not empty)
    holds declared choices only: the list-parsing rule reads from the value
    the parser then holds tokens that are all among the choices, so that a
    second validation has nothing to repair for it. *)
Theorem validated_selection_is_valid (st st' : store) (section item : string)
  (items : OD.t entry) (opt : opt_dict) :
  schema_wf (defaults st) = true ->
  OD.get (defaults st) section = Some items ->
  OD.get items item = Some (Item opt) ->
  item <> "helptext" -> i_type opt = Dlist -> i_choices opt <> [] ->
  forallb is_word (i_choices opt) = true ->
  check_config_choices st = Ok st' ->
  exists tokens,
    _parse_list st' section item = Ok tokens
    /\ forallb (is_valid (i_choices opt)) tokens = true.
Proof.
  intros Hwf Hs Hi Hk Hty Hch Hwords H.
  destruct (check_config_choices_isolate _ _ _ _ _ _ Hwf Hs Hi H)
    as (st1 & st2 & Hstep & [Ha1 _] & [Hb1 _]). cbn [fst snd] in *.
  destruct (check_choice_multi _ _ _ _ _ Hk Hty Hch Hstep) as (tokens & Hp & Hres).
  destruct (existsb (fun val => negb (is_valid (i_choices opt) val)) tokens) eqn:Einv.
  - destruct Hres as [Hv _].
    set (valid := filter (is_valid (i_choices opt)) tokens) in *.
    assert (Hplain : CP.interpolated (Str.join ", " valid) = false).
    { apply check_choice_changes in Hstep.
      destruct Hstep as [-> | (o & w & v & c & _ & _ & _ & _ & Hset & ->)].
      - unfold _parse_list in Hp. bind_inv Hp.
        destruct (get_stored _ _ _ _ Ha) as (raw & Hraw & Hval).
        rewrite Hv in Hraw. injection Hraw as <-. simpl in Hval.
        destruct (CP.interpolated (Str.join ", " valid)); [discriminate | reflexivity].
      - cbn [fst config with_config warn] in Hv, Hset.
        rewrite (stored_set_same _ _ _ _ _ Hset) in Hv. injection Hv as ->.
        eapply set_some_plain; eauto. }
    assert (Hget : CP.get (config st') section item = Ok (Some (Str.join ", " valid))).
    { rewrite Hb1 in Hv. rewrite (stored_some _ _ _ _ Hv). simpl. now rewrite Hplain. }
    exists valid. split.
    + rewrite (parse_list_of_get _ _ _ _ Hget). f_equal. apply parse_joined_words.
      apply Forall_forall. intros t Ht. unfold valid in Ht. apply filter_In in Ht.
      destruct Ht as [Hin Hvalid]. split.
      * rewrite forallb_forall in Hwords. apply Hwords.
        unfold is_valid in Hvalid. now apply mem_In.
      * pose proof (parse_list_lower _ _ _ _ Hp) as Hl.
        rewrite Forall_forall in Hl. auto.
    + apply forallb_forall. intros t Ht. unfold valid in Ht. apply filter_In in Ht.
      apply Ht.
  - subst st2. exists tokens. split.
    + eapply parse_list_agree; [|exact Hp]. exact Hb1.
    + apply forallb_forall. intros t Ht.
      destruct (is_valid (i_choices opt) t) eqn:E; [reflexivity|].
      assert (Hex : existsb (fun val => negb (is_valid (i_choices opt) val)) tokens = true).
      { apply existsb_exists. exists t. split; [exact Ht|]. now rewrite E. }
      congruence.
Qed.

Lemma validated_selection_abc :
  _parse_list abc_validated "sect" "multi" = Ok ["a"; "c"].
Proof.
  destruct (validated_selection_is_valid abc_loaded abc_validated "sect" "multi"
              (items_of abc_loaded "sect") (option_of abc_loaded "sect" "multi")
              ltac:(vm_compute; reflexivity) ltac:(vm_compute; reflexivity)
              ltac:(vm_compute; reflexivity) ltac:(discriminate)
              ltac:(vm_compute; reflexivity) ltac:(discriminate)
              ltac:(vm_compute; reflexivity) ltac:(vm_compute; reflexivity))
    as (tokens & Hp & _).
  rewrite Hp. vm_compute in Hp. injection Hp as <-. reflexivity.
Defined.

(** ** The help texts in the file *)

Lemma contains_app (c : ascii) (a b : string) :
  Str.contains c (a ++ b) = Str.contains c a || Str.contains c b.
Proof.
  induction a as [|c' a IH]; [reflexivity|].
  cbn [append Str.contains]. now rewrite IH, orb_assoc.
Qed.

Lemma contains_substring (c : ascii) (s : string) (n m : nat) :
  Str.contains c s = false -> Str.contains c (substring n m s) = false.
Proof.
  revert n m. induction s as [|c' s IH]; intros n m H.
  - now destruct n, m.
  - cbn [Str.contains] in H. apply orb_false_iff in H. destruct H as [Hc Hs].
    destruct n as [|n]; [destruct m as [|m]|]; cbn [substring Str.contains]; auto.
    now rewrite Hc, IH.
Qed.

Lemma contains_replace (c d : ascii) (by_ s : string) :
  Str.contains c by_ = false -> Str.contains c s = false ->
  Str.contains c (Str.replace d by_ s) = false.
Proof.
  intros Hby. induction s as [|c' s IH]; [reflexivity|].
  cbn [Str.contains Str.replace]. intros H. apply orb_false_iff in H.
  destruct H as [Hc Hs]. destruct (Ascii.eqb d c').
  - now rewrite contains_app, Hby, IH.
  - cbn [Str.contains]. now rewrite Hc, IH.
Qed.

Lemma upper_char_eqb (c : ascii) :
  Ascii.eqb (ascii_of_nat 13) (Str.upper_char c) = Ascii.eqb (ascii_of_nat 13) c
  /\ Ascii.eqb Str.newline (Str.upper_char c) = Ascii.eqb Str.newline c.
Proof. destruct c as [[] [] [] [] [] [] [] []]; split; reflexivity. Qed.

Lemma contains_upper (s : string) :
  Str.contains (ascii_of_nat 13) (Str.upper s) = Str.contains (ascii_of_nat 13) s.
Proof.
  unfold Str.upper. induction s as [|c s IH]; [reflexivity|].
  cbn [Str.map_chars Str.contains]. now rewrite IH, (proj1 (upper_char_eqb c)).
Qed.

Lemma upper_app (a b : string) : Str.upper (a ++ b) = (Str.upper a ++ Str.upper b)%string.
Proof.
  unfold Str.upper. induction a as [|c a IH]; [reflexivity|].
  cbn [append Str.map_chars]. now rewrite IH.
Qed.

(** Upper-casing the text leaves the line breaks and the comment marks where
    they are. *)
Lemma upper_replace (body : string) :
  Str.upper (Str.replace Str.newline (nl ++ "# ") body)
  = Str.replace Str.newline (nl ++ "# ") (Str.upper body).
Proof.
  induction body as [|c body IH]; [reflexivity|].
  change (Str.upper (String c body)) with (String (Str.upper_char c) (Str.upper body)).
  cbn [Str.replace]. rewrite (proj2 (upper_char_eqb c)).
  destruct (Ascii.eqb Str.newline c).
  - rewrite upper_app, IH. reflexivity.
  - change (Str.upper (String c ?x)) with (String (Str.upper_char c) (Str.upper x)).
    now rewrite IH.
Qed.

Lemma hash_is_comment_line (l : string) : CP.is_comment_line ("# " ++ l) = true.
Proof.
  unfold CP.is_comment_line, Str.strip.
  change (Str.lstrip ("# " ++ l)) with (String "#" (String " " l)).
  cbn [Str.rstrip].
  destruct (Str.rstrip l); [|apply orb_true_iff; left; apply orb_true_iff; right;
                             reflexivity].
  destruct (Str.is_space " "); apply orb_true_iff; left; apply orb_true_iff; right;
    reflexivity.
Qed.

Lemma split_mark (r h : string) (t : list string) :
  Str.split Str.newline r = h :: t ->
  Str.split Str.newline (String "#" (String " " r)) = String "#" (String " " h) :: t.
Proof.
  intros E. cbn [Str.split].
  change (Ascii.eqb "#" Str.newline) with false.
  change (Ascii.eqb " " Str.newline) with false. cbv iota.
  now rewrite E.
Qed.

Lemma split_hash (r h : string) (t : list string) :
  Str.split Str.newline r = h :: t ->
  Str.split Str.newline (String Str.newline (String "#" (String " " r)))
  = "" :: String "#" (String " " h) :: t.
Proof.
  intros E. change (Str.split Str.newline (String Str.newline (String "#" (String " " r))))
    with ("" :: Str.split Str.newline (String "#" (String " " r))).
  now rewrite (split_mark _ _ _ E).
Qed.

(** A text whose line breaks are each followed by a comment mark is, from
    its second line on, made of comment lines. *)
Lemma commented_lines (body : string) :
  exists h t,
    Str.split Str.newline (Str.replace Str.newline (nl ++ "# ") body) = h :: t
    /\ forallb CP.is_comment_line t = true.
Proof.
  induction body as [|c body (h & t & E & Ht)].
  - exists "", []. split; reflexivity.
  - cbn [Str.replace]. destruct (Ascii.eqb Str.newline c) eqn:Ec.
    + change (nl ++ "# " ++ Str.replace Str.newline (nl ++ "# ") body)%string
        with (String Str.newline
                (String "#" (String " " (Str.replace Str.newline (nl ++ "# ") body)))).
      exists "", (("# " ++ h)%string :: t). split.
      * apply (split_hash _ _ _ E).
      * cbn [forallb]. now rewrite hash_is_comment_line.
    + exists (String c h), t. split; [|exact Ht].
      cbn [Str.split]. rewrite Ascii.eqb_sym, Ec, E. reflexivity.
Qed.

Lemma commented_text (body : string) :
  forallb CP.is_comment_line
    (Str.split Str.newline ("# " ++ Str.replace Str.newline (nl ++ "# ") body)) = true.
Proof.
  destruct (commented_lines body) as (h & t & E & Ht).
  change ("# " ++ Str.replace Str.newline (nl ++ "# ") body)%string
    with (String "#" (String " " (Str.replace Str.newline (nl ++ "# ") body))).
  rewrite (split_mark _ _ _ E). cbn [forallb]. rewrite Ht.
  now rewrite (hash_is_comment_line h : CP.is_comment_line (String "#" (String " " h)) = true).
Qed.

Section HelpTexts.

Variable textwrap_fill : string -> string -> string.

Lemma formatted_no_return (lines : list string) (acc : string) :
  forallb (fun hlp => negb (Str.contains (ascii_of_nat 13) (format_line textwrap_fill hlp)))
    lines = true ->
  Str.contains (ascii_of_nat 13) acc = false ->
  Str.contains (ascii_of_nat 13)
    (fold_left (fun formatted hlp => (formatted ++ format_line textwrap_fill hlp)%string)
       lines acc) = false.
Proof.
  revert acc. induction lines as [|l lines IH]; intros acc Hl H; [exact H|].
  cbn [forallb] in Hl. apply andb_prop in Hl. destruct Hl as [H1 H2].
  apply negb_true_iff in H1.
  cbn [fold_left]. apply IH; [exact H2|]. now rewrite contains_app, H, H1.
Qed.

Lemma format_help_commented (helptext : string) (is_section : bool) :
  wraps_plainly textwrap_fill helptext = true ->
  CP.comment_block (format_help textwrap_fill helptext is_section) = true.
Proof.
  intros Hw. unfold format_help.
  set (formatted := fold_left _ _ _).
  assert (Hbody : Str.contains (ascii_of_nat 13) (drop_last formatted) = false).
  { unfold drop_last. apply contains_substring. now apply formatted_no_return. }
  set (body := drop_last formatted) in *. clearbody body. clear formatted.
  assert (Htext : Str.contains (ascii_of_nat 13)
                    ("# " ++ Str.replace Str.newline (nl ++ "# ") body) = false).
  { rewrite contains_app. now rewrite contains_replace. }
  unfold CP.comment_block. destruct is_section.
  - rewrite replace_absent by now rewrite contains_upper.
    rewrite upper_app, upper_replace. apply commented_text.
  - rewrite replace_absent.
    + change (Str.split Str.newline
                (nl ++ "# " ++ Str.replace Str.newline (nl ++ "# ") body))
        with ("" :: Str.split Str.newline
                      ("# " ++ Str.replace Str.newline (nl ++ "# ") body)).
      cbn [forallb]. now rewrite commented_text.
    + change (nl ++ "# " ++ Str.replace Str.newline (nl ++ "# ") body)%string
        with (String Str.newline ("# " ++ Str.replace Str.newline (nl ++ "# ") body)).
      cbn [Str.contains]. now rewrite Htext.
Qed.

(** X13. Whatever the help text, [format_help] gives a text that the written
    file holds as blank and comment lines only, provided the wrapping of its
    lines brings in no carriage return: each line of the result starts with
    the comment mark, for a section (upper-cased) and for an option (after
    an empty line) alike.  So the written file has no option for it, and
    the drift check takes it for a help text, not for an option. *)
Theorem format_help_is_a_comment_block (helptext : string) (is_section : bool) :
  wraps_plainly textwrap_fill helptext = true ->
  let key := format_help textwrap_fill helptext is_section in
  CP.comment_block key = true
  /\ CP.written_options [(key, None)] = Ok []
  /\ is_help_key key = true.
Proof.
  intros Hw key.
  assert (Hc : CP.comment_block key = true) by now apply format_help_commented.
  split; [exact Hc|]. split.
  - cbn [CP.written_options]. now rewrite Hc.
  - apply format_help_is_help_key.
Qed.

End HelpTexts.

Lemma format_help_example :
  CP.comment_block
    (format_help fill_short ("Options of the model" ++ nl ++ "in use") false) = true
  /\ CP.written_options
       [(format_help fill_short ("Options of the model" ++ nl ++ "in use") false, None)]
     = Ok []
  /\ is_help_key
       (format_help fill_short ("Options of the model" ++ nl ++ "in use") false) = true.
Proof.
  apply (format_help_is_a_comment_block fill_short). vm_compute. reflexivity.
Defined.

(** ** A first construction succeeds *)

Lemma for_each_ok {A S : Type} (body : A -> S -> result S) (I : S -> Prop)
  (xs : list A) :
  (forall x s, In x xs -> I s -> exists s', body x s = Ok s' /\ I s') ->
  forall s, I s -> exists s', for_each body xs s = Ok s' /\ I s'.
Proof.
  induction xs as [|x xs IH]; intros Hstep s Hs.
  - exists s. split; [reflexivity | exact Hs].
  - destruct (Hstep x s (or_introl eq_refl) Hs) as (s1 & E & H1).
    cbn [for_each]. rewrite E. cbn [bind]. apply IH; [|exact H1].
    intros y t Hy. apply Hstep. now right.
Qed.

Lemma written_options_ok (d : CP.options) :
  writable_options d -> exists d', CP.written_options d = Ok d'.
Proof.
  induction 1 as [|[k v] d Hkv _ (d' & IH)]; [exists []; reflexivity|].
  cbn [CP.written_options fst snd] in *.
  destruct Hkv as [[Hk ->] | [Hk Hv]].
  - rewrite Hk. eauto.
  - rewrite (plain_not_comment k Hk), Hk.
    destruct v as [x|]; cbn [CP.written_value]; [rewrite Hv|]; rewrite IH; cbn [bind]; eauto.
Qed.

Lemma written_ok (c : CP.t) : writable c -> exists text, CP.written c = Ok text.
Proof.
  induction 1 as [|[s d] c (Ht & Hl & Hd) _ (text & IH)]; [exists []; reflexivity|].
  cbn [CP.written fst snd] in *. rewrite Ht, Hl. cbn [negb orb].
  destruct (written_options_ok d Hd) as (d' & ->). rewrite IH. cbn [bind]. eauto.
Qed.

Lemma cp_set_ok (c : CP.t) (s k : string) (v : option string) (d : CP.options) :
  Str.truthy s = true -> String.eqb s CP.default_section = false ->
  OD.get c s = Some d ->
  match v with Some x => CP.interpolated x = false | None => True end ->
  CP.set c s k v = Ok (OD.set c s (OD.set d k v)).
Proof.
  intros Ht Hd Hs Hv. unfold CP.set. rewrite Ht, Hd, Hs.
  destruct v as [x|]; [rewrite Hv|]; reflexivity.
Qed.

Lemma writable_set (c : CP.t) (s k : string) (v : option string) (d : CP.options) :
  writable c -> OD.get c s = Some d ->
  Str.truthy s = true -> CP.has_linebreak s = false ->
  (CP.comment_block k = true /\ v = None)
  \/ (CP.plain_key k = true
      /\ match v with Some x => CP.has_linebreak x = false | None => True end) ->
  writable (OD.set c s (OD.set d k v)).
Proof.
  intros Hc Hs Ht Hl Hkv. apply od_set_Forall; [exact Hc|].
  cbn [fst snd]. split; [exact Ht|]. split; [exact Hl|].
  destruct (od_get_Forall _ _ _ _ Hc Hs) as (_ & _ & Hd). cbn [snd] in Hd.
  apply od_set_Forall; [exact Hd|]. exact Hkv.
Qed.

Section FirstConstruction.

Variable textwrap_fill : string -> string -> string.

(** Inserting an option succeeds when its title is a plain name, its help
    text wraps plainly, and the string of the value has no percent sign and
    no line break. *)
Lemma insert_config_item_ok (s k : string) (v : pyval) (opt : opt_dict) (c : CP.t) :
  Str.truthy s = true -> CP.has_linebreak s = false ->
  String.eqb s CP.default_section = false ->
  CP.plain_key k = true -> wraps_plainly textwrap_fill (i_helptext opt) = true ->
  CP.interpolated (Py.str v) = false -> CP.has_linebreak (Py.str v) = false ->
  ready s c ->
  exists c', insert_config_item textwrap_fill s k v opt c = Ok c' /\ ready s c'.
Proof.
  intros Ht Hl Hd Hplain Hwrap Hint Hbreak [Hc Hs].
  destruct (OD.get c s) as [d|] eqn:Es; [|congruence].
  unfold insert_config_item.
  rewrite (cp_set_ok c s _ None d Ht Hd Es I). cbn [bind].
  set (helpkey := format_help textwrap_fill (i_helptext opt) false).
  rewrite (cp_set_ok _ s k (Some (Py.str v)) (OD.set d helpkey None)
             Ht Hd (od_get_set_same _ _ _) Hint).
  eexists. split; [reflexivity|]. split.
  - apply writable_set; auto.
    + apply writable_set; auto.
      left. split; [|reflexivity]. unfold helpkey. now apply format_help_commented.
    + apply od_get_set_same.
  - rewrite od_get_set_same. discriminate.
Qed.

Lemma option_writable_inv (k : string) (opt : opt_dict) :
  option_writable textwrap_fill (k, Item opt) = true -> k <> "helptext" ->
  CP.plain_key k = true
  /\ CP.interpolated (Py.str (i_default opt)) = false
  /\ CP.has_linebreak (Py.str (i_default opt)) = false
  /\ wraps_plainly textwrap_fill (i_helptext opt) = true.
Proof.
  intros Hw Hk. unfold option_writable in Hw. cbn [fst snd] in Hw.
  apply String.eqb_neq in Hk. rewrite Hk in Hw. cbn [orb] in Hw.
  apply andb_prop in Hw. destruct Hw as [Hw Hwrap].
  apply andb_prop in Hw. destruct Hw as [Hw Hbreak].
  apply andb_prop in Hw. destruct Hw as [Hplain Hint].
  apply negb_true_iff in Hbreak, Hint. auto.
Qed.

Lemma insert_items_ok (value : string -> opt_dict -> result pyval) (s : string)
  (items : OD.t entry) (c : CP.t) :
  Str.truthy s = true -> CP.has_linebreak s = false ->
  String.eqb s CP.default_section = false ->
  forallb (option_writable textwrap_fill) items = true ->
  (forall k opt, In (k, Item opt) items -> k <> "helptext" ->
     exists v, value k opt = Ok v
               /\ CP.interpolated (Py.str v) = false
               /\ CP.has_linebreak (Py.str v) = false) ->
  ready s c ->
  exists c', insert_items textwrap_fill value s items c = Ok c' /\ ready s c'.
Proof.
  intros Ht Hl Hd Hall Hval Hc. unfold insert_items.
  apply for_each_ok with (I := ready s); [|exact Hc].
  intros [k e] c0 Hin Hc0. rewrite forallb_forall in Hall.
  pose proof (Hall _ Hin) as Hw.
  destruct (String.eqb k "helptext") eqn:Ek; [eauto|].
  apply String.eqb_neq in Ek.
  destruct e as [info|opt].
  - unfold option_writable in Hw. cbn [fst snd] in Hw.
    apply String.eqb_neq in Ek. rewrite Ek in Hw. discriminate.
  - destruct (Hval k opt Hin Ek) as (v & -> & Hint & Hbreak). cbn [bind].
    destruct (option_writable_inv k opt Hw Ek) as (Hplain & _ & _ & Hwrap).
    now apply insert_config_item_ok.
Qed.

Lemma insert_items_sections (value : string -> opt_dict -> result pyval) (s : string)
  (items : OD.t entry) (c c' : CP.t) :
  insert_items textwrap_fill value s items c = Ok c' -> CP.sections c' = CP.sections c.
Proof.
  unfold insert_items.
  apply (for_each_invariant _ (fun c0 => CP.sections c0 = CP.sections c)); [|reflexivity].
  intros [k e] c1 c2 _ H1 H. destruct (String.eqb k "helptext"); [now injection H as <-|].
  destruct e as [info|opt]; [discriminate|]. bind_inv H.
  apply insert_config_item_inv in H. destruct H as [-> _]. exact H1.
Qed.

Lemma insert_config_section_ok (s helptext : string) (c : CP.t) :
  Str.truthy s = true -> CP.has_linebreak s = false ->
  String.eqb s CP.default_section = false ->
  wraps_plainly textwrap_fill helptext = true ->
  writable c -> OD.get c s = None ->
  exists c',
    insert_config_section textwrap_fill s helptext c = Ok c' /\ ready s c'.
Proof.
  intros Ht Hl Hd Hwrap Hc Hs. unfold insert_config_section, CP.add_section, CP.has_section,
    OD.mem. rewrite Hd, Hs. cbn [bind].
  rewrite (cp_set_ok _ s _ None [] Ht Hd (od_get_set_same _ _ _) I).
  eexists. split; [reflexivity|]. split.
  - apply writable_set; auto.
    + apply od_set_Forall; [exact Hc|]. cbn [fst snd]. repeat split; auto. constructor.
    + apply od_get_set_same.
    + left. split; [|reflexivity]. now apply format_help_commented.
  - rewrite od_get_set_same. discriminate.
Qed.

(** Writing the sections of the schema into a parser that has none of them
    succeeds, whatever gives the values, as long as their strings have no
    percent sign and no line break. *)
Lemma insert_sections_ok (value : string -> string -> opt_dict -> result pyval)
  (d : schema) :
  NoDup (OD.keys d) -> schema_writable textwrap_fill d = true ->
  (forall s items k opt,
     In (s, items) d -> In (k, Item opt) items -> k <> "helptext" ->
     exists v, value s k opt = Ok v
               /\ CP.interpolated (Py.str v) = false
               /\ CP.has_linebreak (Py.str v) = false) ->
  forall c, writable c -> (forall s, In s (OD.keys d) -> OD.get c s = None) ->
    exists c', insert_sections textwrap_fill value d c = Ok c' /\ writable c'.
Proof.
  unfold insert_sections.
  induction d as [|[s items] d IH]; intros Hnd Hall Hval c Hc Hfresh.
  - exists c. split; [reflexivity | exact Hc].
  - cbn [OD.keys map fst] in Hnd. inversion Hnd as [|? ? Hnotin Hnd']; subst.
    cbn [schema_writable forallb] in Hall. apply andb_prop in Hall.
    destruct Hall as [Hsect Hrest]. unfold section_writable in Hsect.
    cbn [fst snd] in Hsect.
    apply andb_prop in Hsect. destruct Hsect as [Hsect Hitems].
    apply andb_prop in Hsect. destruct Hsect as [Hsect Hhelp].
    apply andb_prop in Hsect. destruct Hsect as [Hsect Hdef].
    apply andb_prop in Hsect. destruct Hsect as [Ht Hl].
    apply negb_true_iff in Hl, Hdef.
    cbn [for_each]. unfold section_helptext.
    destruct (OD.get items "helptext") as [[info|?]|]; try discriminate.
    cbn [bind].
    destruct (insert_config_section_ok s info c Ht Hl Hdef Hhelp Hc
                (Hfresh s (or_introl eq_refl))) as (c1 & E1 & H1).
    rewrite E1. cbn [bind].
    destruct (insert_items_ok (value s) s items c1 Ht Hl Hdef Hitems) as (c2 & E2 & [H2 _]).
    { intros k opt Hin Hk. apply (Hval s items k opt); auto. now left. }
    { exact H1. }
    rewrite E2. cbn [bind]. apply IH; auto.
    + intros s0 items0 k opt Hin. apply Hval. now right.
    + intros s' Hin. apply od_get_none.
      destruct (insert_config_section_inv textwrap_fill _ _ _ _ E1) as (_ & S1 & _).
      change (OD.keys c2) with (CP.sections c2).
      rewrite (insert_items_sections _ _ _ _ _ E2), S1. intros Hin'.
      apply in_app_or in Hin'. destruct Hin' as [Hin'|[<-|[]]].
      * pose proof (Hfresh s' (or_intror Hin)) as Hnone.
        apply od_get_none in Hnone. contradiction.
      * contradiction.
Qed.

(** The defaults of a schema that can be written have plain strings. *)
Lemma writable_defaults (d : schema) :
  schema_writable textwrap_fill d = true ->
  forall s items k opt,
    In (s, items) d -> In (k, Item opt) items -> k <> "helptext" ->
    CP.plain_key k = true
    /\ CP.interpolated (Py.str (i_default opt)) = false
    /\ CP.has_linebreak (Py.str (i_default opt)) = false.
Proof.
  intros Hw s items k opt Hs Hk Hne. unfold schema_writable in Hw.
  rewrite forallb_forall in Hw. pose proof (Hw _ Hs) as Hsect.
  unfold section_writable in Hsect. apply andb_prop in Hsect.
  destruct Hsect as [_ Hopts]. cbn [snd] in Hopts. rewrite forallb_forall in Hopts.
  destruct (option_writable_inv k opt (Hopts _ Hk) Hne) as (H1 & H2 & H3 & _). auto.
Qed.

Lemma writable_titles_plain (d : schema) :
  schema_writable textwrap_fill d = true -> titles_plain d = true.
Proof.
  unfold schema_writable, titles_plain. intros H. apply forallb_forall.
  intros sect Hin. rewrite forallb_forall in H. specialize (H sect Hin).
  unfold section_writable in H. apply andb_prop in H. destruct H as [_ H].
  apply forallb_forall. intros kv Hkv. rewrite forallb_forall in H.
  specialize (H kv Hkv). unfold option_writable in H.
  destruct (String.eqb (fst kv) "helptext"); [reflexivity|]. cbn [orb] in *.
  destruct (snd kv); [discriminate|].
  apply andb_prop in H. destruct H as [H _]. apply andb_prop in H. destruct H as [H _].
  apply andb_prop in H. now destruct H as [H _].
Qed.

(** [create_default] succeeds on an empty parser for a schema that is well
    formed and can be written. *)
Lemma create_default_ok (st : store) :
  schema_wf (defaults st) = true ->
  schema_writable textwrap_fill (defaults st) = true -> config st = [] ->
  exists st1, create_default textwrap_fill st = Ok st1.
Proof.
  intros Hwf Hw Hempty. unfold schema_wf in Hwf. apply andb_prop in Hwf.
  destruct Hwf as [Hnd _]. apply distinct_NoDup in Hnd.
  destruct (insert_sections_ok (fun _ _ opt => Ok (i_default opt)) _ Hnd Hw)
    with (c := @nil (string * CP.options)) as (c1 & E1 & H1).
  { intros s items k opt Hs Hk Hne. eexists. split; [reflexivity|].
    apply (writable_defaults _ Hw s items k opt Hs Hk Hne). }
  { constructor. }
  { reflexivity. }
  unfold create_default. rewrite Hempty, E1. cbn [bind]. unfold save_config.
  cbn [config with_config]. destruct (written_ok _ H1) as (text & ->). cbn [bind].
  eauto.
Qed.

Lemma created_reads (value : string -> string -> opt_dict -> result pyval)
  (d : schema) (c text : CP.t) :
  schema_wf d = true ->
  insert_sections textwrap_fill value d [] = Ok c -> CP.written c = Ok text ->
  forall c0, exists c2, CP.read c0 text = Ok c2.
Proof.
  intros Hwf Hi Hw. apply read_ok. apply Forall_forall. intros [s opts] Hin. cbn [fst].
  assert (Hs : In s (CP.sections text)) by (apply (in_map fst) in Hin; exact Hin).
  rewrite (regenerated_sections textwrap_fill _ _ _ _ Hwf Hi Hw) in Hs.
  unfold OD.keys in Hs. apply in_map_iff in Hs. destruct Hs as ([s' items] & <- & Hin').
  exact (proj1 (insert_sections_entries _ _ _ _ _ Hi s' items Hin')).
Qed.

(** The file written from the schema, loaded into the parser it was
    written from, gives a parser that matches the schema. *)
Lemma created_matches (value : string -> string -> opt_dict -> result pyval)
  (d : schema) (c text c2 : CP.t) :
  schema_wf d = true -> titles_plain d = true ->
  insert_sections textwrap_fill value d [] = Ok c -> CP.written c = Ok text ->
  CP.read c text = Ok c2 ->
  matches_schema c2 d = true.
Proof.
  intros Hwf Hplain Hi Hw Hr.
  pose proof (regenerated_sections textwrap_fill _ _ _ _ Hwf Hi Hw) as Hsec.
  pose proof Hwf as Hwf'. unfold schema_wf in Hwf'. apply andb_prop in Hwf'.
  destruct Hwf' as [Hnd Hall]. apply distinct_NoDup in Hnd.
  destruct (insert_sections_stored textwrap_fill _ _ Hnd Hall _ _ Hi)
    as (Hsecc & _ & Hsome).
  assert (Hwfc : parser_wf c).
  { eapply parser_wf_insert_sections; [exact Hi | apply parser_wf_nil]. }
  pose proof (written_wf _ _ Hw Hwfc) as Hwft.
  pose proof (read_stored text Hwft _ _ Hr) as Hst.
  unfold matches_schema. apply andb_true_iff. split.
  - apply set_eqb_iff. intros s. rewrite (read_sections_In _ _ _ Hr s), Hsec, Hsecc.
    simpl. tauto.
  - apply forallb_forall. intros [s items] Hin. cbn [fst snd].
    pose proof (od_In_get _ _ _ Hnd Hin) as Hs.
    destruct (insert_sections_entries _ _ _ _ _ Hi s items Hin) as (_ & Hentries).
    unfold titles_plain in Hplain. rewrite forallb_forall in Hplain.
    specialize (Hplain (s, items) Hin). cbn [snd] in Hplain.
    rewrite forallb_forall in Hplain.
    apply set_eqb_iff. intros k. unfold option_keys, declared_keys.
    rewrite !filter_In, stored_keys_In, Hst, !negb_true_iff. split.
    + intros [Hne Hhelp].
      assert (Hc : stored c s k <> None).
      { destruct (stored text s k) eqn:Et; [|exact Hne].
        apply (written_stored_inv _ _ s k Hw). congruence. }
      destruct (Hsome s items Hs k Hhelp) as (Hrest & _).
      destruct (String.eqb k "helptext") eqn:Ek.
      * apply String.eqb_eq in Ek. exfalso. apply Hc. auto.
      * split; [|reflexivity].
        destruct (OD.get items k) as [e|] eqn:Eg; [eapply od_get_keys; eauto|].
        exfalso. apply Hc. auto.
    + intros [Hin' Hk]. apply String.eqb_neq in Hk.
      destruct (OD.get items k) as [e|] eqn:Eg;
        [|apply od_get_none in Eg; contradiction].
      pose proof (od_get_In _ _ _ Eg) as Hine.
      destruct (Hentries k e Hine) as [Hh | (opt & ->)]; [contradiction|].
      pose proof (Hplain (k, Item opt) Hine) as Hp. cbn [fst] in Hp.
      apply orb_true_iff in Hp. destruct Hp as [Hp|Hp];
        [apply String.eqb_eq in Hp; contradiction|].
      pose proof (plain_not_help k Hp) as Hhelp.
      destruct (Hsome s items Hs k Hhelp) as (_ & Hitem).
      destruct (Hitem opt Hk Eg) as (v & _ & Hv).
      pose proof (written_stored _ _ s k Hw Hp) as Hws. rewrite Hv in Hws.
      destruct Hws as (v' & _ & ->). split; [discriminate | exact Hhelp].
Qed.

End FirstConstruction.

(** ** Values with no percent sign *)

Lemma split_on_plain (c : ascii) (sep : ascii -> bool) (s : string) :
  Str.contains c s = false ->
  Forall (fun p => Str.contains c p = false) (split_on sep s).
Proof.
  induction s as [|c' r IH]; intros H.
  - repeat constructor.
  - cbn [Str.contains] in H. apply orb_false_iff in H. destruct H as [Hc Hr].
    specialize (IH Hr). cbn [split_on].
    destruct (split_on sep r) as [|h t]; [repeat constructor|].
    inversion IH as [|? ? Hh Ht]; subst.
    destruct (sep c'); constructor; try constructor; auto.
    cbn [Str.contains]. now rewrite Hc.
Qed.

Lemma contains_lstrip (c : ascii) (s : string) :
  Str.contains c s = false -> Str.contains c (Str.lstrip s) = false.
Proof.
  induction s as [|c' r IH]; intros H; [exact H|].
  cbn [Str.lstrip]. destruct (Str.is_space c'); [|exact H].
  cbn [Str.contains] in H. apply orb_false_iff in H. now apply IH.
Qed.

Lemma contains_rstrip (c : ascii) (s : string) :
  Str.contains c s = false -> Str.contains c (Str.rstrip s) = false.
Proof.
  induction s as [|c' r IH]; intros H; [exact H|].
  cbn [Str.contains] in H. apply orb_false_iff in H. destruct H as [Hc Hr].
  specialize (IH Hr). cbn [Str.rstrip]. destruct (Str.rstrip r) as [|c2 r2].
  - destruct (Str.is_space c'); [reflexivity|]. cbn [Str.contains]. now rewrite Hc.
  - cbn [Str.contains] in *. now rewrite Hc, IH.
Qed.

Lemma contains_strip (c : ascii) (s : string) :
  Str.contains c s = false -> Str.contains c (Str.strip s) = false.
Proof. intros H. unfold Str.strip. now apply contains_rstrip, contains_lstrip. Qed.

Lemma lower_char_percent (c : ascii) :
  Ascii.eqb "%" (Str.lower_char c) = Ascii.eqb "%" c.
Proof. destruct c as [[] [] [] [] [] [] [] []]; reflexivity. Qed.

Lemma interpolated_lower (s : string) :
  CP.interpolated (Str.lower s) = CP.interpolated s.
Proof.
  unfold CP.interpolated, Str.lower. induction s as [|c r IH]; [reflexivity|].
  cbn [Str.map_chars Str.contains]. now rewrite IH, lower_char_percent.
Qed.

Lemma contains_concat (c : ascii) (sep : string) (l : list string) :
  Str.contains c sep = false -> Forall (fun p => Str.contains c p = false) l ->
  Str.contains c (concat sep l) = false.
Proof.
  intros Hsep. induction 1 as [|x l Hx Hl IH]; [reflexivity|].
  cbn [concat]. destruct l as [|y l]; [exact Hx|].
  now rewrite !contains_app, Hx, Hsep, IH.
Qed.

Lemma spec_parse_list_plain (raw : string) :
  CP.interpolated raw = false ->
  Forall (fun t => CP.interpolated t = false) (spec_parse_list raw).
Proof.
  intros H. unfold spec_parse_list. destruct (String.eqb raw ""); [constructor|].
  assert (Hmap : forall l, Forall (fun p => Str.contains "%" p = false) l ->
                   Forall (fun t => CP.interpolated t = false)
                     (map (fun token => Str.lower (Str.strip token)) l)).
  { intros l Hl. apply Forall_forall. intros t Ht. apply in_map_iff in Ht.
    destruct Ht as (p & <- & Hp). rewrite interpolated_lower.
    apply contains_strip. rewrite Forall_forall in Hl. auto. }
  apply Hmap. destruct (existsb is_comma (list_ascii_of_string raw)).
  - now apply split_on_plain.
  - apply Forall_forall. intros p Hp. apply filter_In in Hp. destruct Hp as [Hp _].
    pose proof (split_on_plain "%" Str.is_space raw H) as Hall.
    rewrite Forall_forall in Hall. auto.
Qed.

Lemma joined_selection_plain (choices tokens : list string) :
  Forall (fun t => CP.interpolated t = false) tokens ->
  CP.interpolated (Str.join ", " (filter (is_valid choices) tokens)) = false.
Proof.
  intros H. unfold CP.interpolated, Str.join. apply contains_concat; [reflexivity|].
  apply Forall_forall. intros t Ht. apply filter_In in Ht. destruct Ht as [Ht _].
  rewrite Forall_forall in H. now apply H.
Qed.

(** ** The validation of a file just written succeeds *)

Lemma holds_plain_set (d : schema) (c c' : CP.t) (s k v : string) :
  holds_plain_values d c -> CP.set c s k (Some v) = Ok c' -> holds_plain_values d c'.
Proof.
  intros H Hset s' items k' opt Hs Hk Hne. rewrite (set_stored _ _ _ _ _ s' k' Hset).
  destruct (String.eqb s' s && String.eqb k' k).
  - exists v. split; [reflexivity|]. eapply set_some_plain; eauto.
  - eapply H; eauto.
Qed.

Lemma check_choice_ok (d : schema) (s k : string) (items : OD.t entry) (e : entry)
  (st : store) (textwrap_fill : string -> string -> string) :
  OD.get d s = Some items -> OD.get items k = Some e ->
  Str.truthy s = true -> String.eqb s CP.default_section = false ->
  option_writable textwrap_fill (k, e) = true ->
  holds_plain_values d (config st) ->
  exists st', check_choice s (k, e) st = Ok st' /\ holds_plain_values d (config st').
Proof.
  intros Hs Hk Ht Hd Hw Hinv. unfold check_choice.
  destruct (String.eqb k "helptext") eqn:Ek; [eauto|].
  unfold option_writable in Hw. cbn [fst snd] in Hw. rewrite Ek in Hw. cbn [orb] in Hw.
  destruct e as [info|opt]; [discriminate|].
  apply String.eqb_neq in Ek.
  destruct (i_choices opt) as [|ch chs] eqn:Ech; [eauto|].
  destruct (Hinv s items k opt Hs Hk Ek) as (v & Hv & Hplain).
  assert (Hget : CP.get (config st) s k = Ok (Some v)).
  { rewrite (stored_some _ _ _ _ Hv). simpl. now rewrite Hplain. }
  assert (Hsec : exists d0, OD.get (config st) s = Some d0).
  { unfold stored in Hv. destruct (OD.get (config st) s); [eauto | discriminate]. }
  destruct Hsec as (d0 & Hd0).
  apply andb_prop in Hw. destruct Hw as [Hw _]. apply andb_prop in Hw.
  destruct Hw as [Hw _]. apply andb_prop in Hw. destruct Hw as [_ Hdef].
  apply negb_true_iff in Hdef.
  destruct (datatype_eqb (i_type opt) Dlist).
  - rewrite (parse_list_of_get _ _ _ _ Hget). cbn [bind].
    pose proof (spec_parse_list_plain v Hplain) as Htok.
    destruct (spec_parse_list v) as [|t ts]; [eauto|].
    destruct (existsb _ (t :: ts)); [|eauto].
    cbn [config warn].
    pose proof (joined_selection_plain (ch :: chs) (t :: ts) Htok) as Hj.
    pose proof (cp_set_ok (config st) s k (Some _) d0 Ht Hd Hd0 Hj) as Hset.
    rewrite Hset. cbn [bind]. eexists. split; [reflexivity|].
    cbn [config with_config]. eapply holds_plain_set; eauto.
  - rewrite Hget. cbn [bind].
    destruct (String.eqb (Str.lower v) "none" && _); [eauto|].
    destruct (negb (is_valid (ch :: chs) v)); [|eauto].
    cbn [config warn].
    pose proof (cp_set_ok (config st) s k (Some (Py.str (i_default opt))) d0
                  Ht Hd Hd0 Hdef) as Hset.
    rewrite Hset. cbn [bind]. eexists. split; [reflexivity|].
    cbn [config with_config]. eapply holds_plain_set; eauto.
Qed.

Lemma check_config_choices_ok (st : store) (textwrap_fill : string -> string -> string) :
  schema_wf (defaults st) = true ->
  schema_writable textwrap_fill (defaults st) = true ->
  holds_plain_values (defaults st) (config st) ->
  exists st', check_config_choices st = Ok st'.
Proof.
  intros Hwf Hw Hinv. unfold check_config_choices.
  unfold schema_wf in Hwf. apply andb_prop in Hwf. destruct Hwf as [Hnd Hall].
  apply distinct_NoDup in Hnd. rewrite forallb_forall in Hall.
  unfold schema_writable in Hw. rewrite forallb_forall in Hw.
  set (d := defaults st) in *.
  destruct (for_each_ok
              (fun (sect : string * OD.t entry) st =>
                 for_each (check_choice (fst sect)) (snd sect) st)
              (fun st0 => holds_plain_values d (config st0)) d) with (s := st)
    as (st' & E & _); [|exact Hinv|eauto].
  intros [s items] st0 Hin H0. cbn [fst snd].
  pose proof (od_In_get _ _ _ Hnd Hin) as Hs.
  pose proof (Hall _ Hin) as Hitems. cbn [snd] in Hitems. apply distinct_NoDup in Hitems.
  pose proof (Hw _ Hin) as Hsect. unfold section_writable in Hsect. cbn [fst snd] in Hsect.
  apply andb_prop in Hsect. destruct Hsect as [Hsect Hopts].
  apply andb_prop in Hsect. destruct Hsect as [Hsect _].
  apply andb_prop in Hsect. destruct Hsect as [Hsect Hdef].
  apply andb_prop in Hsect. destruct Hsect as [Ht _].
  apply negb_true_iff in Hdef. rewrite forallb_forall in Hopts.
  apply for_each_ok with (I := fun st0 => holds_plain_values d (config st0)); [|exact H0].
  intros [k e] st1 Hink H1.
  eapply check_choice_ok; eauto. now apply od_In_get.
Qed.

Section FirstObject.

Variable textwrap_fill : string -> string -> string.

Lemma writable_option (d : schema) (s k : string) (items : OD.t entry) (opt : opt_dict) :
  schema_writable textwrap_fill d = true ->
  OD.get d s = Some items -> OD.get items k = Some (Item opt) -> k <> "helptext" ->
  CP.plain_key k = true /\ CP.interpolated (Py.str (i_default opt)) = false.
Proof.
  intros Hw Hs Hk Hne. unfold schema_writable in Hw. rewrite forallb_forall in Hw.
  pose proof (Hw _ (od_get_In _ _ _ Hs)) as Hsect. unfold section_writable in Hsect.
  apply andb_prop in Hsect. destruct Hsect as [_ Hopts]. cbn [snd] in Hopts.
  rewrite forallb_forall in Hopts. pose proof (Hopts _ (od_get_In _ _ _ Hk)) as Ho.
  unfold option_writable in Ho. cbn [fst snd] in Ho.
  apply String.eqb_neq in Hne. rewrite Hne in Ho. cbn [orb] in Ho.
  apply andb_prop in Ho. destruct Ho as [Ho _]. apply andb_prop in Ho.
  destruct Ho as [Ho _]. apply andb_prop in Ho. destruct Ho as [Hp Hi].
  apply negb_true_iff in Hi. auto.
Qed.

(** What the parser holds once the file of [create_default] is loaded: for
    every option of the schema, the string of its default, stripped. *)
Lemma created_values (d : schema) (c text c2 : CP.t) :
  schema_wf d = true -> schema_writable textwrap_fill d = true ->
  insert_sections textwrap_fill (fun _ _ opt => Ok (i_default opt)) d [] = Ok c ->
  CP.written c = Ok text -> CP.read c text = Ok c2 ->
  holds_plain_values d c2.
Proof.
  intros Hwf Hw Hi Hwr Hr s items k opt Hs Hk Hne.
  destruct (writable_option _ _ _ _ _ Hw Hs Hk Hne) as [Hplain Hint].
  pose proof Hwf as Hwf'. unfold schema_wf in Hwf'. apply andb_prop in Hwf'.
  destruct Hwf' as [Hnd Hall]. apply distinct_NoDup in Hnd.
  destruct (insert_sections_stored textwrap_fill _ _ Hnd Hall _ _ Hi) as (_ & _ & Hsome).
  destruct (Hsome s items Hs k (plain_not_help k Hplain)) as (_ & Hitem).
  destruct (Hitem opt Hne Hk) as (v & Hv & Hst). injection Hv as <-.
  assert (Hwfc : parser_wf c).
  { eapply parser_wf_insert_sections; [exact Hi | apply parser_wf_nil]. }
  rewrite (read_stored text (written_wf _ _ Hwr Hwfc) _ _ Hr s k).
  pose proof (written_stored _ _ s k Hwr Hplain) as Hws. rewrite Hst in Hws.
  destruct Hws as (v' & Hv' & ->). cbn [CP.written_value] in Hv'.
  destruct (CP.has_linebreak (Py.str (i_default opt))); [discriminate|].
  injection Hv' as <-. eexists. split; [reflexivity|].
  now apply contains_strip.
Qed.

(** X14. A first construction succeeds.  With no file yet, a schema that is
    well formed and can be written (section names and option titles that
    the parser reads back as written, defaults whose strings have no percent
    sign and no line break, help texts that wrap plainly), and an empty
    parser, [handle_config] returns: it creates the file, loads it, finds
    no drift and validates the choices.  The file has been written exactly
    once, and the schema is as declared. *)
Theorem first_construction_succeeds (st : store) :
  schema_wf (defaults st) = true ->
  schema_writable textwrap_fill (defaults st) = true ->
  config st = [] -> file st = None ->
  exists st' text,
    handle_config textwrap_fill st = Ok st'
    /\ file st' = Some text /\ saves st' = S (saves st)
    /\ defaults st' = defaults st.
Proof.
  intros Hwf Hw Hempty Hfile.
  destruct (create_default_ok textwrap_fill st Hwf Hw Hempty) as (st1 & E1).
  destruct (create_default_inv textwrap_fill _ _ E1)
    as (c1 & text & Hi & Hwr & Hf1 & Hc1 & Hd1 & Hs1).
  rewrite Hempty in Hi.
  destruct (created_reads textwrap_fill _ _ _ _ Hwf Hi Hwr c1) as (c2 & Hr).
  assert (Hload : load_config st1 = Ok (with_config st1 c2)).
  { unfold load_config. now rewrite Hf1, Hc1, Hr. }
  set (st2 := with_config st1 c2) in *.
  assert (Hd2 : defaults st2 = defaults st) by exact Hd1.
  assert (Hchange : check_config_change st2 = Ok false).
  { apply check_config_change_false. rewrite Hd2.
    exact (created_matches textwrap_fill _ _ c1 text c2 Hwf
             (writable_titles_plain textwrap_fill _ Hw) Hi Hwr Hr). }
  destruct (check_config_choices_ok st2 textwrap_fill) as (st' & E').
  { now rewrite Hd2. }
  { now rewrite Hd2. }
  { rewrite Hd2. eapply created_values; eauto. }
  exists st', text.
  destruct (check_config_choices_untouched _ _ E') as (Hd' & Hf' & Hs' & _).
  split.
  - unfold handle_config, check_exists. rewrite Hfile. cbn [negb]. rewrite E1.
    cbn [bind]. rewrite Hload. cbn [bind]. unfold validate_config.
    rewrite Hchange. cbn [bind]. exact E'.
  - split; [|split].
    + rewrite Hf'. exact Hf1.
    + rewrite Hs'. exact Hs1.
    + rewrite Hd'. exact Hd2.
Qed.

End FirstObject.

Lemma first_construction_example :
  exists st' text,
    handle_config fill_short example_declared = Ok st'
    /\ file st' = Some text /\ saves st' = S (saves example_declared)
    /\ defaults st' = defaults example_declared.
Proof.
  exact (first_construction_succeeds fill_short example_declared
           ltac:(vm_compute; reflexivity) ltac:(vm_compute; reflexivity)
           ltac:(reflexivity) ltac:(reflexivity)).
Defined.

(** ** The default file, written and loaded *)

Section RoundTrip.

Variable textwrap_fill : string -> string -> string.

(** What the parser and the file hold for an option of the schema once the
    sections of the schema are written from an empty parser. *)
Lemma written_values (value : string -> string -> opt_dict -> result pyval)
  (d : schema) (c text : CP.t) :
  schema_wf d = true ->
  insert_sections textwrap_fill value d [] = Ok c -> CP.written c = Ok text ->
  parser_wf text
  /\ forall s items k opt,
       OD.get d s = Some items -> OD.get items k = Some (Item opt) ->
       k <> "helptext" -> CP.plain_key k = true ->
       exists v,
         value s k opt = Ok v
         /\ stored c s k = Some (Some (Py.str v))
         /\ stored text s k = Some (Some (Str.strip (Py.str v))).
Proof.
  intros Hwf Hi Hwr.
  pose proof Hwf as Hwf'. unfold schema_wf in Hwf'. apply andb_prop in Hwf'.
  destruct Hwf' as [Hnd Hall]. apply distinct_NoDup in Hnd.
  destruct (insert_sections_stored textwrap_fill _ _ Hnd Hall _ _ Hi) as (_ & _ & Hsome).
  assert (Hwfc : parser_wf c).
  { eapply parser_wf_insert_sections; [exact Hi | apply parser_wf_nil]. }
  split; [exact (written_wf _ _ Hwr Hwfc)|].
  intros s items k opt Hs Hk Hne Hplain.
  destruct (Hsome s items Hs k (plain_not_help k Hplain)) as (_ & Hitem).
  destruct (Hitem opt Hne Hk) as (v & Hv & Hst).
  exists v. split; [exact Hv|]. split; [exact Hst|].
  pose proof (written_stored _ _ s k Hwr Hplain) as Hws. rewrite Hst in Hws.
  destruct Hws as (v' & Hv' & ->). apply written_value_some in Hv'. now subst v'.
Qed.

(** C3, as the code has it.  For a schema that the file can hold (section
    names and option titles that are plain names, defaults whose strings
    have no percent sign and no line break, help texts that wrap plainly),
    generating the default file from an empty parser and loading it
    succeeds; the parser then holds, for every option of the schema, the
    string of its default, stripped; and [get] gives back the default
    itself when it is a value of the declared type among text, boolean,
    integer and float that the file keeps as it is. *)
Theorem default_file_round_trip (st : store) :
  schema_wf (defaults st) = true ->
  schema_writable textwrap_fill (defaults st) = true -> config st = [] ->
  exists st1 st2,
    create_default textwrap_fill st = Ok st1 /\ load_config st1 = Ok st2
    /\ forall s items k opt,
         OD.get (defaults st) s = Some items -> OD.get items k = Some (Item opt) ->
         k <> "helptext" ->
         stored (config st2) s k = Some (Some (Str.strip (Py.str (i_default opt))))
         /\ (round_trips (i_type opt) (i_default opt) = true ->
             get st2 s k = Ok (i_default opt)).
Proof.
  intros Hwf Hw Hempty.
  destruct (create_default_ok textwrap_fill st Hwf Hw Hempty) as (st1 & E1).
  destruct (create_default_inv textwrap_fill _ _ E1)
    as (c1 & text & Hi & Hwr & Hf1 & Hc1 & Hd1 & _).
  rewrite Hempty in Hi.
  destruct (created_reads textwrap_fill _ _ _ _ Hwf Hi Hwr c1) as (c2 & Hr).
  assert (Hload : load_config st1 = Ok (with_config st1 c2)).
  { unfold load_config. now rewrite Hf1, Hc1, Hr. }
  exists st1, (with_config st1 c2). split; [exact E1|]. split; [exact Hload|].
  destruct (written_values _ _ _ _ Hwf Hi Hwr) as (Hwft & Hvalues).
  intros s items k opt Hs Hk Hne.
  destruct (writable_option textwrap_fill _ _ _ _ _ Hw Hs Hk Hne) as [Hplain Hint].
  destruct (Hvalues s items k opt Hs Hk Hne Hplain) as (v & [= <-] & _ & Htext).
  assert (Hfinal : stored (config (with_config st1 c2)) s k
                   = Some (Some (Str.strip (Py.str (i_default opt))))).
  { cbn [config with_config]. rewrite (read_stored text Hwft _ _ Hr s k).
    now rewrite Htext. }
  split; [exact Hfinal|]. intros Hrt.
  assert (Hty : declared_type (with_config st1 c2) s k = Ok (i_type opt)).
  { unfold declared_type. cbn [defaults with_config]. rewrite Hd1, Hs, Hk. reflexivity. }
  destruct (i_type opt) eqn:Et; destruct (i_default opt) as [|x|b|z|lit|l] eqn:Ed;
    try discriminate Hrt; cbn [Py.str] in Hfinal.
  - (* text *)
    cbn [round_trips] in Hrt.
    apply andb_prop in Hrt. destruct Hrt as [Hrt Hnone].
    apply andb_prop in Hrt. destruct Hrt as [Hrt _].
    apply andb_prop in Hrt. destruct Hrt as [Hstrip Hint'].
    apply String.eqb_eq in Hstrip. apply negb_true_iff in Hint', Hnone.
    rewrite Hstrip in Hfinal.
    rewrite (get_typed _ _ _ _ _ Hty Hfinal Hint'). cbn [bind]. now rewrite Hnone.
  - (* boolean *)
    destruct b; exact (get_typed _ _ _ _ _ Hty Hfinal eq_refl).
  - (* float *)
    cbn [round_trips] in Hrt. apply andb_prop in Hrt. destruct Hrt as [Hrepr _].
    destruct (is_float_repr_inv _ Hrepr) as (x & Hx & <-).
    destruct (repr_float_plain x Hx) as (Hsp & Hpl & _).
    rewrite (strip_no_space _ Hsp) in Hfinal.
    rewrite (get_typed _ _ _ _ _ Hty Hfinal Hpl). cbn [bind].
    now rewrite (float_of_str_repr x Hx).
  - (* integer *)
    rewrite (strip_no_space _ (int_text_no_space z)) in Hfinal.
    rewrite (get_typed _ _ _ _ _ Hty Hfinal (int_text_plain z)).
    now rewrite int_of_str_of_int.
Qed.

End RoundTrip.

Lemma round_trip_example :
  get example_reloaded "global" "seed" = Ok (VInt 5)
  /\ get example_reloaded "sect" "rate" = Ok (VFloat "0.5")
  /\ get example_reloaded "sect" "name" = Ok (VStr "face")
  /\ get example_reloaded "sect" "flag" = Ok (VBool true).
Proof.
  destruct (default_file_round_trip fill_short example_declared
              ltac:(vm_compute; reflexivity) ltac:(vm_compute; reflexivity)
              ltac:(reflexivity))
    as (st1 & st2 & Hc & Hl & Hall).
  vm_compute in Hc. injection Hc as <-.
  vm_compute in Hl. injection Hl as <-.
  change (get example_reloaded "global" "seed" = Ok (VInt 5)
          /\ get example_reloaded "sect" "rate" = Ok (VFloat "0.5")
          /\ get example_reloaded "sect" "name" = Ok (VStr "face")
          /\ get example_reloaded "sect" "flag" = Ok (VBool true)).
  split; [|split; [|split]].
  - exact (proj2 (Hall "global" (items_of example_declared "global") "seed"
                    (option_of example_declared "global" "seed")
                    ltac:(vm_compute; reflexivity) ltac:(vm_compute; reflexivity)
                    ltac:(discriminate))
             ltac:(vm_compute; reflexivity)).
  - exact (proj2 (Hall "sect" (items_of example_declared "sect") "rate"
                    (option_of example_declared "sect" "rate")
                    ltac:(vm_compute; reflexivity) ltac:(vm_compute; reflexivity)
                    ltac:(discriminate))
             ltac:(vm_compute; reflexivity)).
  - exact (proj2 (Hall "sect" (items_of example_declared "sect") "name"
                    (option_of example_declared "sect" "name")
                    ltac:(vm_compute; reflexivity) ltac:(vm_compute; reflexivity)
                    ltac:(discriminate))
             ltac:(vm_compute; reflexivity)).
  - exact (proj2 (Hall "sect" (items_of example_declared "sect") "flag"
                    (option_of example_declared "sect" "flag")
                    ltac:(vm_compute; reflexivity) ltac:(vm_compute; reflexivity)
                    ltac:(discriminate))
             ltac:(vm_compute; reflexivity)).
Defined.

(** ** Loading a file into an empty parser *)

Lemma od_set_absent {V : Type} (d : OD.t V) (k : string) (v : V) :
  OD.get d k = None -> OD.set d k v = (d ++ [(k, v)])%list.
Proof.
  induction d as [|[k0 v0] d IH]; [reflexivity|].
  cbn [OD.get OD.set app]. destruct (String.eqb k k0); [discriminate|].
  intros H. now rewrite IH.
Qed.

Lemma od_get_app {V : Type} (d d' : OD.t V) (k : string) :
  OD.get (d ++ d')%list k = match OD.get d k with
                            | Some v => Some v
                            | None => OD.get d' k
                            end.
Proof.
  induction d as [|[k0 v0] d IH]; [reflexivity|].
  cbn [OD.get app]. now destruct (String.eqb k k0).
Qed.

Lemma fold_set_fresh {V : Type} (opts acc : OD.t V) :
  NoDup (OD.keys opts) -> (forall k, In k (OD.keys opts) -> OD.get acc k = None) ->
  fold_left (fun d kv => OD.set d (fst kv) (snd kv)) opts acc = (acc ++ opts)%list.
Proof.
  revert acc. induction opts as [|[k v] opts IH]; intros acc Hnd Hfresh.
  - cbn. now rewrite List.app_nil_r.
  - inversion Hnd as [|? ? Hnotin Hnd']; subst. cbn [fold_left fst snd].
    rewrite (od_set_absent acc k v) by (apply Hfresh; now left).
    rewrite IH; [now rewrite <- List.app_assoc| exact Hnd' |].
    intros k' Hin. rewrite od_get_app, (Hfresh k') by now right.
    cbn [OD.get]. destruct (String.eqb k' k) eqn:E; [|reflexivity].
    apply String.eqb_eq in E. subst k'. contradiction.
Qed.

(** Reading a file into a parser that has none of its sections adds the
    sections of the file as they are. *)
Lemma read_fresh (text : CP.t) :
  parser_wf text ->
  Forall (fun sect : string * CP.options => fst sect <> CP.default_section) text ->
  forall c, (forall s, In s (OD.keys text) -> OD.get c s = None) ->
    CP.read c text = Ok (c ++ text)%list.
Proof.
  unfold CP.read.
  induction text as [|[name opts] text IH]; intros [Hnd Hall] Hdef c Hfresh.
  - cbn. now rewrite List.app_nil_r.
  - inversion Hnd as [|? ? Hnotin Hnd']; subst.
    inversion Hall as [|? ? Hopts Hall']; subst.
    inversion Hdef as [|? ? Hname Hdef']; subst. cbn [fst snd] in *.
    cbn [for_each]. unfold CP.read_section at 1.
    apply String.eqb_neq in Hname. rewrite Hname.
    rewrite (Hfresh name (or_introl eq_refl)).
    rewrite (fold_set_fresh opts [] Hopts (fun _ _ => eq_refl)).
    rewrite (od_set_absent c name) by (apply Hfresh; now left).
    cbn [bind app]. rewrite (IH (conj Hnd' Hall') Hdef').
    + now rewrite <- List.app_assoc.
    + intros s Hin. rewrite od_get_app, (Hfresh s) by now right.
      cbn [OD.get]. destruct (String.eqb s name) eqn:E; [|reflexivity].
      apply String.eqb_eq in E. subst s. contradiction.
Qed.

Lemma file_readable_inv (text : CP.t) :
  file_readable text = true ->
  parser_wf text
  /\ Forall (fun sect : string * CP.options => fst sect <> CP.default_section) text
  /\ forall s k x, stored text s k = Some (Some x) ->
                   CP.interpolated x = false /\ CP.has_linebreak x = false.
Proof.
  unfold file_readable. intros H. apply andb_prop in H. destruct H as [Hnd Hall].
  apply distinct_NoDup in Hnd. rewrite forallb_forall in Hall.
  assert (Hsect : forall sect, In sect text ->
            NoDup (OD.keys (snd sect)) /\ fst sect <> CP.default_section
            /\ forall k x, In (k, Some x) (snd sect) ->
                           CP.interpolated x = false /\ CP.has_linebreak x = false).
  { intros sect Hin. specialize (Hall sect Hin).
    apply andb_prop in Hall. destruct Hall as [Hall Hvals].
    apply andb_prop in Hall. destruct Hall as [Hd Hname].
    apply distinct_NoDup in Hd. apply negb_true_iff, String.eqb_neq in Hname.
    split; [exact Hd|]. split; [exact Hname|]. intros k x Hk.
    rewrite forallb_forall in Hvals. specialize (Hvals _ Hk). cbn [snd] in Hvals.
    apply andb_prop in Hvals. destruct Hvals as [H1 H2].
    apply negb_true_iff in H1, H2. auto. }
  split; [split; [exact Hnd|]|split].
  - apply Forall_forall. intros sect Hin. apply (Hsect sect Hin).
  - apply Forall_forall. intros sect Hin. apply (Hsect sect Hin).
  - intros s k x Hst. unfold stored in Hst.
    destruct (OD.get text s) as [d|] eqn:Es; [|discriminate].
    apply od_get_In in Es. apply od_get_In in Hst.
    exact (proj2 (proj2 (Hsect (s, d) Es)) k x Hst).
Qed.

Lemma load_readable (st : store) (text0 : CP.t) :
  config st = [] -> file st = Some text0 -> file_readable text0 = true ->
  load_config st = Ok (with_config st text0).
Proof.
  intros Hempty Hfile Hread. destruct (file_readable_inv _ Hread) as (Hwf & Hdef & _).
  unfold load_config. rewrite Hfile, Hempty.
  now rewrite (read_fresh text0 Hwf Hdef [] (fun _ _ => eq_refl)).
Qed.

(** ** A construction on a file that drifted *)

Lemma carried_value_ok (old : CP.t) (s k : string) (opt : opt_dict) :
  (forall x, stored old s k = Some (Some x) ->
             CP.interpolated x = false /\ CP.has_linebreak x = false) ->
  CP.interpolated (Py.str (i_default opt)) = false ->
  CP.has_linebreak (Py.str (i_default opt)) = false ->
  exists v,
    carried_value old s k opt = Ok v
    /\ Py.str v = carried_text old s k opt
    /\ CP.interpolated (Py.str v) = false /\ CP.has_linebreak (Py.str v) = false.
Proof.
  intros Hval Hint Hbreak. unfold carried_value, carried_text.
  destruct (Str.mem s (CP.sections old)) eqn:E; cbn [negb].
  - apply mem_In in E. unfold CP.proxy_get, CP.proxy.
    unfold stored in *. destruct (OD.get old s) as [d|] eqn:Es.
    + cbn [bind]. destruct (OD.get d k) as [[x|]|] eqn:Ek.
      * destruct (Hval x eq_refl) as [Hx1 Hx2]. cbn [CP.value_of]. rewrite Hx1.
        cbn [bind]. eexists. split; [reflexivity|]. cbn [Py.str]. auto.
      * cbn [CP.value_of bind]. eexists. split; [reflexivity|]. cbn [Py.str].
        repeat split.
      * eexists. split; [reflexivity|]. auto.
    + apply od_get_none in Es. contradiction.
  - apply mem_false in E. eexists. split; [reflexivity|].
    unfold stored. destruct (OD.get old s) eqn:Es; [|auto].
    exfalso. apply E. eapply od_get_keys; eauto.
Qed.

Section Drift.

Variable textwrap_fill : string -> string -> string.

(** The validation of a parser that drifted from a schema that can be
    written, on values that are plain, succeeds. *)
Lemma validate_drifted_ok (st : store) :
  schema_wf (defaults st) = true ->
  schema_writable textwrap_fill (defaults st) = true ->
  (forall s k x, stored (config st) s k = Some (Some x) ->
                 CP.interpolated x = false /\ CP.has_linebreak x = false) ->
  matches_schema (config st) (defaults st) = false ->
  exists st', validate_config textwrap_fill st = Ok st'.
Proof.
  intros Hwf Hw Hplain Hdrift.
  pose proof Hwf as Hwf'. unfold schema_wf in Hwf'. apply andb_prop in Hwf'.
  destruct Hwf' as [Hnd Hall]. apply distinct_NoDup in Hnd.
  assert (Hval : forall s items k opt,
             In (s, items) (defaults st) -> In (k, Item opt) items -> k <> "helptext" ->
             exists v, carried_value (config st) s k opt = Ok v
                       /\ CP.interpolated (Py.str v) = false
                       /\ CP.has_linebreak (Py.str v) = false).
  { intros s items k opt Hs Hk Hne.
    destruct (writable_defaults textwrap_fill _ Hw s items k opt Hs Hk Hne)
      as (_ & Hi & Hb).
    destruct (carried_value_ok (config st) s k opt (Hplain s k) Hi Hb)
      as (v & Hv & _ & H1 & H2). eauto. }
  destruct (insert_sections_ok textwrap_fill (carried_value (config st)) _ Hnd Hw Hval)
    with (c := @nil (string * CP.options)) as (c & Ec & Hc).
  { constructor. }
  { reflexivity. }
  destruct (written_ok _ Hc) as (text & Etext).
  unfold validate_config. rewrite (check_config_change_true _ Hdrift). cbn [bind].
  unfold add_new_config_items. rewrite Ec. cbn [bind]. unfold save_config.
  cbn [config with_config]. rewrite Etext. cbn [bind].
  apply check_config_choices_ok with (textwrap_fill := textwrap_fill);
    cbn [defaults config with_config]; try assumption.
  destruct (written_values textwrap_fill _ _ _ _ Hwf Ec Etext) as (_ & Hvalues).
  intros s items k opt Hs Hk Hne.
  destruct (writable_option textwrap_fill _ _ _ _ _ Hw Hs Hk Hne) as [Hpk _].
  destruct (Hvalues s items k opt Hs Hk Hne Hpk) as (v & Hv & Hst & _).
  destruct (Hval s items k opt (od_get_In _ _ _ Hs) (od_get_In _ _ _ Hk) Hne)
    as (v' & Hv' & Hi & _).
  rewrite Hv in Hv'. injection Hv' as <-. eauto.
Qed.

(** C5, as the code has it.  On a file of the model whose sections or
    option names differ from those of a schema that can be written, the
    construction succeeds and writes the file once, from the schema.  The
    sections of the file are then those of the schema; an option of the
    schema holds the value the file had for it, stripped, or the text None
    when the file had the option without value, or the string of the schema
    default when the file did not have it; and a name that the schema does
    not declare for a section is not in the file. *)
Theorem drift_regenerates_file (st : store) (text0 : CP.t) :
  schema_wf (defaults st) = true ->
  schema_writable textwrap_fill (defaults st) = true ->
  config st = [] -> file st = Some text0 -> file_readable text0 = true ->
  matches_schema text0 (defaults st) = false ->
  exists st' text,
    handle_config textwrap_fill st = Ok st'
    /\ file st' = Some text /\ saves st' = S (saves st)
    /\ CP.sections text = OD.keys (defaults st)
    /\ (forall s items k opt,
          OD.get (defaults st) s = Some items ->
          OD.get items k = Some (Item opt) -> k <> "helptext" ->
          stored text s k = Some (Some (Str.strip (carried_text text0 s k opt))))
    /\ (forall s k,
          match OD.get (defaults st) s with
          | Some items => k = "helptext" \/ OD.get items k = None
          | None => True
          end ->
          stored text s k = None).
Proof.
  intros Hwf Hw Hempty Hfile Hread Hdrift.
  pose proof (load_readable st text0 Hempty Hfile Hread) as Hload.
  destruct (file_readable_inv _ Hread) as (_ & _ & Hplain).
  set (st2 := with_config st text0) in *.
  assert (Hchange : check_config_change st2 = Ok true)
    by now apply check_config_change_true.
  destruct (validate_drifted_ok st2 Hwf Hw Hplain Hdrift) as (st' & Hval).
  destruct (validate_config_regenerates textwrap_fill st2 st' Hwf Hchange Hval)
    as (text & Hf & Hs & Hsec & Hkeep & Hdrop).
  exists st', text. split; [|split; [exact Hf|split; [exact Hs|split; [exact Hsec|split]]]].
  - unfold handle_config, check_exists. rewrite Hfile. cbn [negb bind].
    rewrite Hload. exact Hval.
  - intros s items k opt Hs0 Hk Hne.
    destruct (writable_option textwrap_fill _ _ _ _ _ Hw Hs0 Hk Hne) as [Hpk _].
    exact (Hkeep s items k opt Hs0 Hk Hne Hpk).
  - exact Hdrop.
Qed.

End Drift.

Lemma drift_example :
  handle_config fill_short drifted_declared = Ok drifted_built
  /\ stored (file_text drifted_declared) "sect" "name" = None
  /\ stored (file_text drifted_built) "sect" "name" = Some (Some "face")
  /\ stored (file_text drifted_declared) "sect" "old" = Some (Some "1")
  /\ stored (file_text drifted_built) "sect" "old" = None
  /\ stored (file_text drifted_built) "sect" "rate" = Some (Some "0.25").
Proof.
  destruct (drift_regenerates_file fill_short drifted_declared
              (file_text drifted_declared)
              ltac:(vm_compute; reflexivity) ltac:(vm_compute; reflexivity)
              ltac:(reflexivity) ltac:(reflexivity)
              ltac:(vm_compute; reflexivity) ltac:(vm_compute; reflexivity))
    as (st' & text & Hh & Hf & _ & _ & Hkeep & Hdrop).
  vm_compute in Hh. injection Hh as <-.
  vm_compute in Hf. injection Hf as <-.
  split; [vm_compute; reflexivity|].
  split; [reflexivity|]. split; [|split; [reflexivity|split]].
  - exact (Hkeep "sect" (items_of drifted_declared "sect") "name"
             (option_of drifted_declared "sect" "name")
             ltac:(vm_compute; reflexivity) ltac:(vm_compute; reflexivity)
             ltac:(discriminate)).
  - exact (Hdrop "sect" "old" ltac:(vm_compute; right; reflexivity)).
  - exact (Hkeep "sect" (items_of drifted_declared "sect") "rate"
             (option_of drifted_declared "sect" "rate")
             ltac:(vm_compute; reflexivity) ltac:(vm_compute; reflexivity)
             ltac:(discriminate)).
Defined.

(** C5, the claim as stated fails for an option the file has without
    value: the regenerated file has it with the text None. *)
Lemma bare_option_is_not_kept :
  handle_config fill_short drifted_declared = Ok drifted_built
  /\ matches_schema (file_text drifted_declared) (defaults drifted_declared) = false
  /\ declared_type drifted_declared "sect" "flag" = Ok Dbool
  /\ stored (file_text drifted_declared) "sect" "flag" = Some None
  /\ stored (file_text drifted_built) "sect" "flag" = Some (Some "None").
Proof. repeat split; vm_compute; reflexivity. Qed.

(** ** A construction on a file that selects invalid choices *)

Lemma file_valued_inv (text : CP.t) (s k : string) :
  file_valued text = true -> stored text s k <> Some None.
Proof.
  unfold file_valued, stored. rewrite forallb_forall. intros H.
  destruct (OD.get text s) as [d|] eqn:Es; [|discriminate].
  intros Hk. apply od_get_In in Es. apply od_get_In in Hk.
  specialize (H _ Es). cbn [snd] in H. rewrite forallb_forall in H.
  specialize (H _ Hk). discriminate.
Qed.

(** A file of the model that matches the schema and has a value for every
    option holds a plain value for every option of the schema. *)
Lemma matching_file_holds_values (text : CP.t) (d : schema) :
  file_readable text = true -> file_valued text = true ->
  matches_schema text d = true -> holds_plain_values d text.
Proof.
  intros Hread Hval Hm s items k opt Hs Hk Hne.
  destruct (file_readable_inv _ Hread) as (_ & _ & Hplain).
  unfold matches_schema in Hm. apply andb_prop in Hm. destruct Hm as [_ Hm].
  rewrite forallb_forall in Hm. specialize (Hm _ (od_get_In _ _ _ Hs)).
  cbn [fst snd] in Hm. rewrite set_eqb_iff in Hm.
  assert (Hin : In k (option_keys text s)).
  { apply Hm. unfold declared_keys. apply filter_In. split.
    - eapply od_get_keys; eauto.
    - apply String.eqb_neq in Hne. now rewrite Hne. }
  unfold option_keys in Hin. apply filter_In in Hin. destruct Hin as [Hin _].
  apply stored_keys_In in Hin.
  destruct (stored text s k) as [[x|]|] eqn:E.
  - exists x. split; [reflexivity|]. now destruct (Hplain s k x E).
  - exfalso. exact (file_valued_inv text s k Hval E).
  - congruence.
Qed.

Section Selection.

Variable textwrap_fill : string -> string -> string.

(** The construction on a file of the model succeeds when the schema can
    be written and the file has a value for every option. *)
Lemma handle_config_ok (st : store) (text0 : CP.t) :
  schema_wf (defaults st) = true ->
  schema_writable textwrap_fill (defaults st) = true ->
  config st = [] -> file st = Some text0 ->
  file_readable text0 = true -> file_valued text0 = true ->
  exists st', handle_config textwrap_fill st = Ok st'.
Proof.
  intros Hwf Hw Hempty Hfile Hread Hval.
  pose proof (load_readable st text0 Hempty Hfile Hread) as Hload.
  destruct (file_readable_inv _ Hread) as (_ & _ & Hplain).
  unfold handle_config, check_exists. rewrite Hfile. cbn [negb bind].
  rewrite Hload. cbn [bind].
  destruct (matches_schema text0 (defaults st)) eqn:E.
  - unfold validate_config.
    rewrite (check_config_change_false (with_config st text0) E). cbn [bind].
    apply check_config_choices_ok with (textwrap_fill := textwrap_fill);
      cbn [defaults config with_config]; try assumption.
    now apply matching_file_holds_values.
  - now apply validate_drifted_ok.
Qed.

(** What a construction that succeeds leaves for a list option with
    choices: the file holds the value it held, stripped when the file was
    regenerated; the parser holds the valid tokens when there is an
    invalid one, and a warning is logged, and holds the value of the file
    otherwise. *)
Lemma handle_config_multi (st st' : store) (text0 : CP.t) (section item : string)
  (items : OD.t entry) (opt : opt_dict) (raw : string) :
  schema_wf (defaults st) = true ->
  schema_writable textwrap_fill (defaults st) = true ->
  config st = [] -> file st = Some text0 -> file_readable text0 = true ->
  OD.get (defaults st) section = Some items ->
  OD.get items item = Some (Item opt) ->
  item <> "helptext" -> i_type opt = Dlist -> i_choices opt <> [] ->
  stored text0 section item = Some (Some raw) ->
  handle_config textwrap_fill st = Ok st' ->
  stored (file_text st') section item
  = Some (Some (if matches_schema text0 (defaults st) then raw else Str.strip raw))
  /\ saves st' = (if matches_schema text0 (defaults st) then saves st else S (saves st))
  /\ let tokens := spec_parse_list raw in
     if existsb (fun val => negb (is_valid (i_choices opt) val)) tokens
     then
       let valid := Str.join ", " (filter (is_valid (i_choices opt)) tokens) in
       stored (config st') section item = Some (Some valid)
       /\ In (InvalidSelections
                (filter (fun val => negb (is_valid (i_choices opt) val)) tokens)
                section item valid) (warnings st')
     else stored (config st') section item = Some (Some raw).
Proof.
  intros Hwf Hw Hempty Hfile Hread Hs Hk Hne Hty Hch Hraw H.
  pose proof (load_readable st text0 Hempty Hfile Hread) as Hload.
  destruct (file_readable_inv _ Hread) as (_ & _ & Hplain).
  destruct (Hplain _ _ _ Hraw) as [Hraw1 Hraw2].
  apply handle_config_inv in H. destruct H as (st1 & st2 & H1 & H2 & H3).
  unfold check_exists in H1. rewrite Hfile in H1. subst st1.
  rewrite Hload in H2. injection H2 as <-.
  cbn [config defaults with_config] in H3.
  assert (Hfinish : forall stx,
             defaults stx = defaults st ->
             stored (config stx) section item = Some (Some raw) ->
             check_config_choices stx = Ok st' ->
             file st' = file stx /\ saves st' = saves stx
             /\ let tokens := spec_parse_list raw in
                if existsb (fun val => negb (is_valid (i_choices opt) val)) tokens
                then
                  let valid := Str.join ", " (filter (is_valid (i_choices opt)) tokens) in
                  stored (config st') section item = Some (Some valid)
                  /\ In (InvalidSelections
                           (filter (fun val => negb (is_valid (i_choices opt) val)) tokens)
                           section item valid) (warnings st')
                else stored (config st') section item = Some (Some raw)).
  { intros stx Hd Hst Hc.
    destruct (check_config_choices_untouched _ _ Hc) as (_ & Hf & Hsv & _).
    split; [exact Hf|]. split; [exact Hsv|].
    assert (Hget : CP.get (config stx) section item = Ok (Some raw)).
    { rewrite (stored_some _ _ _ _ Hst). cbn [CP.value_of]. now rewrite Hraw1. }
    rewrite <- Hd in Hwf, Hs.
    destruct (check_config_choices_multi stx st' section item items opt
                Hwf Hs Hk Hne Hty Hch Hc) as (tokens & Hp & Hres).
    rewrite (parse_list_of_get _ _ _ _ Hget) in Hp. injection Hp as <-.
    cbv zeta. destruct (existsb _ (spec_parse_list raw)); [exact Hres|].
    now rewrite Hres. }
  destruct H3 as [[Hm Hc]|[Hm (st3 & Ha & Hc)]]; rewrite Hm.
  - destruct (Hfinish (with_config st text0) eq_refl Hraw Hc) as (Hf & Hsv & Hres).
    cbn [file saves with_config] in Hf, Hsv.
    split; [|split; [exact Hsv | exact Hres]].
    unfold file_text. now rewrite Hf, Hfile.
  - apply add_new_config_items_inv in Ha.
    destruct Ha as (c & text & Hi & Hwr & Hf3 & Hc3 & Hd3 & Hs3).
    cbn [config defaults saves with_config] in Hi, Hd3, Hs3.
    destruct (written_values textwrap_fill _ _ _ _ Hwf Hi Hwr) as (_ & Hvalues).
    destruct (writable_option textwrap_fill _ _ _ _ _ Hw Hs Hk Hne) as [Hpk Hdef].
    destruct (Hvalues section items item opt Hs Hk Hne Hpk) as (v & Hv & Hstc & Hstt).
    assert (Hstr : Py.str v = raw).
    { destruct (writable_defaults textwrap_fill _ Hw section items item opt
                  (od_get_In _ _ _ Hs) (od_get_In _ _ _ Hk) Hne) as (_ & Hi' & Hb').
      destruct (carried_value_ok text0 section item opt (Hplain section item) Hi' Hb')
        as (v' & Hv' & Hstr' & _).
      rewrite Hv in Hv'. injection Hv' as <-.
      rewrite Hstr'. unfold carried_text. now rewrite Hraw. }
    rewrite Hstr in Hstc, Hstt. rewrite <- Hc3 in Hstc.
    destruct (Hfinish st3 Hd3 Hstc Hc) as (Hf & Hsv & Hres).
    split; [|split; [congruence | exact Hres]].
    unfold file_text. now rewrite Hf, Hf3.
Qed.

(** C1, as the code has it.  On a file of the model that has a value for
    every option, and a schema that can be written, the construction
    succeeds.  For a list option with choices whose value in the file has
    tokens that are no declared choice, the parser then holds the valid
    tokens in their order, joined by a comma and a space, and a warning is
    logged; when every token is valid, or the value is empty, the parser
    holds the value of the file.  The file is not written after the
    correction: it holds for the option the value it held, stripped when
    the file drifted from the schema and was regenerated before the check;
    and it was written once in that case and not at all otherwise. *)
Theorem multi_choice_keeps_valid_tokens (st : store) (text0 : CP.t)
  (section item : string) (items : OD.t entry) (opt : opt_dict) (raw : string) :
  schema_wf (defaults st) = true ->
  schema_writable textwrap_fill (defaults st) = true ->
  config st = [] -> file st = Some text0 ->
  file_readable text0 = true -> file_valued text0 = true ->
  OD.get (defaults st) section = Some items ->
  OD.get items item = Some (Item opt) ->
  item <> "helptext" -> i_type opt = Dlist -> i_choices opt <> [] ->
  stored text0 section item = Some (Some raw) ->
  exists st',
    handle_config textwrap_fill st = Ok st'
    /\ stored (file_text st') section item
       = Some (Some (if matches_schema text0 (defaults st) then raw else Str.strip raw))
    /\ saves st' = (if matches_schema text0 (defaults st) then saves st else S (saves st))
    /\ let tokens := spec_parse_list raw in
       if existsb (fun val => negb (is_valid (i_choices opt) val)) tokens
       then
         let valid := Str.join ", " (filter (is_valid (i_choices opt)) tokens) in
         stored (config st') section item = Some (Some valid)
         /\ In (InvalidSelections
                  (filter (fun val => negb (is_valid (i_choices opt) val)) tokens)
                  section item valid) (warnings st')
       else stored (config st') section item = Some (Some raw).
Proof.
  intros Hwf Hw Hempty Hfile Hread Hval Hs Hk Hne Hty Hch Hraw.
  destruct (handle_config_ok st text0 Hwf Hw Hempty Hfile Hread Hval) as (st' & H).
  exists st'. split; [exact H|].
  exact (handle_config_multi st st' text0 section item items opt raw
           Hwf Hw Hempty Hfile Hread Hs Hk Hne Hty Hch Hraw H).
Qed.

End Selection.

Lemma multi_choice_abc :
  (handle_config fill_short abc_declared = Ok abc_built
   /\ stored (config abc_built) "sect" "multi" = Some (Some "a, c")
   /\ In (InvalidSelections ["b"] "sect" "multi" "a, c") (warnings abc_built)
   /\ stored (file_text abc_built) "sect" "multi" = Some (Some "a, b, c"))
  /\ (handle_config fill_short unselected_declared = Ok unselected_built
      /\ stored (config unselected_built) "sect" "multi" = Some (Some "")
      /\ warnings unselected_built = []).
Proof.
  split.
  - destruct (multi_choice_keeps_valid_tokens fill_short abc_declared
                (file_text abc_declared) "sect" "multi"
                (items_of abc_declared "sect") (option_of abc_declared "sect" "multi")
                "a, b, c"
                ltac:(vm_compute; reflexivity) ltac:(vm_compute; reflexivity)
                ltac:(reflexivity) ltac:(reflexivity)
                ltac:(vm_compute; reflexivity) ltac:(vm_compute; reflexivity)
                ltac:(vm_compute; reflexivity) ltac:(vm_compute; reflexivity)
                ltac:(discriminate) ltac:(reflexivity) ltac:(discriminate)
                ltac:(reflexivity))
      as (st' & Hh & Hfile & _ & Hres).
    vm_compute in Hh. injection Hh as <-.
    split; [vm_compute; reflexivity|].
    vm_compute in Hres. destruct Hres as [Hv Hw].
    split; [exact Hv|]. split; [exact Hw|]. exact Hfile.
  - destruct (multi_choice_keeps_valid_tokens fill_short unselected_declared
                (file_text unselected_declared) "sect" "multi"
                (items_of unselected_declared "sect")
                (option_of unselected_declared "sect" "multi") ""
                ltac:(vm_compute; reflexivity) ltac:(vm_compute; reflexivity)
                ltac:(reflexivity) ltac:(reflexivity)
                ltac:(vm_compute; reflexivity) ltac:(vm_compute; reflexivity)
                ltac:(vm_compute; reflexivity) ltac:(vm_compute; reflexivity)
                ltac:(discriminate) ltac:(reflexivity) ltac:(discriminate)
                ltac:(reflexivity))
      as (st' & Hh & _ & _ & Hres).
    vm_compute in Hh. injection Hh as <-.
    split; [vm_compute; reflexivity|].
    split; [exact Hres | reflexivity].
Defined.

(** C1, the claim as stated fails for the persisted value: the construction
    corrects the value the parser holds, and leaves in the file the value
    with its invalid token, whether the file matched the schema and was not
    written, or drifted and was written before the check. *)
Lemma corrected_value_is_not_persisted :
  (handle_config fill_short abc_declared = Ok abc_built
   /\ declared_type abc_declared "sect" "multi" = Ok Dlist
   /\ i_choices (option_of abc_declared "sect" "multi") = ["a"; "c"; "none"]
   /\ stored (file_text abc_declared) "sect" "multi" = Some (Some "a, b, c")
   /\ stored (config abc_built) "sect" "multi" = Some (Some "a, c")
   /\ stored (file_text abc_built) "sect" "multi" = Some (Some "a, b, c")
   /\ saves abc_built = 0)
  /\ (handle_config fill_short abc_extra_declared = Ok abc_extra_built
      /\ stored (file_text abc_extra_declared) "sect" "multi" = Some (Some "a, b, c")
      /\ stored (config abc_extra_built) "sect" "multi" = Some (Some "a, c")
      /\ stored (file_text abc_extra_built) "sect" "multi" = Some (Some "a, b, c")
      /\ saves abc_extra_built = 1).
Proof. repeat split; vm_compute; reflexivity. Qed.
